(** * Transportation workbench: command handlers over a host CAD document

    A shallow embedding of the command handlers of the workbench
    (InsertCurve.py, GenerateLoft.py, box_culvert_tools.py, ImportTask.py)
    and of the editor of ImportAlignmentViewDelegate.py.
    Every handler is a short Python procedure that queries the host
    application, validates the selection, and issues host calls.  The
    handlers are embedded as programs of a small monad that threads the
    host state, records the host calls a handler makes (its trace), and
    propagates Python exceptions.

    The host application and the workbench modules the handlers import
    but whose sources are not at hand (SketchElement, GeometryUtilities,
    GeometryObjects, CurveUtilities, BoxCulvert, EndWall, LoftGroup,
    NewLoftDialog)
    are parameters: one type class per handler module lists the queries
    and the effects the handler uses.  Their calls are taken to answer;
    the exceptions that appear are the ones the handlers' own statements
    raise (a missing dictionary key, an attribute of [None], a subscript
    out of range, a call of something that is not callable, a division by
    zero).  [dict.has_key] in InsertCurve.py is read as in Python 2, the
    only version that has it; [open] in ImportTask.py raises [OSError],
    which is what the handler catches. *)

From Stdlib Require Import ZArith Bool List String Lia.
From Stdlib Require Import SpecFloat.
From stdpp Require Import base option list strings gmap.

#[local] Open Scope string_scope.
#[local] Open Scope list_scope.
#[local] Open Scope Z_scope.
#[local] Unset Default Proof Using.

(** ** Python runtime: exceptions, host calls, and the command monad *)

Module Py.

(** The Python exceptions the handlers can raise by themselves. *)
Inductive exn :=
| KeyError (key : string)
| IndexError
| AttributeError (type_name attribute : string)
| TypeError (message : string)
| ZeroDivisionError
| OSError.

(** Host calls made by a handler, in the order they are issued. *)
Inductive event :=
| addGeometry (construction : bool)
| addConstraint (constraint_type : string)
| delConstraint (index : Z)
| movePoint (geo_index pos : Z)
| addObject (type_id name : string)
| newObject (type_id name : string)
| recompute
| critical (title message : string)
| print (message : string)
| call (qualified_name : string) (arguments : list string).

(** The direct document mutations among the host calls. *)
Definition is_mutation (ev : event) : bool :=
  match ev with
  | addGeometry _ | addConstraint _ | delConstraint _ | movePoint _ _
  | addObject _ _ | newObject _ _ => true
  | recompute | critical _ _ | print _ | call _ _ => false
  end.

Definition is_recompute (ev : event) : bool :=
  match ev with recompute => true | _ => false end.

Definition is_critical (ev : event) : bool :=
  match ev with critical _ _ => true | _ => false end.

(** [M S A]: a command over host state [S] that either raises or returns
    an [A], leaves a new host state, and emits a trace of host calls. *)
Definition M (S A : Type) : Type := S -> (exn + A) * S * list event.

Definition ret {S A} (a : A) : M S A := fun s => (inr a, s, []).

Definition bind {S A B} (m : M S A) (f : A -> M S B) : M S B :=
  fun s =>
    match m s with
    | (inl e, s1, t1) => (inl e, s1, t1)
    | (inr a, s1, t1) =>
        match f a s1 with
        | (r, s2, t2) => (r, s2, t1 ++ t2)
        end
    end.

Definition raise {S A} (e : exn) : M S A := fun s => (inl e, s, []).
Definition emit {S} (ev : event) : M S unit := fun s => (inr tt, s, [ev]).
Definition gets {S A} (f : S -> A) : M S A := fun s => (inr (f s), s, []).
Definition modify {S} (f : S -> S) : M S unit := fun s => (inr tt, f s, []).
Definition lift {S A} (r : exn + A) : M S A := fun s => (r, s, []).
(** A host call [ev] whose effect on the host state is [f]. *)
Definition effect {S} (ev : event) (f : S -> S) : M S unit :=
  fun s => (inr tt, f s, [ev]).

(** A host call [ev] that changes the host state and answers with a value. *)
Definition request {S A} (ev : event) (f : S -> S * A) : M S A :=
  fun s => (inr (snd (f s)), fst (f s), [ev]).

Definition result {S A} (o : (exn + A) * S * list event) : exn + A := fst (fst o).
Definition final {S A} (o : (exn + A) * S * list event) : S := snd (fst o).
Definition trace {S A} (o : (exn + A) * S * list event) : list event := snd o.

Definition is_empty {A} (l : list A) : bool :=
  match l with [] => true | _ => false end.

(** Python list subscription [l[i]], negative indices counting from the end. *)
Definition subscript {A} (l : list A) (i : Z) : exn + A :=
  let j := if i <? 0 then Z.of_nat (length l) + i else i in
  if j <? 0 then inl IndexError
  else match l !! Z.to_nat j with
       | Some a => inr a
       | None => inl IndexError
       end.

(** Python's [needle in text] on strings. *)
Fixpoint contains (needle text : string) : bool :=
  String.prefix needle text ||
  match text with
  | EmptyString => false
  | String _ rest => contains needle rest
  end.

End Py.

Notation "'do' x <- m ; k" := (Py.bind m (fun x => k))
  (at level 10, x name, m at level 100, k at level 200, only parsing).
Notation "'run' m ; k" := (Py.bind m (fun _ => k))
  (at level 10, m at level 100, k at level 200, only parsing).

(** ** Binary64 numbers and the host's vectors *)

Definition float := spec_float.

Module F.
Definition prec : Z := 53.
Definition emax : Z := 1024.
Definition zero : float := S754_zero false.
Definition mul : float -> float -> float := SFmul prec emax.
Definition sub : float -> float -> float := SFsub prec emax.
Definition add : float -> float -> float := SFadd prec emax.
Definition div : float -> float -> float := SFdiv prec emax.
Definition of_Z (n : Z) : float := binary_normalize prec emax n 0 false.
Definition neg : float -> float := SFopp.
Definition abs : float -> float := SFabs.
(** The literal [0.25]. *)
Definition quarter : float := div (of_Z 1) (of_Z 4).
Definition is_zero (a : float) : bool :=
  match a with S754_zero _ => true | _ => false end.
(** Python's [a > b] on floats. *)
Definition gt (a b : float) : bool := SFltb b a.
(** Python's [a < b] on floats. *)
Definition lt (a b : float) : bool := SFltb a b.
End F.

(** [App.Vector] is the host's vector of three doubles. *)
Module Vector.
Record t := mk { x : float; y : float; z : float }.

(** The host's cross product: each component is a difference of two
    products, every operation rounded to binary64. *)
Definition cross (a b : t) : t :=
  {| x := F.sub (F.mul (y a) (z b)) (F.mul (z a) (y b));
     y := F.sub (F.mul (z a) (x b)) (F.mul (x a) (z b));
     z := F.sub (F.mul (x a) (y b)) (F.mul (y a) (x b)) |}.

Definition sub (a b : t) : t :=
  {| x := F.sub (x a) (x b); y := F.sub (y a) (y b); z := F.sub (z a) (z b) |}.
End Vector.

(** ** InsertCurve.py *)

Module InsertCurve.
Import Py.

(** *** Host data the command reads *)

(** The Python types the command compares element types with. *)
Inductive PyType := Part_LineSegment | Part_ArcOfCircle | Sketcher_Constraint | Other_type.

#[global] Instance PyType_eq_dec : EqDecision PyType.
Proof. solve_decision. Defined.

(** The host's [PointPos] enumeration, read from Python as an integer. *)
Inductive PointPos := pos_none | pos_start | pos_end | pos_mid.

Definition pos_value (p : PointPos) : Z :=
  match p with pos_none => 0 | pos_start => 1 | pos_end => 2 | pos_mid => 3 end.

(** A [Sketcher.Constraint] as the command reads it. *)
Record Constraint := {
  Type_ : string;
  First : Z;
  FirstPos : PointPos;
  Second : Z;
  SecondPos : PointPos
}.

(** What [get_element()] of a container returns. *)
Inductive Element :=
| LineSegment (Construction : bool)
| ArcOfCircle
| ConstraintElement (c : Constraint)
| OtherElement.

Definition type_of (e : Element) : PyType :=
  match e with
  | LineSegment _ => Part_LineSegment
  | ArcOfCircle => Part_ArcOfCircle
  | ConstraintElement _ => Sketcher_Constraint
  | OtherElement => Other_type
  end.

(** A container of the SketchElement module: the [index] of the element
    in its sketch and the recorded [type] of the element. *)
Record SketchElement := { index : Z; type : PyType }.

(** [GeometryObjects.Line2d] and the arc view of [as_arc2d()]. *)
Record Line2d := {
  start_point : Vector.t;
  end_point : Vector.t;
  slope : option float
}.

Record Arc2d := { sweep_angle : float; parameters : list float }.

(** The dictionary [_get_arc_parameters] returns. *)
Record ArcParameters := {
  location : Vector.t;
  radius : float;
  start_angle : float;
  sweep_angle_ : float
}.

(** Geometry and constraints the command builds and hands to the sketch. *)
Inductive NewGeometry :=
| NewArc (p : ArcParameters)
| NewLineSegment (l : Line2d).

Record NewConstraint := {
  new_type : string;
  new_first : Z;
  new_first_pos : Z;
  new_second : Z
}.

(** Values stored in the geometry dictionary. *)
Inductive value :=
| None_
| Elem (e : SketchElement)
| Point (v : Vector.t)
| Geometry (g : NewGeometry).

Definition is_None (v : value) : bool :=
  match v with None_ => true | _ => false end.

Definition type_name (v : value) : string :=
  match v with
  | None_ => "NoneType"
  | Elem _ => "SketchElement"
  | Point _ => "Vector"
  | Geometry _ => "Part.Geometry"
  end.

(** [d[key]] on a Python dict. *)
Definition getitem (d : gmap string value) (key : string) : exn + value :=
  match d !! key with
  | Some v => inr v
  | None => inl (KeyError key)
  end.

(** Reaching a container method or attribute through a dictionary value. *)
Definition container (v : value) (attribute : string) : exn + SketchElement :=
  match v with
  | Elem e => inr e
  | _ => inl (AttributeError (type_name v) attribute)
  end.

Definition as_point (v : value) : Vector.t :=
  match v with
  | Point p => p
  | _ => Vector.mk F.zero F.zero F.zero
  end.

(** *** The host and the helper modules, as the command uses them

    [H] is the state of the host document.  Queries read it; the sketch
    mutations and the recompute transform it. *)
Class Host (H : Type) := {
  (* Gui.Selection.getSelection(): the selected document objects *)
  Gui_getSelection : H -> list Z;
  (* GeometryUtilities *)
  GeoUtils_get_selection : H -> list SketchElement;
  GeoUtils_compare_vectors : Vector.t -> Vector.t -> bool;
  GeoUtils_get_quadrant : Vector.t -> Vector.t -> Z;
  (* SketchElement containers *)
  get_element : H -> SketchElement -> Element;
  get_points : H -> SketchElement -> list Vector.t;
  is_coincident : H -> SketchElement -> Z -> bool;
  match_attached_geometry : H -> SketchElement -> list SketchElement;
  match_by_vertex : H -> SketchElement -> Vector.t -> list SketchElement;
  get_binding_constraint : H -> SketchElement -> Z -> value;
  as_line2d : H -> SketchElement -> Line2d;
  as_arc2d : H -> SketchElement -> Arc2d;
  intersect2d : H -> SketchElement -> SketchElement -> Vector.t;
  container_Location : H -> SketchElement -> exn + Vector.t;
  skel_SketchConstraint : H -> Z -> SketchElement;
  skel_SketchGeometry : H -> Z -> SketchElement;
  (* the sketch and its Part geometry *)
  sketch_Constraints : H -> list Constraint;
  Location : H -> SketchElement -> Vector.t;
  FirstParameter : H -> SketchElement -> float;
  LastParameter : H -> SketchElement -> float;
  arc_value : H -> SketchElement -> float -> Vector.t;
  arc_tangent : H -> SketchElement -> float -> list Vector.t;
  (* GeometryObjects.Line2d *)
  Line2d_through : Vector.t -> Vector.t -> Line2d;
  Line2d_direction : Vector.t -> Vector.t -> Line2d;
  get_orthogonal : Line2d -> Vector.t -> Line2d;
  intersect : Line2d -> Line2d -> Vector.t;
  to_vector : Line2d -> Vector.t;
  (* App.Vector and math *)
  Vector_getAngle : Vector.t -> Vector.t -> float;
  Vector_Length : Vector.t -> float;
  Vector_str : Vector.t -> string;
  math_atan : float -> float;
  math_pi : float;
  (* effects on the host state *)
  sketch_addGeometry : H -> NewGeometry -> bool -> H * Z;
  sketch_addConstraint : H -> NewConstraint -> H;
  sketch_delConstraint : H -> Z -> H;
  sketch_movePoint : H -> Z -> Z -> Vector.t -> Z -> H;
  document_recompute : H -> H
}.

Section Command.
Context {H : Type} `{Host H}.

(** *** [_notify_error] (lines 704-730) *)

Definition message_of (error_type : string) : string :=
  if String.eqb error_type "Selection" then
    "Select two adjacent back tangents, two adjacent curves,             or an adjacent back tangent and curve to place curve."
  else if String.eqb error_type "Attached Geometry" then
    "Selected elements have attached arc."
  else if String.eqb error_type "Invalid Geometry" then
    "Selected elements have incorrect geometry.             Select either line segments or arcs.  Line segments must be             construction mode."
  else if String.eqb error_type "Invalid Constraint" then
    "Selected geometry are not properly constrained."
  else if String.eqb error_type "Not Coincident" then
    "Selected geometry do not intersect."
  else if String.eqb error_type "No Arc" then
    "Expected an arc to be selected."
  else "UNDEFINED ERROR".

Definition _notify_error (error_type : string) : M H unit :=
  let title := String.append error_type " Error" in
  let message := message_of error_type in
  emit (critical title message).

(** *** [_sort_vectors] (lines 181-198) *)

Definition _sort_vectors (vectors : list Vector.t) : exn + list Vector.t :=
  match subscript vectors 0 with
  | inl e => inl e
  | inr vec0 =>
      match subscript vectors 1 with
      | inl e => inl e
      | inr vec1 =>
          let cross_product := Vector.cross vec0 vec1 in
          if F.gt (Vector.z cross_product) F.zero
          then inr [vec1; vec0]
          else inr [vec0; vec1]
      end
  end.

(** *** [_get_constrained_vertex] (lines 400-416) *)

(** [c.get_element()] read as a constraint: its attributes [First],
    [FirstPos], [Second], [SecondPos] exist on a [Sketcher.Constraint] only. *)
Definition constraint_of (h : H) (c : value) (attribute : string) : exn + Constraint :=
  match container c "get_element" with
  | inl e => inl e
  | inr k =>
      match get_element h k with
      | ConstraintElement c => inr c
      | LineSegment _ => inl (AttributeError "Part.LineSegment" attribute)
      | ArcOfCircle => inl (AttributeError "Part.ArcOfCircle" attribute)
      | OtherElement => inl (AttributeError "Part.Geometry" attribute)
      end
  end.

Definition constrained_vertex (c : Constraint) : Z :=
  let result := pos_value (FirstPos c) in
  let result := if result =? 0 then pos_value (SecondPos c) else result in
  result - 1.

Definition _get_constrained_vertex (constraint : value) : M H Z :=
  do h <- gets id;
  do c <- lift (constraint_of h constraint "FirstPos");
  ret (constrained_vertex c).

(** *** [_validate_selection_geometry] (lines 641-702) *)

(** The state of the loop over the selected geometry. *)
Record scan := {
  valid_geo : bool;
  last_type : option PyType;
  is_two_lines : bool
}.

Fixpoint scan_geometry (h : H) (selection : list SketchElement) (st : scan) : scan :=
  match selection with
  | [] => st
  | geo :: rest =>
      let geo_type := type_of (get_element h geo) in
      let st1 :=
        match get_element h geo with
        | LineSegment construction =>
            {| valid_geo := construction;
               last_type := last_type st;
               is_two_lines := is_two_lines st |}
        | ArcOfCircle =>
            {| valid_geo := negb (bool_decide (last_type st = Some Part_ArcOfCircle));
               last_type := last_type st;
               is_two_lines := false |}
        | _ =>
            {| valid_geo := false;
               last_type := last_type st;
               is_two_lines := is_two_lines st |}
        end in
      if negb (valid_geo st1) then st1
      else scan_geometry h rest
             {| valid_geo := valid_geo st1;
                last_type := Some geo_type;
                is_two_lines := is_two_lines st1 |}
  end.

(** The loop over the attached geometry: report the first arc, then stop.
    The flag the loop clears is set again right after the loop (line 700),
    so only the dialog is left of it. *)
Fixpoint report_attached_arc (items : list SketchElement) : M H unit :=
  match items with
  | [] => ret tt
  | item :: rest =>
      if bool_decide (type item = Part_ArcOfCircle)
      then _notify_error "Attached Geometry"
      else report_attached_arc rest
  end.

Definition _validate_selection_geometry (selection : list SketchElement) : M H bool :=
  let sel_count := Z.of_nat (length selection) in
  if sel_count =? 0 then ret true
  else if negb (sel_count =? 2) then
    run _notify_error "Selection";
    ret false
  else
    do h <- gets id;
    let st := scan_geometry h selection
                {| valid_geo := true; last_type := None; is_two_lines := true |} in
    if valid_geo st && is_two_lines st then
      do s0 <- lift (subscript selection 0);
      do s1 <- lift (subscript selection 1);
      if is_coincident h s0 (index s1) then
        let result := match_attached_geometry h s0 in
        run report_attached_arc result;
        ret true
      else ret (valid_geo st)
    else ret (valid_geo st).

(** *** [_validate_selection_constraints] (lines 599-639) *)

Definition is_line (h : H) (e : SketchElement) : bool :=
  bool_decide (type_of (get_element h e) = Part_LineSegment).

Fixpoint valid_constraints (h : H) (two_back_tangents : bool)
    (i : Z) (constraints : list Constraint) : list SketchElement :=
  match constraints with
  | [] => []
  | constraint :: rest =>
      let is_valid := String.eqb (Type_ constraint) "Tangent" && negb two_back_tangents in
      let is_valid :=
        if negb is_valid
        then (String.eqb (Type_ constraint) "Coincident"
              || String.eqb (Type_ constraint) "PointOnObject") && two_back_tangents
        else is_valid in
      if negb is_valid then valid_constraints h two_back_tangents (i + 1) rest
      else skel_SketchConstraint h i
             :: valid_constraints h two_back_tangents (i + 1) rest
  end.

Definition _validate_selection_constraints (selection : list SketchElement)
    : M H (list SketchElement) :=
  do h <- gets id;
  do s0 <- lift (subscript selection 0);
  do two_back_tangents <-
    (if is_line h s0
     then do s1 <- lift (subscript selection 1); ret (is_line h s1)
     else ret false);
  ret (valid_constraints h two_back_tangents 0 (sketch_Constraints h)).

(** *** [_validate_selection_bindings] (lines 563-597) *)

(** The inner loop: [are_connected] after visiting the selection,
    leaving at the first element the constraint does not touch. *)
Fixpoint connected (c : Constraint) (selection : list SketchElement)
    (are_connected : bool) : bool :=
  match selection with
  | [] => are_connected
  | sel :: rest =>
      let are_connected := (First c =? index sel) || (Second c =? index sel) in
      if negb are_connected then are_connected
      else connected c rest are_connected
  end.

Fixpoint binding_constraint (h : H) (selection constraints : list SketchElement)
    : exn + list SketchElement :=
  match constraints with
  | [] => inr []
  | constraint :: rest =>
      match selection with
      | [] => binding_constraint h selection rest
      | _ :: _ =>
          match constraint_of h (Elem constraint) "First" with
          | inl e => inl e
          | inr c =>
              if connected c selection false then inr [constraint]
              else binding_constraint h selection rest
          end
      end
  end.

Definition _validate_selection_bindings (selection constraints : list SketchElement)
    : M H (list SketchElement) :=
  do h <- gets id;
  lift (binding_constraint h selection constraints).

(** *** [_validate_selection] (lines 527-561) *)

Definition _validate_selection : M H (option (list SketchElement)) :=
  do selection <- gets GeoUtils_get_selection;
  do ok <- _validate_selection_geometry selection;
  if negb ok then
    run _notify_error "Invalid Geometry";
    ret None
  else
    do constraint_list <- _validate_selection_constraints selection;
    if is_empty constraint_list then
      run _notify_error "Invalid Constraint";
      ret None
    else
      do constraint_list <- _validate_selection_bindings selection constraint_list;
      if is_empty constraint_list then
        run _notify_error "Invalid Constraint";
        ret None
      else ret (Some (selection ++ constraint_list)).

(** *** [_get_tangents] (lines 482-525) *)

Definition sort_selected (h : H) (result : gmap string value) (sel : SketchElement)
    : exn + gmap string value :=
  if bool_decide (type_of (get_element h sel) = Part_ArcOfCircle)
  then inr (<["arc" := Elem sel]> result)
  else
    match getitem result "start_tangent" with
    | inl e => inl e
    | inr st =>
        if is_None st
        then inr (<["start_tangent" := Elem sel]> result)
        else inr (<["end_tangent" := Elem sel]> result)
    end.

Fixpoint sort_selection (h : H) (selection : list SketchElement)
    (result : gmap string value) : exn + gmap string value :=
  match selection with
  | [] => inr result
  | sel :: rest =>
      match sort_selected h result sel with
      | inl e => inl e
      | inr result' => sort_selection h rest result'
      end
  end.

(** The loop over the geometry attached to the arc: the first line
    segment whose index differs from the start tangent's. *)
Fixpoint find_end_tangent (attached_geo : list SketchElement)
    (result : gmap string value) : exn + gmap string value :=
  match attached_geo with
  | [] => inr result
  | geo :: rest =>
      match getitem result "start_tangent" with
      | inl e => inl e
      | inr st =>
          match container st "index" with
          | inl e => inl e
          | inr start_tangent =>
              if negb (index geo =? index start_tangent) then
                if bool_decide (type geo = Part_LineSegment)
                then inr (<["end_tangent" := Elem geo]> result)
                else find_end_tangent rest result
              else find_end_tangent rest result
          end
      end
  end.

Definition _get_tangents (selection : list SketchElement) : M H (gmap string value) :=
  do h <- gets id;
  let result : gmap string value :=
    <["arc" := None_]> (<["start_tangent" := None_]>
      (<["end_tangent" := None_]> (<["constraint" := None_]> ∅))) in
  do result <- lift (sort_selection h selection result);
  do arc <- lift (getitem result "arc");
  if is_None arc then ret result
  else
    do arc <- lift (container arc "match_attached_geometry");
    let attached_geo := match_attached_geometry h arc in
    lift (find_end_tangent attached_geo result).

(** *** [_delete_constraints] (lines 259-316) *)

Fixpoint delete_attached (attached : list SketchElement) (geo_dict : gmap string value)
    : M H (gmap string value) :=
  match attached with
  | [] => ret geo_dict
  | _a :: rest =>
      let geo_dict :=
        if negb (bool_decide (type _a = Sketcher_Constraint))
        then <["adjacent" := Elem _a]> geo_dict
        else geo_dict in
      run effect (delConstraint (index _a)) (fun h => sketch_delConstraint h (index _a));
      delete_attached rest geo_dict
  end.

Definition recompute_document : M H unit :=
  effect recompute document_recompute.

Definition _delete_constraints (geo_dict : gmap string value) (vertex_index : Z)
    : M H (gmap string value) :=
  do h <- gets id;
  do arc <- lift (getitem geo_dict "arc");
  do arc <- lift (container arc "get_points");
  do arc_vertex <- lift (subscript (get_points h arc) vertex_index);
  let attached := match_by_vertex h arc arc_vertex in
  do geo_dict <- delete_attached attached geo_dict;
  run recompute_document;
  ret geo_dict.

(** *** [_adjust_curve] (lines 364-398) *)

Definition _adjust_curve (geo_dict : gmap string value) (vertex_index : Z) (factor : float)
    : M H (gmap string value) :=
  do h <- gets id;
  do arc_v <- lift (getitem geo_dict "arc");
  do arc <- lift (container arc_v "as_arc2d");
  let delta_angle := F.mul (sweep_angle (as_arc2d h arc)) factor in
  let _u := F.add (FirstParameter h arc) delta_angle in
  let _u := if vertex_index =? 1 then F.sub (LastParameter h arc) delta_angle else _u in
  let point := arc_value h arc _u in
  run effect (movePoint (index arc) (vertex_index + 1))
        (fun h => sketch_movePoint h (index arc) (vertex_index + 1) point 0);
  run recompute_document;
  (* geo_dict["arc"].index = arc.index stores the index it reads;
     the shape computed on line 396 is not used *)
  ret geo_dict.

(** *** [_generate_new_back_tangent] (lines 418-480) *)

Definition point_on_object (new_tan_idx i : Z) (source : value) : M H unit :=
  do source <- lift (container source "index");
  let constraint :=
    {| new_type := "PointOnObject"; new_first := new_tan_idx;
       new_first_pos := i + 1; new_second := index source |} in
  effect (addConstraint "PointOnObject") (fun h => sketch_addConstraint h constraint).

Definition _generate_new_back_tangent (geo_dict : gmap string value) (vertex_index : Z)
    : M H value :=
  do h <- gets id;
  do arc <- lift (getitem geo_dict "arc");
  do start_tangent <- lift (getitem geo_dict "start_tangent");
  do end_tangent <- lift (getitem geo_dict "end_tangent");
  do arc <- lift (container arc "as_arc2d");
  let arc_2d := as_arc2d h arc in
  do parameter <- lift (subscript (parameters arc_2d) vertex_index);
  do tan_vec <- lift (subscript (arc_tangent h arc parameter) 0);
  do arc_point <- lift (subscript (get_points h arc) vertex_index);
  let new_tan_line := Line2d_direction arc_point tan_vec in
  do start_line <- lift (container start_tangent "as_line2d");
  let new_tan_line :=
    {| start_point := intersect new_tan_line (as_line2d h start_line);
       end_point := end_point new_tan_line;
       slope := slope new_tan_line |} in
  do end_line <- lift (container end_tangent "as_line2d");
  let new_tan_line :=
    {| start_point := start_point new_tan_line;
       end_point := intersect new_tan_line (as_line2d h end_line);
       slope := slope new_tan_line |} in
  let new_tangent := NewLineSegment new_tan_line in
  do new_tan_idx <-
    request (addGeometry true) (fun h => sketch_addGeometry h new_tangent true);
  run recompute_document;
  run point_on_object new_tan_idx 0 start_tangent;
  run point_on_object new_tan_idx 1 end_tangent;
  run recompute_document;
  let constraint :=
    {| new_type := "Tangent"; new_first := index arc;
       new_first_pos := vertex_index + 1; new_second := new_tan_idx |} in
  run effect (addConstraint "Tangent") (fun h => sketch_addConstraint h constraint);
  run recompute_document;
  do h <- gets id;
  ret (Elem (skel_SketchGeometry h new_tan_idx)).

(** *** [_get_line_segments] (lines 200-257) *)

(** [d.has_key(key)] of Python 2. *)
Definition has_key (d : gmap string value) (key : string) : bool :=
  bool_decide (is_Some (d !! key)).

(** The loop over the points of the first tangent: the split tangent
    becomes the second tangent once a point coincides with the p.i. *)
Fixpoint pick_split_tangent (p_i : Vector.t) (points : list Vector.t)
    (split_tangent other : SketchElement) : SketchElement :=
  match points with
  | [] => split_tangent
  | point :: rest =>
      if GeoUtils_compare_vectors p_i point
      then pick_split_tangent p_i rest other other
      else pick_split_tangent p_i rest split_tangent other
  end.

Definition _get_line_segments (geo_dict : gmap string value) (arc_vertex : Vector.t)
    : M H (option (list Line2d) * gmap string value) :=
  do h <- gets id;
  do t0 <- lift (getitem geo_dict "start_tangent");
  do t1 <- lift (getitem geo_dict "end_tangent");
  do tangent0 <- lift (container t0 "is_coincident");
  do tangent1 <- lift (container t1 "index");
  if is_coincident h tangent0 (index tangent1) then
    ret (Some [as_line2d h tangent0; as_line2d h tangent1], geo_dict)
  else if negb (has_key geo_dict "arc") then
    run _notify_error "No Arc";
    ret (None, geo_dict)
  else
    let p_i := intersect2d h tangent0 tangent1 in
    let geo_dict := <["p_i" := Point p_i]> geo_dict in
    do arc <- lift (getitem geo_dict "arc");
    do arc <- lift (container arc "get_element");
    let arc_line := Line2d_through p_i arc_vertex in
    let split_tangent := pick_split_tangent p_i (get_points h tangent0) tangent0 tangent1 in
    let ortho := get_orthogonal (as_line2d h split_tangent) (Location h arc) in
    let tangent_vertex := intersect ortho (as_line2d h split_tangent) in
    let split_line := Line2d_through p_i tangent_vertex in
    ret (Some [arc_line; split_line], geo_dict).

(** *** [_get_arc_parameters] (lines 109-179) *)

Definition subscript_lines (tangents : option (list Line2d)) (i : Z) : exn + Line2d :=
  match tangents with
  | None => inl (TypeError "'NoneType' object has no attribute '__getitem__'")
  | Some l => subscript l i
  end.

Definition _get_arc_parameters (geo_dict : gmap string value) (vertex_index : Z)
    : M H (ArcParameters * gmap string value) :=
  do h <- gets id;
  do arc <- lift (getitem geo_dict "arc");
  do arc <- lift (container arc "get_points");
  do arc_vertex <- lift (subscript (get_points h arc) vertex_index);
  let arc_loc := Location h arc in
  run emit (print (String.append "arc vertex: " (Vector_str arc_vertex)));
  do segments <- _get_line_segments geo_dict arc_vertex;
  let '(tangents, geo_dict) := segments in
  do tangent0 <- lift (subscript_lines tangents 0);
  let ortho0 := get_orthogonal tangent0 arc_vertex in
  do tangent1 <- lift (subscript_lines tangents 1);
  let tangent_vertex := start_point tangent1 in
  do p_i <- lift (getitem geo_dict "p_i");
  let tangent_vertex :=
    if GeoUtils_compare_vectors (as_point p_i) tangent_vertex
    then end_point tangent1 else tangent_vertex in
  let ortho1 := get_orthogonal tangent1 tangent_vertex in
  let arc_rad := Vector_Length (Vector.sub arc_loc tangent_vertex) in
  let cp := Vector.cross (to_vector ortho0) (to_vector ortho1) in
  let '(ortho0, ortho1) :=
    if F.lt (Vector.z cp) F.zero then (ortho1, ortho0) else (ortho0, ortho1) in
  let quad := Z.abs (GeoUtils_get_quadrant arc_loc (start_point ortho0)) in
  let start_angle := F.mul (F.of_Z (quad - 1)) (F.div math_pi (F.of_Z 2)) in
  do start_angle <-
    match slope ortho0 with
    | None =>
        do loc <- lift (container_Location h arc);
        if F.gt (Vector.y loc) (Vector.y (start_point ortho0))
        then ret (F.mul start_angle (F.neg (F.of_Z 1)))
        else ret start_angle
    | Some m =>
        if F.is_zero m then raise ZeroDivisionError
        else ret (F.add start_angle (math_atan (F.abs (F.div (F.of_Z 1) m))))
    end;
  let sweep := F.add (Vector_getAngle (to_vector ortho1) (to_vector ortho0)) start_angle in
  ret ({| location := arc_loc; radius := arc_rad;
          start_angle := start_angle; sweep_angle_ := sweep |}, geo_dict).

(** *** [_reconstrain] (lines 318-362) *)

Definition _reconstrain (geo_dict : gmap string value) (vertex_index : Z) : M H unit :=
  if has_key geo_dict "arc" then
    do arc <- lift (getitem geo_dict "arc");
    if vertex_index =? -1 then ret tt
    else
      do new_arc <- lift (getitem geo_dict "new_arc");
      (* arc.get_points[vertex_index] subscripts the bound method itself;
         nothing after it on lines 342-358 is reached *)
      do arc <- lift (container arc "get_points");
      raise (TypeError "'instancemethod' object has no attribute '__getitem__'")
  else ret tt.

(** *** [Activated] (lines 38-107)

    The body is embedded in pieces: the branch taken when the selection
    holds an arc (lines 64-91, whose second half is lines 79-91), the
    placement of the new arc (lines 95-107), and the handler that runs
    them after validation. *)

(** Lines 79-91: free the constrained end of the arc, shorten the arc,
    and put the new back tangent in the place of the end tangent. *)
Definition make_room (geo_dict : gmap string value) (vertex_index : Z)
    : M H (option (gmap string value * Z)) :=
  do geo_dict <- _delete_constraints geo_dict vertex_index;
  do geo_dict <- _adjust_curve geo_dict vertex_index F.quarter;
  do new_tangent <- _generate_new_back_tangent geo_dict vertex_index;
  let geo_dict := <["new_tangent" := new_tangent]> geo_dict in
  do new_tangent <- lift (getitem geo_dict "new_tangent");
  let geo_dict := <["end_tangent" := new_tangent]> geo_dict in
  ret (Some (geo_dict, vertex_index)).

(** Lines 64-91: [None] when the command returns from inside the
    branch, the updated dictionary and the vertex index otherwise. *)
Definition adjust_existing_arc (geo_dict : gmap string value) (arc : value)
    : M H (option (gmap string value * Z)) :=
  do end_tangent <- lift (getitem geo_dict "end_tangent");
  if is_None end_tangent then ret None
  else
    do h <- gets id;
    do arc <- lift (container arc "get_binding_constraint");
    do start_tangent <- lift (getitem geo_dict "start_tangent");
    do start_tangent <- lift (container start_tangent "index");
    let geo_dict :=
      <["constraint" := get_binding_constraint h arc (index start_tangent)]> geo_dict in
    do constraint <- lift (getitem geo_dict "constraint");
    do vertex_index <- _get_constrained_vertex constraint;
    if vertex_index <? 0 then
      run _notify_error "Invalid Constraint";
      ret None
    else make_room geo_dict vertex_index.

(** Lines 95-107. *)
Definition place_new_arc (geo_dict : gmap string value) (vertex_index : Z) : M H unit :=
  do parameters <- _get_arc_parameters geo_dict vertex_index;
  let '(arc_parameters, geo_dict) := parameters in
  let new_arc := NewArc arc_parameters in
  run request (addGeometry false) (fun h => sketch_addGeometry h new_arc false);
  run recompute_document;
  let geo_dict := <["new arc" := Geometry new_arc]> geo_dict in
  _reconstrain geo_dict vertex_index.

Definition Activated : M H unit :=
  do selected <- gets Gui_getSelection;
  if is_empty selected then _notify_error "Selection"
  else
    do selection <- _validate_selection;
    match selection with
    | None => ret tt
    | Some selection =>
        do geo_dict <- _get_tangents selection;
        let vertex_index := -1 in
        do arc <- lift (getitem geo_dict "arc");
        do prepared <-
          (if negb (is_None arc)
           then adjust_existing_arc geo_dict arc
           else ret (Some (geo_dict, vertex_index)));
        match prepared with
        | None => ret tt
        | Some (geo_dict, vertex_index) => place_new_arc geo_dict vertex_index
        end
    end.

End Command.

End InsertCurve.

(** ** GenerateLoft.py *)

Module GenerateLoft.
Import Py.

(** A document object, as far as the command looks at it. *)
Record Object := { Name : string; TypeId : string }.

#[global] Instance Object_eq_dec : EqDecision Object.
Proof. solve_decision. Defined.

(** The values the loft dialog hands back. *)
Record LoftInput := {
  alignment : string;
  template : string;
  name : string;
  interval : string;
  stations : string
}.

(** The host document [D] and the selection service. *)
Class Document (D : Type) := {
  Gui_getSelection : D -> list Object;
  findObjects : D -> string -> string -> list Object;
  getObject : D -> string -> option Object;
  OutList : D -> Object -> list Object;
  doc_addObject : D -> string -> string -> D * Object;
  doc_recompute : D -> D;
  (* the loft dialog and the LoftGroup module *)
  dialog_exec : D -> D;
  dialog_input : D -> LoftInput;
  createLoftGroup : D -> Object -> LoftInput -> D;
  regenerate : D -> D
}.

Section Command.
Context {D : Type} `{Document D}.

(** *** [_validate_tree] (lines 55-70) *)

Definition _validate_tree : M D Object :=
  do parent <- gets (fun d => findObjects d "App::DocumentObjectGroup" "Lofts");
  match parent with
  | [] =>
      do result <-
        request (addObject "App::DocumentObjectGroup" "Lofts")
          (fun d => doc_addObject d "App::DocumentObjectGroup" "Lofts");
      run effect recompute doc_recompute;
      ret result
  | first :: _ => ret first
  end.

(** *** [Activated] (lines 72-125) *)

Definition is_alignment (obj : Object) : bool :=
  String.eqb (TypeId obj) "Part::Part2DObjectPython".

Definition is_template (obj : Object) : bool :=
  String.eqb (TypeId obj) "Sketcher::SketchObjectPython".

(** The loop over the pre-selected objects: [None] when it leaves the
    command at an object of another type, the two lists otherwise. *)
Fixpoint sort_preselected (selection : list Object) (align_list template_list : list Object)
    : option (list Object * list Object) :=
  match selection with
  | [] => Some (align_list, template_list)
  | obj :: rest =>
      if negb (is_alignment obj || is_template obj) then None
      else if is_alignment obj
      then sort_preselected rest (align_list ++ [obj]) template_list
      else sort_preselected rest align_list (template_list ++ [obj])
  end.

Definition folder_objects (d : D) (folder : option Object) : list Object :=
  match folder with
  | Some f => OutList d f
  | None => []
  end.

Definition Activated : M D unit :=
  run emit (call "NewLoftDialog.NewLoftDialog" ["ft"]);
  do selection <- gets Gui_getSelection;
  match sort_preselected selection [] [] with
  | None =>
      emit (print "Invalid object type found.  Select a spline and sketch to perform loft")
  | Some (align_list, template_list) =>
      do d <- gets id;
      let align_folder := getObject d "Alignments" in
      let template_folder := getObject d "Templates" in
      let align_list := align_list ++ folder_objects d align_folder in
      let template_list := template_list ++ folder_objects d template_folder in
      run emit (call "dialog.set_alignment_list" (map Name align_list));
      run emit (call "dialog.set_template_list" (map Name template_list));
      run effect (call "dialog.exec_" []) dialog_exec;
      do input <- gets dialog_input;
      do d <- gets id;
      match getObject d "Lofts" with
      | None => raise (AttributeError "Document" "Lofts")
      | Some lofts =>
          run effect (call "LoftGroup.createLoftGroup"
                        [Name lofts; name input; alignment input; template input])
                (fun d => createLoftGroup d lofts input);
          run emit (call "_lg.set_stations" [stations input]);
          run emit (call "_lg.set_interval" [interval input]);
          run effect (call "_lg.regenerate" []) regenerate;
          effect recompute doc_recompute
      end
  end.

End Command.

End GenerateLoft.

(** ** box_culvert_tools.py *)

Module box_culvert_tools.
Import Py.

(** A selected document object: the [Type] of its [Proxy], when the
    object has a [Proxy] and the proxy has a [Type], and its [Group]. *)
Record Selected := {
  Proxy : option (option string);
  Group : list string
}.

(** The host document [D], the selection service, and the BoxCulvert
    module of the workbench. *)
Class Document (D : Type) := {
  Gui_getSelection : D -> list Selected;
  (* addObject returns the name the document gave the new object *)
  doc_addObject : D -> string -> string -> D * string;
  set_Label : D -> string -> string -> D;
  translate : string -> string -> string;
  doc_recompute : D -> D;
  BoxCulvert_init : D -> string -> D;
  set_SweepPath : D -> string -> D;
  attach_sketch : D -> string -> string -> D;
  orient_profile : D -> D;
  sweep_sketch : D -> D;
  drainage_lib_path : string
}.

Section Command.
Context {D : Type} `{Document D}.

(** *** [add_1_cell_box] (lines 69-111): returns the new group, or [None] *)

Definition sweep_path (sel : list Selected) : exn + option string :=
  match subscript sel 0 with
  | inl e => inl e
  | inr first =>
      match Proxy first with
      | Some (Some proxy_type) =>
          if String.eqb proxy_type "Alignment" then
            match subscript (Group first) 0 with
            | inl e => inl e
            | inr path => inr (Some path)
            end
          else inr None
      | _ => inr None
      end
  end.

Definition add_1_cell_box : M D (option string) :=
  do obj <-
    request (addObject "App::DocumentObjectGroupPython" "BoxCulvert1Cell")
      (fun d => doc_addObject d "App::DocumentObjectGroupPython" "BoxCulvert1Cell");
  run modify (fun d => set_Label d obj (translate "Transportation" "BoxCulvert1Cell"));
  run effect (call "BoxCulvert.BoxCulvert" [obj]) (fun d => BoxCulvert_init d obj);
  do sel <- gets Gui_getSelection;
  if is_empty sel then
    run emit (print "No alignment selected");
    ret None
  else
    do valid_sel <- lift (sweep_path sel);
    match valid_sel with
    | None =>
        run emit (print "Invalid selection for sweep");
        ret None
    | Some valid_sel =>
        run effect (call "box.SweepPath" [valid_sel]) (fun d => set_SweepPath d valid_sel);
        run effect (call "box.attach_sketch" [drainage_lib_path; "box_1_cell"])
              (fun d => attach_sketch d drainage_lib_path "box_1_cell");
        run effect (call "box.orient_profile" []) orient_profile;
        run effect recompute doc_recompute;
        run effect (call "box.sweep_sketch" ["10000.0"]) sweep_sketch;
        ret (Some obj)
    end.

End Command.

End box_culvert_tools.

(** ** box_culvert_tools.py: the body, the parameters, and the end treatments *)

Module box_culvert_parts.
Import Py.

(** A document object as these tools read it. *)
Record Object := { Name : string; TypeId : string; Label : string }.

(** The host document [D], the selection service, and the EndWall module
    of the workbench. *)
Class Document (D : Type) := {
  Gui_getSelection : D -> list Object;
  (* the SubElementNames of each entry of Gui.Selection.getSelectionEx() *)
  Gui_getSelectionEx : D -> list (list string);
  clearSelection : D -> D;
  (* None when the object has no parent of the kind *)
  getParentGeoFeatureGroup : D -> Object -> option Object;
  getParentGroup : D -> Object -> option Object;
  Group : D -> Object -> list Object;
  body_newObject : D -> Object -> string -> string -> D * Object;
  doc_addObject : D -> string -> string -> D * Object;
  set_Label : D -> Object -> string -> D;
  set_property : D -> Object -> string -> list string -> D;
  setExpression : D -> Object -> string -> string -> D;
  (* gui_doc.getObject(target).property = gui_doc.getObject(source).property *)
  copy_view_property : D -> Object -> Object -> string -> D;
  doc_recompute : D -> D;
  translate : string -> string -> string;
  EndWall_validate_selection : D -> option string;
  EndWall_init : D -> Object -> Object -> D;
  attach_sketch : D -> string -> string -> D;
  orient_profile : D -> string -> D;
  drainage_lib_path : string
}.

Section Tools.
Context {D : Type} `{Document D}.

(** *** [get_body] (lines 44-53) *)

Definition get_body : M D (option Object) :=
  do sel <- gets Gui_getSelection;
  do first <- lift (subscript sel 0);
  do d <- gets id;
  match getParentGeoFeatureGroup d first with
  | None => raise (AttributeError "NoneType" "TypeId")
  | Some body =>
      if negb (String.eqb (TypeId body) "PartDesign::Body") then
        run emit (print "invalid object hierarchy.  Body not found.");
        ret None
      else ret (Some body)
  end.

(** *** [get_parameters] (lines 55-67) *)

(** The loop over the children: every child whose label holds
    "Parameters" replaces the one found before. *)
Fixpoint find_parameters (children : list Object) (parameters : option Object)
    : option Object :=
  match children with
  | [] => parameters
  | child :: rest =>
      find_parameters rest
        (if contains "Parameters" (Label child) then Some child else parameters)
  end.

Definition get_parameters (parent_obj : option Object) : M D (option Object) :=
  match parent_obj with
  | None => raise (AttributeError "NoneType" "Group")
  | Some parent_obj =>
      do d <- gets id;
      match find_parameters (Group d parent_obj) None with
      | None =>
          run emit (print "Unable to find Parameters object");
          ret None
      | Some parameters => ret (Some parameters)
      end
  end.

(** *** [draft_ends] (lines 113-185) *)

(** The loop [for i in range(2)] that counts the faces. *)
Fixpoint count_faces (faces : list string) (range : list Z) (face_count : Z) : exn + Z :=
  match range with
  | [] => inr face_count
  | i :: rest =>
      match subscript faces i with
      | inl e => inl e
      | inr face =>
          count_faces faces rest
            (if contains "Face" face then face_count + 1 else face_count)
      end
  end.

(** The loop over the children of the body: the first additive pipe. *)
Fixpoint find_sweep (children : list Object) : option Object :=
  match children with
  | [] => None
  | child :: rest =>
      if String.eqb (TypeId child) "PartDesign::AdditivePipe" then Some child
      else find_sweep rest
  end.

(** Lines 173-177: the five view properties the draft takes from the body. *)
Definition view_properties : list string :=
  ["ShapeColor"; "LineColor"; "PointColor"; "Transparency"; "DisplayMode"].

Fixpoint copy_view_properties (draft_object body : Object) (properties : list string)
    : M D unit :=
  match properties with
  | [] => ret tt
  | property :: rest =>
      run effect (call (String.append "gui_draft." property) [Name body])
            (fun d => copy_view_property d draft_object body property);
      copy_view_properties draft_object body rest
  end.

Definition draft_ends : M D unit :=
  do selection_ex <- gets Gui_getSelectionEx;
  do faces <- lift (subscript selection_ex 0);
  do face_count <-
    lift (if Z.of_nat (length faces) =? 2 then count_faces faces [0; 1] 0 else inr 0);
  if negb (face_count =? 2) then emit (print "invalid face selection")
  else
    do sel <- gets Gui_getSelection;
    do sel0 <- lift (subscript sel 0);
    do sel1 <- lift (subscript sel 1);
    if negb (String.eqb (Name sel0) (Name sel1)) then
      emit (print "Selected faces must share the same object")
    else
      do body <- get_body;
      match body with
      | None => raise (AttributeError "NoneType" "Group")
      | Some body =>
          do d <- gets id;
          match find_sweep (Group d body) with
          | None => emit (print "Sweep object not found.")
          | Some sweep =>
              do parameters <- get_parameters (getParentGroup d body);
              match parameters with
              | None => ret tt
              | Some parameters =>
                  do face0 <- lift (subscript faces 0);
                  do draft_object <-
                    request (newObject "PartDesign::Draft" (String.append "Draft_" face0))
                      (fun d => body_newObject d body "PartDesign::Draft"
                                  (String.append "Draft_" face0));
                  run effect (call "draft_object.Base" [Name sweep; face0])
                        (fun d => set_property d draft_object "Base" [Name sweep; face0]);
                  run effect (call "Gui.Selection.clearSelection" []) clearSelection;
                  run effect recompute doc_recompute;
                  run copy_view_properties draft_object body view_properties;
                  run effect (call "draft_object.setExpression"
                                ["Angle"; String.append (Label parameters) ".Skew"])
                        (fun d => setExpression d draft_object "Angle"
                                    (String.append (Label parameters) ".Skew"));
                  run effect (call "draft_object.Reversed" ["0"])
                        (fun d => set_property d draft_object "Reversed" ["0"]);
                  do face1 <- lift (subscript faces 1);
                  run effect (call "draft_object.NeutralPlane" [Name sweep; face1])
                        (fun d => set_property d draft_object "NeutralPlane"
                                    [Name sweep; face1]);
                  run effect (call "draft_object.PullDirection" ["None"])
                        (fun d => set_property d draft_object "PullDirection" ["None"]);
                  do face0 <- lift (subscript faces 0);
                  run effect (call "draft_object.Base" [Name sweep; face0])
                        (fun d => set_property d draft_object "Base" [Name sweep; face0]);
                  effect recompute doc_recompute
              end
          end
      end.

(** *** [add_headwall] (lines 187-216) *)

Definition add_headwall : M D unit :=
  run emit (print "Unimplemented");
  do geometry <- gets EndWall_validate_selection;
  match geometry with
  | None => ret tt
  | Some geometry =>
      do obj <-
        request (addObject "App::DocumentObjectGroupPython" "Headwall")
          (fun d => doc_addObject d "App::DocumentObjectGroupPython" "Headwall");
      run modify (fun d => set_Label d obj (translate "Transportation" "Headwall"));
      do body <- get_body;
      do d <- gets id;
      do parent <-
        match body with
        | None => raise (AttributeError "NoneType" "getParentGroup")
        | Some body => ret (getParentGroup d body)
        end;
      do parameters <- get_parameters parent;
      match parameters with
      | None => ret tt
      | Some parameters =>
          run effect (call "EndWall.EndWall" [Name obj; Name parameters])
                (fun d => EndWall_init d obj parameters);
          run effect (call "headwall.attach_sketch" [drainage_lib_path; "headwall"])
                (fun d => attach_sketch d drainage_lib_path "headwall");
          run effect (call "headwall.orient_profile" [geometry])
                (fun d => orient_profile d geometry);
          effect recompute doc_recompute
      end
  end.

End Tools.

End box_culvert_parts.

(** ** ImportTask.py *)

Module ImportTask.
Import Py.

Inductive CheckState := Unchecked | Checked.

(** The widgets of the task panel [examine_file] reads and writes. *)
Record Form := {
  filename : string;
  delimiter : string;
  headers : CheckState
}.

(** A file object returned by [open]. *)
Record File := { content : string }.

(** The file system and the [csv] module. *)
Class System := {
  (* open(path): the file when the path can be opened, OSError otherwise *)
  open : string -> option File;
  (* csv.Sniffer().sniff(sample).delimiter *)
  sniff : string -> exn + string;
  (* csv.Sniffer().has_header(sample) *)
  has_header : string -> exn + bool;
  (* csv.reader(stream, dialect) *)
  csv_reader : File -> string -> exn + unit
}.

Section Task.
Context `{System}.

(** Calling a file object, as [stream(1024)] does: file objects have
    no [__call__]. *)
Definition call_file (stream : File) (argument : Z) : exn + string :=
  inl (TypeError "'_io.TextIOWrapper' object is not callable").

(** *** [examine_file] (lines 116-159) *)

Definition examine_file : M Form unit :=
  do file_path <- gets filename;
  match open file_path with
  | None =>
      emit (critical "Unable to open file " file_path)
  | Some _ =>
      match open file_path with
      | None => raise OSError
      | Some stream =>
          do first_bytes <- lift (call_file stream 1024);
          do dialect_delimiter <- lift (sniff first_bytes);
          run modify (fun form =>
                {| filename := filename form;
                   delimiter := dialect_delimiter;
                   headers := headers form |});
          do has <- lift (has_header first_bytes);
          let check_state := if negb has then Unchecked else Checked in
          run modify (fun form =>
                {| filename := filename form;
                   delimiter := delimiter form;
                   headers := check_state |});
          lift (csv_reader stream dialect_delimiter)
      end
  end.

End Task.

End ImportTask.

(** ** ImportAlignmentViewDelegate.py *)

Module ImportAlignmentViewDelegate.
Import Py.

Definition combo_box_model : list string :=
  ["Select..."; "Northing"; "Easting"; "Bearing"; "Distance"; "Radius"; "Degree"].

(** What [createEditor] returns: the editor of the base class, or the
    combo box with its items and the arguments of the [setCurrentIndex]
    calls made on it. *)
Inductive Editor :=
| BaseEditor
| ComboBox (items : list string) (setCurrentIndex : list Z).

(** [enumerate(l)]. *)
Definition enumerate {A} (l : list A) : list (Z * A) :=
  imap (fun i x => (Z.of_nat i, x)) l.

(** The truth value of a Python int. *)
Definition truthy (i : Z) : bool := negb (i =? 0).

(** A Python bool where an int is expected. *)
Definition int_of_bool (b : bool) : Z := if b then 1 else 0.

(** *** [createEditor] (lines 62-80), from [index.row()] and
    [index.data(QtCore.Qt.DisplayRole)] *)

Definition createEditor (row : Z) (value : option string) : exn + Editor :=
  if row >? 0 then inr BaseEditor
  else
    match value with
    | None => inl (TypeError "argument of type 'NoneType' is not iterable")
    | Some value =>
        let contains_value := map (fun a => contains a value) combo_box_model in
        let indices :=
          map fst (List.filter (fun entry => truthy (fst entry)) (enumerate contains_value)) in
        if is_empty indices then inr (ComboBox combo_box_model [])
        else
          match subscript indices 0 with
          | inl e => inl e
          | inr first =>
              match subscript contains_value first with
              | inl e => inl e
              | inr found => inr (ComboBox combo_box_model [int_of_bool found])
              end
          end
    end.

End ImportAlignmentViewDelegate.

(** * The specification's side, in terms of the embedding *)

Module InsertCurveSpec.
Import Py InsertCurve.

(** The six error tags and the text the dialog shows for each. *)
Definition error_messages : list (string * string) :=
  [ ("Selection",
     "Select two adjacent back tangents, two adjacent curves,             or an adjacent back tangent and curve to place curve.");
    ("Attached Geometry", "Selected elements have attached arc.");
    ("Invalid Geometry",
     "Selected elements have incorrect geometry.             Select either line segments or arcs.  Line segments must be             construction mode.");
    ("Invalid Constraint", "Selected geometry are not properly constrained.");
    ("Not Coincident", "Selected geometry do not intersect.");
    ("No Arc", "Expected an arc to be selected.") ].

Definition invalid_constraint_dialog : event :=
  critical "Invalid Constraint Error" "Selected geometry are not properly constrained.".

(** A dictionary that holds the key "arc" and lacks the key "new_arc". *)
Definition keyed (d : gmap string value) : Prop :=
  is_Some (d !! "arc") /\ d !! "new_arc" = None.

(** The constraint names the element as its first or its second geometry. *)
Definition touches (c : Constraint) (sel : SketchElement) : bool :=
  (First c =? index sel) || (Second c =? index sel).

(** The constraint types that count for a selection: coincident and
    point-on-object constraints between two back tangents, tangent
    constraints otherwise. *)
Definition allowed (two_back_tangents : bool) (c : Constraint) : bool :=
  if two_back_tangents
  then String.eqb (Type_ c) "Coincident" || String.eqb (Type_ c) "PointOnObject"
  else String.eqb (Type_ c) "Tangent".

Definition invalid_geometry_dialog : event :=
  critical "Invalid Geometry Error"
    "Selected elements have incorrect geometry.             Select either line segments or arcs.  Line segments must be             construction mode.".

(** The dictionary [_get_tangents] starts from. *)
Definition no_tangents : gmap string value :=
  <["arc" := None_]> (<["start_tangent" := None_]>
    (<["end_tangent" := None_]> (<["constraint" := None_]> ∅))).

(** The titles of the dialogs the selection checks can show. *)
Definition validation_titles : list string :=
  ["Selection Error"; "Attached Geometry Error";
   "Invalid Geometry Error"; "Invalid Constraint Error"].

(** Not a critical dialog, or one with a title of the selection checks. *)
Definition known_dialog (ev : event) : Prop :=
  match ev with
  | critical title _ => title ∈ validation_titles
  | _ => True
  end.

Definition optional (e : option SketchElement) : value :=
  match e with
  | Some e => Elem e
  | None => None_
  end.

(** Attached to a vertex, and not a constraint. *)
Definition is_geometry (e : SketchElement) : bool :=
  negb (bool_decide (type e = Sketcher_Constraint)).

(** The host calls of [_generate_new_back_tangent], in order. *)
Definition new_back_tangent_calls : list event :=
  [addGeometry true; recompute;
   addConstraint "PointOnObject"; addConstraint "PointOnObject"; recompute;
   addConstraint "Tangent"; recompute].

(** Both tangents are set. *)
Definition tangents_set (d : gmap string value) : Prop :=
  (exists st, d !! "start_tangent" = Some (Elem st)) /\
  (exists et, d !! "end_tangent" = Some (Elem et)).

Section Validation.
Context {H : Type} `{Host H}.

(** A line segment in construction mode, or an arc. *)
Definition selectable (h : H) (geo : SketchElement) : Prop :=
  get_element h geo = LineSegment true \/ get_element h geo = ArcOfCircle.

Definition is_arc (h : H) (geo : SketchElement) : Prop :=
  get_element h geo = ArcOfCircle.

(** The selections the specification describes: empty, or exactly two
    selectable elements that are not both arcs. *)
Definition valid_selection (h : H) (selection : list SketchElement) : Prop :=
  selection = [] \/
  (length selection = 2%nat /\
   Forall (selectable h) selection /\
   ~ Forall (is_arc h) selection).

(** Not an arc, as [_get_tangents] tests it. *)
Definition not_arc (h : H) (e : SketchElement) : Prop :=
  type_of (get_element h e) <> Part_ArcOfCircle.

Definition accepted (e : Element) : bool :=
  match e with
  | LineSegment construction => construction
  | ArcOfCircle => true
  | _ => false
  end.

Definition both_arcs (e1 e2 : Element) : bool :=
  match e1, e2 with
  | ArcOfCircle, ArcOfCircle => true
  | _, _ => false
  end.

(** What is left of [Activated] once validation has produced the
    dictionary: the arc branch, then the placement of the new arc. *)
Definition insertion (d : gmap string value) (arc : SketchElement) : M H unit :=
  do prepared <- adjust_existing_arc d (Elem arc);
  match prepared with
  | None => ret tt
  | Some (geo_dict, vertex_index) => place_new_arc geo_dict vertex_index
  end.

(** The container holds a constraint that names every selected element. *)
Definition binds (h : H) (selection : list SketchElement) (c : SketchElement) : Prop :=
  exists k, get_element h c = ConstraintElement k /\
            forallb (touches k) selection = true.

End Validation.

End InsertCurveSpec.

Module GenerateLoftSpec.
Import Py GenerateLoft.

Definition loft_message : event :=
  print "Invalid object type found.  Select a spline and sketch to perform loft".

Definition new_dialog : event := call "NewLoftDialog.NewLoftDialog" ["ft"].

Section Tree.
Context {D : Type} `{Document D}.

(** An object whose TypeId is neither of the two the command accepts. *)
Definition other_type (obj : Object) : Prop :=
  TypeId obj <> "Part::Part2DObjectPython" /\
  TypeId obj <> "Sketcher::SketchObjectPython".

(** [n] calls of [_validate_tree], one after the other. *)
Fixpoint validate_tree_times (n : nat) : M D unit :=
  match n with
  | O => ret tt
  | S n' => run _validate_tree; validate_tree_times n'
  end.

Definition lofts_groups (d : D) : list Object :=
  findObjects d "App::DocumentObjectGroup" "Lofts".

Definition add_lofts (d : D) : D * Object :=
  doc_addObject d "App::DocumentObjectGroup" "Lofts".

End Tree.

End GenerateLoftSpec.

Module CulvertSpec.
Import Py box_culvert_tools.

Definition add_group : event :=
  addObject "App::DocumentObjectGroupPython" "BoxCulvert1Cell".

Section Command.
Context {D : Type} `{Document D}.

(** The document after the first three statements of [add_1_cell_box]:
    the group added, labelled, and wrapped in a BoxCulvert. *)
Definition with_group (d : D) : D :=
  let created := doc_addObject d "App::DocumentObjectGroupPython" "BoxCulvert1Cell" in
  BoxCulvert_init
    (set_Label (fst created) (snd created) (translate "Transportation" "BoxCulvert1Cell"))
    (snd created).

Definition group_name (d : D) : string :=
  snd (doc_addObject d "App::DocumentObjectGroupPython" "BoxCulvert1Cell").

(** The two messages the selection validation prints. *)
Definition selection_error (message : string) : Prop :=
  message = "No alignment selected" \/ message = "Invalid selection for sweep".

End Command.

End CulvertSpec.

Module CulvertPartsSpec.
Import Py box_culvert_parts.

(** The label of the child marks it as a parameters object. *)
Definition is_parameters (child : Object) : bool := contains "Parameters" (Label child).

Definition add_headwall_group : event :=
  addObject "App::DocumentObjectGroupPython" "Headwall".

(** The host calls of a completed [draft_ends]. *)
Definition draft_calls (body sweep parameters : Object) (face0 face1 : string) : list event :=
  [newObject "PartDesign::Draft" (String.append "Draft_" face0);
   call "draft_object.Base" [Name sweep; face0];
   call "Gui.Selection.clearSelection" [];
   recompute;
   call "gui_draft.ShapeColor" [Name body];
   call "gui_draft.LineColor" [Name body];
   call "gui_draft.PointColor" [Name body];
   call "gui_draft.Transparency" [Name body];
   call "gui_draft.DisplayMode" [Name body];
   call "draft_object.setExpression" ["Angle"; String.append (Label parameters) ".Skew"];
   call "draft_object.Reversed" ["0"];
   call "draft_object.NeutralPlane" [Name sweep; face1];
   call "draft_object.PullDirection" ["None"];
   call "draft_object.Base" [Name sweep; face0];
   recompute].

Section Tools.
Context {D : Type} `{Document D}.

(** The document after the first two statements that touch it in
    [add_headwall]: the group added and labelled. *)
Definition with_headwall (d : D) : D :=
  let created := doc_addObject d "App::DocumentObjectGroupPython" "Headwall" in
  set_Label (fst created) (snd created) (translate "Transportation" "Headwall").

End Tools.

End CulvertPartsSpec.

(** ** Reading outcomes of commands *)

Module Outcome.
Import Py.

(** [post m s Q]: if [m] run from [s] returns a value, the value satisfies [Q]. *)
Definition post {S A} (m : M S A) (s : S) (Q : A -> Prop) : Prop :=
  match result (m s) with
  | inr a => Q a
  | inl _ => True
  end.

(** [outcome m s Q]: the result, final state and trace of [m] run from [s]
    satisfy [Q]. *)
Definition outcome {S A} (m : M S A) (s : S)
    (Q : exn + A -> S -> list event -> Prop) : Prop :=
  Q (result (m s)) (final (m s)) (trace (m s)).

(** No event of the trace is a document mutation. *)
Definition no_mutation (t : list event) : Prop :=
  Forall (fun ev => is_mutation ev = false) t.

(** [quiet m]: [m] leaves the host state as it found it and mutates nothing. *)
Definition quiet {S A} (m : M S A) : Prop :=
  forall s, final (m s) = s /\ no_mutation (trace (m s)).

(** Every mutation of the trace has a recompute somewhere after it. *)
Fixpoint recomputed_after (t : list event) : bool :=
  match t with
  | [] => true
  | ev :: rest =>
      (if is_mutation ev then existsb is_recompute rest else true)
      && recomputed_after rest
  end.

(** [settles m]: whatever the outcome of [m], every mutation in its trace
    has a recompute after it. *)
Definition settles {S A} (m : M S A) : Prop :=
  forall s, recomputed_after (trace (m s)) = true.

(** [silent m]: [m] leaves the host state alone and makes no host call. *)
Definition silent {S A} (m : M S A) : Prop :=
  forall s, final (m s) = s /\ trace (m s) = [].

(** [mute m]: [m] shows no critical dialog. *)
Definition mute {S A} (m : M S A) : Prop :=
  forall s, existsb is_critical (trace (m s)) = false.

(** [returns m]: [m] never raises. *)
Definition returns {S A} (m : M S A) : Prop :=
  forall s, exists a, result (m s) = inr a.


(** Every event of the trace is a critical dialog. *)
Definition only_dialogs (t : list event) : Prop :=
  Forall (fun ev => is_critical ev = true) t.

(** [reports m]: [m] leaves the host state as it found it and its only
    host calls are critical dialogs. *)
Definition reports {S A} (m : M S A) : Prop :=
  forall s, final (m s) = s /\ only_dialogs (trace (m s)).

(** [emits P m]: every host call of [m] satisfies [P]. *)
Definition emits {S A} (P : event -> Prop) (m : M S A) : Prop :=
  forall s, Forall P (trace (m s)).

End Outcome.

(** * Concrete hosts *)

(** ** A sketch with a back tangent, an arc bound to it, and a second line *)

Module SketchScenario.
Import Py InsertCurve.

(** The state of the sketch: its geometry and constraints, what the user
    picked, whether the picked elements share an end point, the geometry
    attached to a picked element, and the number of recomputes so far. *)
Record Sketch := {
  geometry : list Element;
  constraints : list Constraint;
  picked : list SketchElement;
  coincident : bool;
  attached : list SketchElement;
  recomputes : nat
}.

Definition update (s : Sketch) (g : list Element) (c : list Constraint) (n : nat) : Sketch :=
  {| geometry := g; constraints := c; picked := picked s;
     coincident := coincident s; attached := attached s; recomputes := n |}.

Definition origin : Vector.t := Vector.mk F.zero F.zero F.zero.
Definition unit_x : Vector.t := Vector.mk (F.of_Z 1) F.zero F.zero.
Definition unit_y : Vector.t := Vector.mk F.zero (F.of_Z 1) F.zero.

Definition line0 : SketchElement := {| index := 0; type := Part_LineSegment |}.
Definition arc1 : SketchElement := {| index := 1; type := Part_ArcOfCircle |}.
Definition line2 : SketchElement := {| index := 2; type := Part_LineSegment |}.
Definition constraint0 : SketchElement := {| index := 0; type := Sketcher_Constraint |}.

Definition element_of (s : Sketch) (e : SketchElement) : Element :=
  if bool_decide (type e = Sketcher_Constraint) then
    match constraints s !! Z.to_nat (index e) with
    | Some c => ConstraintElement c
    | None => OtherElement
    end
  else
    match geometry s !! Z.to_nat (index e) with
    | Some g => g
    | None => OtherElement
    end.

Definition pos_of_Z (p : Z) : PointPos :=
  if p =? 1 then pos_start else if p =? 2 then pos_end
  else if p =? 3 then pos_mid else pos_none.

Definition added_geometry (g : NewGeometry) (construction : bool) : Element :=
  match g with
  | NewArc _ => ArcOfCircle
  | NewLineSegment _ => LineSegment construction
  end.

Definition added_constraint (c : NewConstraint) : Constraint :=
  {| Type_ := new_type c; First := new_first c; FirstPos := pos_of_Z (new_first_pos c);
     Second := new_second c; SecondPos := pos_none |}.

Definition line_through (a b : Vector.t) : Line2d :=
  {| start_point := a; end_point := b; slope := None |}.

#[global] Instance sketch_host : Host Sketch := {|
  Gui_getSelection := fun _ => [0];
  GeoUtils_get_selection := picked;
  GeoUtils_compare_vectors := fun _ _ => false;
  GeoUtils_get_quadrant := fun _ _ => 1;
  get_element := element_of;
  get_points := fun _ _ => [origin; unit_x];
  is_coincident := fun s _ _ => coincident s;
  match_attached_geometry := fun s _ => attached s;
  match_by_vertex := fun _ _ _ => [constraint0];
  get_binding_constraint := fun _ _ _ => Elem constraint0;
  as_line2d := fun _ _ => line_through origin unit_x;
  as_arc2d := fun _ _ => {| sweep_angle := F.of_Z 1; parameters := [F.zero; F.of_Z 1] |};
  intersect2d := fun _ _ _ => origin;
  container_Location := fun _ _ => inr origin;
  skel_SketchConstraint := fun _ i => {| index := i; type := Sketcher_Constraint |};
  skel_SketchGeometry := fun _ i => {| index := i; type := Part_LineSegment |};
  sketch_Constraints := constraints;
  Location := fun _ _ => origin;
  FirstParameter := fun _ _ => F.zero;
  LastParameter := fun _ _ => F.of_Z 1;
  arc_value := fun _ _ _ => unit_y;
  arc_tangent := fun _ _ _ => [unit_x];
  Line2d_through := line_through;
  Line2d_direction := fun p d => line_through p d;
  get_orthogonal := fun l p => line_through p (end_point l);
  intersect := fun _ _ => origin;
  to_vector := fun l => Vector.sub (end_point l) (start_point l);
  Vector_getAngle := fun _ _ => F.zero;
  Vector_Length := fun _ => F.of_Z 1;
  Vector_str := fun _ => "Vector (0.0, 0.0, 0.0)";
  math_atan := fun a => a;
  math_pi := S754_finite false 7074237752028440 (-51);
  sketch_addGeometry := fun s g c =>
    (update s (geometry s ++ [added_geometry g c]) (constraints s) (recomputes s),
     Z.of_nat (length (geometry s)));
  sketch_addConstraint := fun s c =>
    update s (geometry s) (constraints s ++ [added_constraint c]) (recomputes s);
  sketch_delConstraint := fun s i =>
    update s (geometry s)
      (take (Z.to_nat i) (constraints s) ++ drop (S (Z.to_nat i)) (constraints s))
      (recomputes s);
  sketch_movePoint := fun s _ _ _ _ => s;
  document_recompute := fun s =>
    update s (geometry s) (constraints s) (S (recomputes s))
|}.

(** The start point of the arc is tangent to line 0. *)
Definition tangent_at_start : Constraint :=
  {| Type_ := "Tangent"; First := 1; FirstPos := pos_start; Second := 0; SecondPos := pos_none |}.

(** A tangent constraint between the arc and line 0 that names no point. *)
Definition tangent_edge_to_edge : Constraint :=
  {| Type_ := "Tangent"; First := 1; FirstPos := pos_none; Second := 0; SecondPos := pos_none |}.

(** The user picked line 0 and the arc. *)
Definition sketch_with (c : Constraint) : Sketch :=
  {| geometry := [LineSegment true; ArcOfCircle; LineSegment true];
     constraints := [c];
     picked := [line0; arc1];
     coincident := false;
     attached := [line0; line2];
     recomputes := 0 |}.

(** The user picked the two lines, which meet at an end point where an
    arc is attached as well. *)
Definition lines_with_attached_arc : Sketch :=
  {| geometry := [LineSegment true; ArcOfCircle; LineSegment true];
     constraints :=
       [{| Type_ := "Coincident"; First := 0; FirstPos := pos_end;
           Second := 2; SecondPos := pos_start |}];
     picked := [line0; line2];
     coincident := true;
     attached := [line2; arc1];
     recomputes := 0 |}.

(** The sketch object is selected, none of its geometry is. *)
Definition nothing_picked : Sketch :=
  {| geometry := [LineSegment true; ArcOfCircle; LineSegment true];
     constraints := [tangent_at_start];
     picked := [];
     coincident := false;
     attached := [];
     recomputes := 0 |}.

(** The user picked line 0 and the arc, which no constraint binds. *)
Definition unconstrained : Sketch :=
  {| geometry := [LineSegment true; ArcOfCircle; LineSegment true];
     constraints := [];
     picked := [line0; arc1];
     coincident := false;
     attached := [line0; line2];
     recomputes := 0 |}.

(** The user picked the two lines, bound by a coincident constraint. *)
Definition two_back_tangents : Sketch :=
  {| geometry := [LineSegment true; ArcOfCircle; LineSegment true];
     constraints :=
       [{| Type_ := "Coincident"; First := 0; FirstPos := pos_end;
           Second := 2; SecondPos := pos_start |}];
     picked := [line0; line2];
     coincident := true;
     attached := [line2];
     recomputes := 0 |}.

End SketchScenario.

(** ** A document as a list of objects *)

Module LoftScenario.
Import Py GenerateLoft.

(** The objects of the document in creation order, the pre-selected
    objects, and the members of each folder by folder name. *)
Record Doc := {
  objects : list Object;
  selected : list Object;
  members : list (string * list Object);
  recomputes : nat
}.

Definition named (n : string) (o : Object) : bool := String.eqb (Name o) n.

Definition found (ty n : string) (o : Object) : bool :=
  String.eqb (TypeId o) ty && named n o.

Definition members_of (d : Doc) (o : Object) : list Object :=
  match List.find (fun entry => String.eqb (fst entry) (Name o)) (members d) with
  | Some entry => snd entry
  | None => []
  end.

Definition add (d : Doc) (ty n : string) : Doc * Object :=
  let o := {| Name := n; TypeId := ty |} in
  ({| objects := objects d ++ [o]; selected := selected d;
      members := members d; recomputes := recomputes d |}, o).

Definition recomputed (d : Doc) : Doc :=
  {| objects := objects d; selected := selected d;
     members := members d; recomputes := S (recomputes d) |}.

Definition answers : LoftInput :=
  {| alignment := "Alignment"; template := "Template"; name := "Loft";
     interval := "25.0"; stations := "[]" |}.

#[global] Instance doc_document : Document Doc := {|
  Gui_getSelection := selected;
  findObjects := fun d ty n => List.filter (found ty n) (objects d);
  getObject := fun d n => List.find (named n) (objects d);
  OutList := members_of;
  doc_addObject := add;
  doc_recompute := recomputed;
  dialog_exec := fun d => d;
  dialog_input := fun _ => answers;
  createLoftGroup := fun d lofts input => fst (add d "App::DocumentObjectGroupPython" (name input));
  regenerate := fun d => d
|}.

Definition spline : Object := {| Name := "Alignment"; TypeId := "Part::Part2DObjectPython" |}.
Definition sketch : Object := {| Name := "Template"; TypeId := "Sketcher::SketchObjectPython" |}.
Definition box : Object := {| Name := "Box"; TypeId := "Part::Box" |}.
Definition lofts : Object := {| Name := "Lofts"; TypeId := "App::DocumentObjectGroup" |}.

Definition doc_selecting (selection : list Object) : Doc :=
  {| objects := [spline; sketch; box; lofts]; selected := selection;
     members := []; recomputes := 0 |}.

Definition empty_doc : Doc :=
  {| objects := []; selected := []; members := []; recomputes := 0 |}.

(** *** A document that keeps the names of its objects unique

    An object added under a name that is taken gets the name followed by
    001, 002, ...; objects are found by their exact type and name. *)
Record UniqueDoc := { doc : Doc }.

Definition numbered (n : string) (k : nat) : string :=
  String.append n (String.append "00" (String (Ascii.ascii_of_nat (48 + k)) EmptyString)).

Definition free_name (d : Doc) (n : string) : string :=
  match List.find (fun candidate => negb (existsb (named candidate) (objects d)))
          (n :: map (numbered n) (seq 1 9)) with
  | Some candidate => candidate
  | None => n
  end.

Definition add_unique (d : UniqueDoc) (ty n : string) : UniqueDoc * Object :=
  ({| doc := fst (add (doc d) ty (free_name (doc d) n)) |},
   snd (add (doc d) ty (free_name (doc d) n))).

#[global] Instance unique_document : Document UniqueDoc := {|
  Gui_getSelection := fun d => selected (doc d);
  findObjects := fun d ty n => List.filter (found ty n) (objects (doc d));
  getObject := fun d n => List.find (named n) (objects (doc d));
  OutList := fun d o => members_of (doc d) o;
  doc_addObject := add_unique;
  doc_recompute := fun d => {| doc := recomputed (doc d) |};
  dialog_exec := fun d => d;
  dialog_input := fun _ => answers;
  createLoftGroup := fun d lofts input =>
    fst (add_unique d "App::DocumentObjectGroupPython" (name input));
  regenerate := fun d => d
|}.

(** A document in which a sketch already has the name 'Lofts'. *)
Definition name_taken : UniqueDoc :=
  {| doc := {| objects := [{| Name := "Lofts"; TypeId := "Sketcher::SketchObject" |}];
               selected := []; members := []; recomputes := 0 |} |}.

End LoftScenario.

(** ** A document for the culvert tools, and a file system *)

Module CulvertScenario.
Import Py box_culvert_tools.

Record Doc := {
  names : list string;
  labels : list (string * string);
  selection : list Selected;
  recomputes : nat
}.

Definition with_names (d : Doc) (ns : list string) : Doc :=
  {| names := ns; labels := labels d; selection := selection d; recomputes := recomputes d |}.

#[global] Instance doc_document : Document Doc := {|
  Gui_getSelection := selection;
  doc_addObject := fun d _ n => (with_names d (names d ++ [n]), n);
  set_Label := fun d obj label =>
    {| names := names d; labels := (obj, label) :: labels d;
       selection := selection d; recomputes := recomputes d |};
  translate := fun _ text => text;
  doc_recompute := fun d =>
    {| names := names d; labels := labels d;
       selection := selection d; recomputes := S (recomputes d) |};
  BoxCulvert_init := fun d _ => d;
  set_SweepPath := fun d _ => d;
  attach_sketch := fun d _ _ => d;
  orient_profile := fun d => d;
  sweep_sketch := fun d => with_names d (names d ++ ["AdditivePipe"]);
  drainage_lib_path := "Mod/freecad-transportation-wb/data/drainage/box_culvert.FCStd"
|}.

(** An empty document with nothing selected. *)
Definition nothing_selected : Doc :=
  {| names := []; labels := []; selection := []; recomputes := 0 |}.

(** A document whose selected object is a plain sketch, not an alignment. *)
Definition sketch_selected : Doc :=
  {| names := ["Sketch"]; labels := [];
     selection := [{| Proxy := None; Group := [] |}]; recomputes := 0 |}.

(** A document whose selected object is an alignment group. *)
Definition alignment_selected : Doc :=
  {| names := ["Alignment"; "Path"]; labels := [];
     selection := [{| Proxy := Some (Some "Alignment"); Group := ["Path"] |}];
     recomputes := 0 |}.

(** A document whose selected object is an alignment group without
    members. *)
Definition empty_alignment_selected : Doc :=
  {| names := ["Alignment"]; labels := [];
     selection := [{| Proxy := Some (Some "Alignment"); Group := [] |}];
     recomputes := 0 |}.

End CulvertScenario.

(** ** A body with a swept pipe, in a culvert group *)

Module PartsScenario.
Import Py box_culvert_parts.

(** The selected objects and the faces picked on the first of them, the
    parent body and the parent group of objects by name, the children of
    groups by name, the objects added so far, and the recomputes. *)
Record Doc := {
  selection : list Object;
  faces : list (list string);
  bodies : list (string * Object);
  groups : list (string * Object);
  members : list (string * list Object);
  added : list Object;
  recomputes : nat
}.

Definition assoc {A} (table : list (string * A)) (key : string) : option A :=
  match List.find (fun entry => String.eqb (fst entry) key) table with
  | Some entry => Some (snd entry)
  | None => None
  end.

Definition add (d : Doc) (type_id name : string) : Doc * Object :=
  let o := {| Name := name; TypeId := type_id; Label := name |} in
  ({| selection := selection d; faces := faces d; bodies := bodies d; groups := groups d;
      members := members d; added := added d ++ [o]; recomputes := recomputes d |}, o).

#[global] Instance doc_document : Document Doc := {|
  Gui_getSelection := selection;
  Gui_getSelectionEx := faces;
  clearSelection := fun d =>
    {| selection := []; faces := []; bodies := bodies d; groups := groups d;
       members := members d; added := added d; recomputes := recomputes d |};
  getParentGeoFeatureGroup := fun d o => assoc (bodies d) (Name o);
  getParentGroup := fun d o => assoc (groups d) (Name o);
  Group := fun d o => match assoc (members d) (Name o) with Some l => l | None => [] end;
  body_newObject := fun d _ type_id name => add d type_id name;
  doc_addObject := add;
  set_Label := fun d _ _ => d;
  set_property := fun d _ _ _ => d;
  setExpression := fun d _ _ _ => d;
  copy_view_property := fun d _ _ _ => d;
  doc_recompute := fun d =>
    {| selection := selection d; faces := faces d; bodies := bodies d; groups := groups d;
       members := members d; added := added d; recomputes := S (recomputes d) |};
  translate := fun _ text => text;
  EndWall_validate_selection := fun d =>
    match selection d with [] => None | _ => Some "Edge1" end;
  EndWall_init := fun d _ _ => d;
  attach_sketch := fun d _ _ => d;
  orient_profile := fun d _ => d;
  drainage_lib_path := "Mod/freecad-transportation-wb/data/drainage/box_culvert.FCStd"
|}.

Definition pipe : Object :=
  {| Name := "AdditivePipe"; TypeId := "PartDesign::AdditivePipe"; Label := "AdditivePipe" |}.
Definition profile : Object :=
  {| Name := "Sketch"; TypeId := "Sketcher::SketchObject"; Label := "box_1_cell" |}.
Definition body : Object :=
  {| Name := "Body"; TypeId := "PartDesign::Body"; Label := "Body" |}.
Definition part : Object :=
  {| Name := "Part"; TypeId := "App::Part"; Label := "Part" |}.
Definition culvert : Object :=
  {| Name := "BoxCulvert1Cell"; TypeId := "App::DocumentObjectGroupPython";
     Label := "BoxCulvert1Cell" |}.
Definition sheet : Object :=
  {| Name := "Spreadsheet"; TypeId := "Spreadsheet::Sheet"; Label := "Parameters" |}.
Definition old_sheet : Object :=
  {| Name := "Spreadsheet001"; TypeId := "Spreadsheet::Sheet"; Label := "Parameters001" |}.

(** Two faces of the pipe are selected; the pipe is in a body, the body
    in the culvert group, which holds two parameter sheets. *)
Definition faces_selected : Doc :=
  {| selection := [pipe; pipe];
     faces := [["Face1"; "Face3"]];
     bodies := [("AdditivePipe", body)];
     groups := [("Body", culvert)];
     members := [("Body", [profile; pipe]); ("BoxCulvert1Cell", [sheet; body; old_sheet])];
     added := [];
     recomputes := 0 |}.

(** The pipe is in a part, not in a body. *)
Definition faces_outside_body : Doc :=
  {| selection := [pipe; pipe];
     faces := [["Face1"; "Face3"]];
     bodies := [("AdditivePipe", part)];
     groups := [];
     members := [("Part", [pipe])];
     added := [];
     recomputes := 0 |}.

(** An edge of the pipe is selected; the culvert group holds no
    parameters object. *)
Definition edge_selected : Doc :=
  {| selection := [pipe];
     faces := [["Edge1"]];
     bodies := [("AdditivePipe", body)];
     groups := [("Body", culvert)];
     members := [("Body", [profile; pipe]); ("BoxCulvert1Cell", [body])];
     added := [];
     recomputes := 0 |}.

End PartsScenario.

Module FileScenario.
Import Py ImportTask.

(** One file can be opened; its sniffed delimiter is a comma and it has
    a header row. *)
#[global] Instance one_file : System := {|
  open := fun path =>
    if String.eqb path "alignment.csv"
    then Some {| content := "Northing,Easting,Bearing" |} else None;
  sniff := fun _ => inr ",";
  has_header := fun _ => inr true;
  csv_reader := fun _ _ => inr tt
|}.

Definition form_naming (path : string) : Form :=
  {| filename := path; delimiter := ""; headers := Unchecked |}.

End FileScenario.

(** * Properties *)

(** ** The command monad *)

Module PyFacts.
Import Py Outcome.

Lemma subscript_0 {A} (a : A) (l : list A) : subscript (a :: l) 0 = inr a.
Proof. reflexivity. Qed.

Lemma subscript_1 {A} (a b : A) (l : list A) : subscript (a :: b :: l) 1 = inr b.
Proof. reflexivity. Qed.

Section Laws.
Context {S A B : Type}.
Implicit Types (m : M S A) (k : A -> M S B) (s : S).

Lemma bind_ret a k s : bind (ret a) k s = k a s.
Proof. unfold bind, ret. by destruct (k a s) as [[r s2] t2]. Qed.

Lemma bind_gets (f : S -> A) k s : bind (gets f) k s = k (f s) s.
Proof. unfold bind, gets. by destruct (k (f s) s) as [[r s2] t2]. Qed.

Lemma bind_lift_inr a k s : bind (lift (inr a)) k s = k a s.
Proof. unfold bind, lift. by destruct (k a s) as [[r s2] t2]. Qed.

Lemma bind_lift_inl e k s : bind (lift (inl e)) k s = (inl e, s, []).
Proof. reflexivity. Qed.

Lemma bind_raise e k s : bind (raise e) k s = (inl e, s, []).
Proof. reflexivity. Qed.

Lemma result_bind m k s :
  result (bind m k s)
  = match result (m s) with
    | inl e => inl e
    | inr a => result (k a (final (m s)))
    end.
Proof.
  unfold bind, result, final. destruct (m s) as [[[e|a] s1] t1]; simpl; [done |].
  by destruct (k a s1) as [[r s2] t2].
Qed.

Lemma final_bind m k s :
  final (bind m k s)
  = match result (m s) with
    | inl e => final (m s)
    | inr a => final (k a (final (m s)))
    end.
Proof.
  unfold bind, result, final. destruct (m s) as [[[e|a] s1] t1]; simpl; [done |].
  by destruct (k a s1) as [[r s2] t2].
Qed.

Lemma trace_bind m k s :
  trace (bind m k s)
  = match result (m s) with
    | inl e => trace (m s)
    | inr a => trace (m s) ++ trace (k a (final (m s)))
    end.
Proof.
  unfold bind, result, final, trace. destruct (m s) as [[[e|a] s1] t1]; simpl; [done |].
  by destruct (k a s1) as [[r s2] t2].
Qed.
End Laws.

Section UnitLaws.
Context {S B : Type}.
Implicit Types (k : unit -> M S B) (s : S).

Lemma bind_emit ev k s :
  bind (emit ev) k s
  = (result (k tt s), final (k tt s), ev :: trace (k tt s)).
Proof. unfold bind, emit, result, final, trace. by destruct (k tt s) as [[r s2] t2]. Qed.

Lemma bind_effect ev (f : S -> S) k s :
  bind (effect ev f) k s
  = (result (k tt (f s)), final (k tt (f s)), ev :: trace (k tt (f s))).
Proof.
  unfold bind, effect, result, final, trace. by destruct (k tt (f s)) as [[r s2] t2].
Qed.

Lemma bind_request {A} ev (f : S -> S * A) (k' : A -> M S B) s :
  bind (request ev f) k' s
  = (result (k' (snd (f s)) (fst (f s))), final (k' (snd (f s)) (fst (f s))),
     ev :: trace (k' (snd (f s)) (fst (f s)))).
Proof.
  unfold bind, request, result, final, trace.
  by destruct (k' (snd (f s)) (fst (f s))) as [[r s2] t2].
Qed.

Lemma bind_modify (f : S -> S) k s : bind (modify f) k s = k tt (f s).
Proof. unfold bind, modify. by destruct (k tt (f s)) as [[r s2] t2]. Qed.
End UnitLaws.

Lemma outcome_eta {S A} (o : (exn + A) * S * list event) :
  o = (result o, final o, trace o).
Proof. by destruct o as [[r s] t]. Qed.

Section Post.
Context {S A B : Type}.
Implicit Types (m : M S A) (k : A -> M S B) (s : S).

Lemma post_ret (a : A) s (Q : A -> Prop) : Q a -> post (ret a) s Q.
Proof. done. Qed.

Lemma post_bind m k s (Q : B -> Prop) :
  post m s (fun a => forall s', post (k a) s' Q) -> post (bind m k) s Q.
Proof.
  unfold post. rewrite result_bind.
  destruct (result (m s)) as [e|a]; [done |]. intros Hk. apply Hk.
Qed.

Lemma post_lift (r : exn + A) s (Q : A -> Prop) :
  (forall a, r = inr a -> Q a) -> post (lift r) s Q.
Proof. unfold post, lift, result. simpl. destruct r; auto. Qed.

Lemma post_gets (f : S -> A) s (Q : A -> Prop) : Q (f s) -> post (gets f) s Q.
Proof. done. Qed.

Lemma post_raise e s (Q : A -> Prop) : post (raise e) s Q.
Proof. done. Qed.

Lemma post_request ev (f : S -> S * A) s (Q : A -> Prop) :
  Q (snd (f s)) -> post (request ev f) s Q.
Proof. done. Qed.

Lemma post_weaken m s (Q Q' : A -> Prop) :
  post m s Q -> (forall a, Q a -> Q' a) -> post m s Q'.
Proof. unfold post. destruct (result (m s)); auto. Qed.

Lemma post_elim m s (Q : A -> Prop) a : post m s Q -> result (m s) = inr a -> Q a.
Proof. unfold post. intros HQ Hr. by rewrite Hr in HQ. Qed.
End Post.

Section PostUnit.
Context {S : Type}.

Lemma post_emit ev (s : S) (Q : unit -> Prop) : Q tt -> post (emit ev) s Q.
Proof. done. Qed.

Lemma post_effect ev (f : S -> S) (s : S) (Q : unit -> Prop) : Q tt -> post (effect ev f) s Q.
Proof. done. Qed.

Lemma post_modify (f : S -> S) (s : S) (Q : unit -> Prop) : Q tt -> post (modify f) s Q.
Proof. done. Qed.
End PostUnit.

Section Quiet.
Context {S A B : Type}.

Lemma quiet_ret (a : A) : quiet (ret a : M S A).
Proof. intros s. split; [done | constructor]. Qed.

Lemma quiet_gets (f : S -> A) : quiet (gets f).
Proof. intros s. split; [done | constructor]. Qed.

Lemma quiet_lift (r : exn + A) : quiet (lift r : M S A).
Proof. intros s. split; [done | constructor]. Qed.

Lemma quiet_raise e : quiet (raise e : M S A).
Proof. intros s. split; [done | constructor]. Qed.

Lemma quiet_bind (m : M S A) (k : A -> M S B) :
  quiet m -> (forall a, quiet (k a)) -> quiet (bind m k).
Proof.
  intros Hm Hk s. destruct (Hm s) as [Hf Ht].
  rewrite final_bind, trace_bind.
  destruct (result (m s)) as [e|a]; [done |].
  rewrite Hf. destruct (Hk a s) as [Hf' Ht']. split; [done |].
  by apply Forall_app.
Qed.
End Quiet.

Lemma quiet_emit {S} ev : is_mutation ev = false -> quiet (emit ev : M S unit).
Proof. intros Hev s. split; [done |]. by repeat constructor. Qed.

(** *** Mutations and the recompute after them *)

Lemma recomputed_after_app (t1 t2 : list event) :
  recomputed_after t1 = true -> recomputed_after t2 = true ->
  recomputed_after (t1 ++ t2) = true.
Proof.
  intros H1 H2. induction t1 as [|ev t1 IH]; [done |].
  simpl in *. apply andb_true_iff in H1 as [Hev H1].
  apply andb_true_iff. split; [| by apply IH].
  destruct (is_mutation ev); [| done].
  rewrite existsb_app. by rewrite Hev.
Qed.

Lemma recomputed_after_recompute (t1 t2 : list event) :
  recomputed_after t2 = true ->
  recomputed_after (t1 ++ recompute :: t2) = true.
Proof.
  intros H2. induction t1 as [|ev t1 IH]; [done |].
  simpl. apply andb_true_iff. split; [| done].
  destruct (is_mutation ev); [| done].
  rewrite existsb_app. simpl. by rewrite orb_true_r.
Qed.

Lemma no_mutation_recomputed (t : list event) :
  no_mutation t -> recomputed_after t = true.
Proof.
  induction 1 as [|ev t Hev _ IH]; [done |]. simpl. by rewrite Hev, IH.
Qed.

Section Settles.
Context {S A B : Type}.

Lemma settles_quiet (m : M S A) : quiet m -> settles m.
Proof. intros Hm s. apply no_mutation_recomputed. apply Hm. Qed.

Lemma settles_bind (m : M S A) (k : A -> M S B) :
  settles m -> (forall a, settles (k a)) -> settles (bind m k).
Proof.
  intros Hm Hk s. rewrite trace_bind.
  destruct (result (m s)) as [e|a]; [apply Hm |].
  apply recomputed_after_app; [apply Hm | apply Hk].
Qed.

(** A step that only reads passes what it read on to the steps after it. *)
Lemma settles_bind_lift (r : exn + A) (k : A -> M S B) :
  (forall a, r = inr a -> settles (k a)) -> settles (bind (lift r) k).
Proof.
  intros Hk s. destruct r as [e|a]; [done |].
  rewrite bind_lift_inr. by apply Hk.
Qed.

Lemma settles_bind_gets (f : S -> A) (k : A -> M S B) :
  (forall a, settles (k a)) -> settles (bind (gets f) k).
Proof. intros Hk s. rewrite bind_gets. apply Hk. Qed.

(** Steps that cannot raise, then a recompute: whatever the steps
    mutated is recomputed. *)
Lemma settles_then_recompute (m : M S A) (f : S -> S) (k : A -> M S B) :
  returns m -> (forall a, settles (k a)) ->
  settles (bind m (fun a => bind (effect recompute f) (fun _ => k a))).
Proof.
  intros Hm Hk s. rewrite trace_bind.
  destruct (Hm s) as [a ->]. rewrite bind_effect. unfold trace at 2. simpl.
  apply recomputed_after_recompute, Hk.
Qed.
End Settles.

Lemma settles_then_recompute2 {S A B C} (m1 : M S A) (m2 : M S B) (f : S -> S) (k : M S C) :
  returns m1 -> returns m2 -> settles k ->
  settles (bind m1 (fun _ => bind m2 (fun _ => bind (effect recompute f) (fun _ => k)))).
Proof.
  intros H1 H2 Hk s. rewrite trace_bind. destruct (H1 s) as [a ->].
  rewrite trace_bind. destruct (H2 (final (m1 s))) as [b ->].
  rewrite bind_effect, app_assoc.
  apply (recomputed_after_recompute (trace (m1 s) ++ trace (m2 (final (m1 s))))), Hk.
Qed.

Lemma settles_effect {S} ev (f : S -> S) :
  is_mutation ev = false -> settles (effect ev f).
Proof. intros Hev s. simpl. by rewrite Hev. Qed.

Lemma settles_emit {S} ev : is_mutation ev = false -> settles (emit ev : M S unit).
Proof. intros Hev s. simpl. by rewrite Hev. Qed.

Lemma returns_effect {S} ev (f : S -> S) : returns (effect ev f).
Proof. intros s. by exists tt. Qed.

Lemma returns_request {S A} ev (f : S -> S * A) : returns (request ev f).
Proof. intros s. by eexists. Qed.

Lemma returns_bind {S A B} (m : M S A) (k : A -> M S B) :
  returns m -> (forall a, returns (k a)) -> returns (bind m k).
Proof.
  intros Hm Hk s. rewrite result_bind. destruct (Hm s) as [a ->]. apply Hk.
Qed.

(** *** Commands without host calls, commands without dialogs *)

Section Silent.
Context {S A B : Type}.

Lemma silent_ret (a : A) : silent (ret a : M S A).
Proof. done. Qed.

Lemma silent_gets (f : S -> A) : silent (gets f).
Proof. done. Qed.

Lemma silent_lift (r : exn + A) : silent (lift r : M S A).
Proof. done. Qed.

Lemma silent_raise e : silent (raise e : M S A).
Proof. done. Qed.

Lemma silent_bind (m : M S A) (k : A -> M S B) :
  silent m -> (forall a, silent (k a)) -> silent (bind m k).
Proof.
  intros Hm Hk s. destruct (Hm s) as [Hf Ht].
  rewrite final_bind, trace_bind.
  destruct (result (m s)) as [e|a]; [done |].
  rewrite Hf, Ht. apply Hk.
Qed.

Lemma silent_mute (m : M S A) : silent m -> mute m.
Proof. intros Hm s. by destruct (Hm s) as [_ ->]. Qed.

Lemma mute_bind (m : M S A) (k : A -> M S B) :
  mute m -> (forall s a, result (m s) = inr a -> mute (k a)) -> mute (bind m k).
Proof.
  intros Hm Hk s. rewrite trace_bind.
  destruct (result (m s)) as [e|a] eqn:Hr; [apply Hm |].
  rewrite existsb_app, Hm. by apply (Hk s a).
Qed.
End Silent.

Lemma mute_effect {S} ev (f : S -> S) : is_critical ev = false -> mute (effect ev f).
Proof. intros Hev s. simpl. by rewrite Hev. Qed.

Lemma mute_emit {S} ev : is_critical ev = false -> mute (emit ev : M S unit).
Proof. intros Hev s. simpl. by rewrite Hev. Qed.

Lemma mute_request {S A} ev (f : S -> S * A) : is_critical ev = false -> mute (request ev f).
Proof. intros Hev s. simpl. by rewrite Hev. Qed.

(** A quiet step keeps the state for the steps after it. *)
Lemma post_bind_quiet {S A B} (m : M S A) (k : A -> M S B) s (Q : B -> Prop) :
  quiet m ->
  (forall a, result (m s) = inr a -> post (k a) s Q) ->
  post (bind m k) s Q.
Proof.
  intros Hm Hk. unfold post. rewrite result_bind.
  destruct (result (m s)) as [e|a] eqn:Hr; [done |].
  destruct (Hm s) as [-> _]. by apply Hk.
Qed.

(** A command that returns nothing it could return does not return. *)
Lemma post_False_raises {S A} (m : M S A) s :
  post m s (fun _ => False) -> exists e, result (m s) = inl e.
Proof. unfold post. destruct (result (m s)) as [e|a]; [eauto | done]. Qed.

Lemma outcome_bind {S A B} (m : M S A) (k : A -> M S B) s a t1
    (Q : exn + B -> S -> list event -> Prop) :
  result (m s) = inr a -> final (m s) = s -> trace (m s) = t1 ->
  outcome (k a) s (fun r s2 t2 => Q r s2 (t1 ++ t2)) ->
  outcome (bind m k) s Q.
Proof.
  unfold outcome. intros Hr Hf Ht. rewrite result_bind, final_bind, trace_bind.
  by rewrite Hr, Hf, Ht.
Qed.

(** Running a command whose outcome is known, then its continuation. *)
Lemma bind_outcome {S A B} (m : M S A) (k : A -> M S B) s a s1 t1 :
  m s = (inr a, s1, t1) ->
  bind m k s = (result (k a s1), final (k a s1), t1 ++ trace (k a s1)).
Proof. unfold bind. intros ->. by destruct (k a s1) as [[r s2] t2]. Qed.

(** A command that raises skips its continuation. *)
Lemma bind_raises {S A B} (m : M S A) (k : A -> M S B) s e s1 t1 :
  m s = (inl e, s1, t1) -> bind m k s = (inl e, s1, t1).
Proof. unfold bind. by intros ->. Qed.

(** *** Commands that only show dialogs, and the calls a command makes *)

Section Reports.
Context {S A B : Type}.

Lemma reports_silent (m : M S A) : silent m -> reports m.
Proof. intros Hm s. destruct (Hm s) as [-> ->]. split; [done | constructor]. Qed.

Lemma reports_bind (m : M S A) (k : A -> M S B) :
  reports m -> (forall a, reports (k a)) -> reports (bind m k).
Proof.
  intros Hm Hk s. destruct (Hm s) as [Hf Ht].
  rewrite final_bind, trace_bind.
  destruct (result (m s)) as [e|a]; [done |].
  rewrite Hf. destruct (Hk a s) as [Hf' Ht']. split; [done |].
  by apply Forall_app.
Qed.
End Reports.

Section Emits.
Context {S A B : Type} (P : event -> Prop).

Lemma emits_silent (m : M S A) : silent m -> emits P m.
Proof. intros Hm s. destruct (Hm s) as [_ ->]. constructor. Qed.

Lemma emits_mute (m : M S A) :
  (forall ev, is_critical ev = false -> P ev) -> mute m -> emits P m.
Proof.
  intros HP Hm s. specialize (Hm s).
  induction (trace (m s)) as [|ev t IH]; [constructor |].
  simpl in Hm. apply orb_false_iff in Hm as [Hev Ht]. constructor; auto.
Qed.

Lemma emits_bind (m : M S A) (k : A -> M S B) :
  emits P m -> (forall s a, result (m s) = inr a -> emits P (k a)) -> emits P (bind m k).
Proof.
  intros Hm Hk s. rewrite trace_bind.
  destruct (result (m s)) as [e|a] eqn:Hr; [apply Hm |].
  apply Forall_app. split; [apply Hm | by apply (Hk s a)].
Qed.
End Emits.

Lemma reports_dialog {S} title message : reports (emit (critical title message) : M S unit).
Proof. intros s. split; [done |]. by repeat constructor. Qed.

End PyFacts.

(** ** Binary64 facts used by the vector ordering *)

Module FloatFacts.

Lemma mul_comm (a b : float) : F.mul a b = F.mul b a.
Proof.
  unfold F.mul, SFmul.
  destruct a as [sa|sa| |sa ma ea], b as [sb|sb| |sb mb eb];
    try reflexivity; rewrite (xorb_comm sa sb); try reflexivity.
  by rewrite (Pos.mul_comm ma mb), (Z.add_comm ea eb).
Qed.

(** A rounded result carrying the negative sign is never above zero. *)
Lemma round_aux_negative m e l :
  F.gt (binary_round_aux F.prec F.emax true m e l) F.zero = false.
Proof.
  unfold F.gt, binary_round_aux.
  destruct (shr_fexp F.prec F.emax m e l) as [mrs e1].
  destruct (shr_fexp F.prec F.emax _ e1 loc_Exact) as [mrs2 e2].
  destruct (shr_m mrs2); try reflexivity.
  by destruct (e2 <=? F.emax - F.prec)%Z.
Qed.

Lemma round_negative m e : F.gt (binary_round F.prec F.emax true m e) F.zero = false.
Proof.
  unfold binary_round.
  destruct (shl_align m e _) as [mz ez]. apply round_aux_negative.
Qed.

(** If [a - b] is above zero then [b - a] is not. *)
Lemma sub_gt_asym (a b : float) :
  F.gt (F.sub a b) F.zero = true -> F.gt (F.sub b a) F.zero = false.
Proof.
  unfold F.sub, SFsub.
  destruct a as [sa|sa| |sa ma ea], b as [sb|sb| |sb mb eb];
    try (destruct sa); try (destruct sb); try reflexivity; try discriminate.
  all: rewrite (Z.min_comm eb ea); cbv zeta.
  all: match goal with
       | |- context [binary_normalize _ _ (?A - ?B) _ _] =>
           replace (B - A)%Z with (- (A - B))%Z by lia;
           destruct (A - B)%Z as [|p|p]; simpl Z.opp; unfold binary_normalize
       end.
  all: try reflexivity; try (intros _; apply round_negative).
  all: by rewrite round_negative.
Qed.

End FloatFacts.

(** ** InsertCurve: dialogs, vector ordering, geometry validation *)

Module InsertCurveFacts.
Import Py Outcome PyFacts InsertCurve InsertCurveSpec.

Ltac quiet_step :=
  lazymatch goal with
  | |- quiet (bind _ _) => apply quiet_bind
  | |- quiet (ret _) => apply quiet_ret
  | |- quiet (gets _) => apply quiet_gets
  | |- quiet (lift _) => apply quiet_lift
  | |- quiet (raise _) => apply quiet_raise
  | |- quiet (emit _) => apply quiet_emit; reflexivity
  | |- quiet (if ?b then _ else _) => destruct b
  | |- quiet (match ?x with _ => _ end) => destruct x
  | |- forall _, quiet _ => intro
  end.

Ltac post_step :=
  lazymatch goal with
  | |- post (bind _ _) _ _ => apply post_bind
  | |- post (ret _) _ _ => apply post_ret
  | |- post (gets _) _ _ => apply post_gets
  | |- post (lift _) _ _ => apply post_lift; intros ? ?
  | |- post (raise _) _ _ => apply post_raise
  | |- post (emit _) _ _ => apply post_emit
  | |- post (effect _ _) _ _ => apply post_effect
  | |- post (modify _) _ _ => apply post_modify
  | |- post (request _ _) _ _ => apply post_request
  | |- post (if ?b then _ else _) _ _ => destruct b
  | |- post (match ?x with _ => _ end) _ _ => destruct x
  | |- post recompute_document _ _ => apply post_effect
  | |- post (_notify_error _) _ _ => apply post_emit
  | |- forall _, _ => intro
  end.

(** C4. For each of the six error tags [_notify_error] opens one critical
    dialog titled with the tag followed by " Error" and showing the text
    fixed for that tag; for any other tag the dialog, titled the same
    way, shows "UNDEFINED ERROR".  The host state is left as it was. *)
Theorem notify_error_dialog {H : Type} (h : H) (error_type : string) :
  (forall message, In (error_type, message) error_messages ->
     _notify_error error_type h
     = (inr tt, h, [critical (String.append error_type " Error") message])) /\
  (~ In error_type (map fst error_messages) ->
     _notify_error error_type h
     = (inr tt, h, [critical (String.append error_type " Error") "UNDEFINED ERROR"])).
Proof.
  split.
  - intros message Hin. simpl in Hin.
    repeat (destruct Hin as [Heq | Hin]; [inversion Heq; subst; reflexivity |]).
    destruct Hin.
  - intros Hnot. unfold _notify_error, emit, message_of.
    repeat match goal with
           | |- context [String.eqb error_type ?tag] =>
               destruct (String.eqb_spec error_type tag) as [-> | _];
               [exfalso; apply Hnot; simpl; tauto |]
           end.
    reflexivity.
Qed.

Lemma notify_error_dialog_witness :
  _notify_error "No Arc" tt
  = (inr tt, tt, [critical "No Arc Error" "Expected an arc to be selected."]) /\
  _notify_error "Unknown" tt
  = (inr tt, tt, [critical "Unknown Error" "UNDEFINED ERROR"]).
Proof.
  split.
  - apply (proj1 (notify_error_dialog tt "No Arc")). simpl. tauto.
  - apply (proj2 (notify_error_dialog tt "Unknown")). simpl.
    intros Hin. repeat (destruct Hin as [Heq | Hin]; [discriminate Heq |]). exact Hin.
Defined.

(** C9. On a pair of vectors [_sort_vectors] returns the two vectors,
    swapped exactly when the z component of the cross product of the
    first with the second is above zero, and sorting the returned pair
    again returns it unchanged. *)
Theorem sort_vectors_swaps_and_is_idempotent (v0 v1 : Vector.t) :
  _sort_vectors [v0; v1]
  = inr (if F.gt (Vector.z (Vector.cross v0 v1)) F.zero then [v1; v0] else [v0; v1]) /\
  match _sort_vectors [v0; v1] with
  | inr sorted => _sort_vectors sorted = inr sorted
  | inl _ => False
  end.
Proof.
  unfold _sort_vectors.
  rewrite PyFacts.subscript_0, PyFacts.subscript_1.
  destruct (F.gt (Vector.z (Vector.cross v0 v1)) F.zero) eqn:Hgt;
    (split; [reflexivity |]);
    rewrite PyFacts.subscript_0, PyFacts.subscript_1.
  - replace (F.gt (Vector.z (Vector.cross v1 v0)) F.zero) with false; [reflexivity |].
    symmetry. simpl in *.
    rewrite (FloatFacts.mul_comm (Vector.x v1)), (FloatFacts.mul_comm (Vector.y v1)).
    by apply FloatFacts.sub_gt_asym.
  - by rewrite Hgt.
Qed.

Section Validation.
Context {H : Type} `{Host H}.

Lemma report_attached_arc_returns (items : list SketchElement) (h : H) :
  result (report_attached_arc items h) = inr tt /\ final (report_attached_arc items h) = h.
Proof.
  induction items as [|item rest IH]; [done |].
  simpl. by destruct (bool_decide (type item = Part_ArcOfCircle)).
Qed.

Lemma validate_pair (h : H) (a b : SketchElement) :
  result (_validate_selection_geometry [a; b] h)
  = inr (accepted (get_element h a) && accepted (get_element h b)
         && negb (both_arcs (get_element h a) (get_element h b))).
Proof.
  unfold _validate_selection_geometry.
  change (Z.of_nat (length [a; b]) =? 0) with false.
  change (Z.of_nat (length [a; b]) =? 2) with true.
  cbn [negb]. rewrite PyFacts.bind_gets. unfold id.
  rewrite PyFacts.subscript_0, PyFacts.subscript_1.
  destruct (get_element h a) as [[|]| | |] eqn:Ha;
    destruct (get_element h b) as [[|]| | |] eqn:Hb;
    cbn [scan_geometry]; rewrite ?Ha, ?Hb; simpl; try reflexivity.
  rewrite !PyFacts.bind_lift_inr.
  destruct (is_coincident h a (index b)); [| reflexivity].
  rewrite PyFacts.result_bind.
  by destruct (report_attached_arc_returns (match_attached_geometry h a) h) as [-> _].
Qed.

(** C3. [_validate_selection_geometry] returns [True] exactly on the
    empty selection and on selections of two elements, each a line
    segment in construction mode or an arc, that are not both arcs;
    on every other selection it returns [False]. *)
Theorem validate_selection_geometry_iff (h : H) (selection : list SketchElement) :
  (result (_validate_selection_geometry selection h) = inr true
   <-> valid_selection h selection) /\
  (result (_validate_selection_geometry selection h) = inr true \/
   result (_validate_selection_geometry selection h) = inr false).
Proof.
  unfold valid_selection, selectable, is_arc.
  destruct selection as [|a [|b [|c rest]]].
  - split; [split; [by left | done] | by left].
  - split; [split; [done | intros [|[? _]]; done] | by right].
  - rewrite validate_pair. split; [split |].
    + intros Hres. injection Hres as Hres.
      apply andb_true_iff in Hres as [Hres Hnot].
      apply andb_true_iff in Hres as [Ha Hb].
      right. split; [done |]. split.
      * constructor; [| constructor; [| constructor]].
        -- destruct (get_element h a) as [[|]| | |]; try done; first [by left | by right].
        -- destruct (get_element h b) as [[|]| | |]; try done; first [by left | by right].
      * intros Hall. inversion Hall as [|? ? Hx Hrest]; subst.
        inversion Hrest as [|? ? Hy _]; subst.
        by rewrite Hx, Hy in Hnot.
    + intros [Hn | (_ & Hall & Hnot)]; [done |].
      inversion Hall as [|? ? Hx Hrest]; subst.
      inversion Hrest as [|? ? Hy _]; subst.
      assert (accepted (get_element h a) = true) as -> by (by destruct Hx as [-> | ->]).
      assert (accepted (get_element h b) = true) as -> by (by destruct Hy as [-> | ->]).
      destruct (both_arcs (get_element h a) (get_element h b)) eqn:Hboth; [| done].
      exfalso. apply Hnot.
      destruct (get_element h a) as [[|]| | |] eqn:Ea; try done.
      destruct (get_element h b) as [[|]| | |] eqn:Eb; try done.
      unfold is_arc. constructor; [done | constructor; [done | constructor]].
    + destruct (accepted (get_element h a) && accepted (get_element h b)
                && negb (both_arcs (get_element h a) (get_element h b)));
        [by left | by right].
  - unfold _validate_selection_geometry.
    replace (Z.of_nat (length (a :: b :: c :: rest)) =? 0) with false
      by (symmetry; apply Z.eqb_neq; simpl length; lia).
    replace (Z.of_nat (length (a :: b :: c :: rest)) =? 2) with false
      by (symmetry; apply Z.eqb_neq; simpl length; lia).
    split; [split; [done | intros [|[Hlen _]]; [done | simpl in Hlen; lia]] | by right].
Qed.

End Validation.

(** *** Validation reads the sketch and at most shows dialogs *)

Section Quiet.
Context {H : Type} `{Host H}.

Lemma quiet_notify_error (error_type : string) : quiet (_notify_error error_type : M H unit).
Proof. unfold _notify_error. by apply quiet_emit. Qed.

Lemma quiet_report_attached_arc (items : list SketchElement) :
  quiet (report_attached_arc items : M H unit).
Proof.
  induction items as [|item rest IH]; simpl; [apply quiet_ret |].
  destruct (bool_decide _); [apply quiet_notify_error | done].
Qed.

Lemma quiet_validate_selection_geometry (selection : list SketchElement) :
  quiet (_validate_selection_geometry selection : M H bool).
Proof.
  unfold _validate_selection_geometry.
  repeat first [apply quiet_notify_error | apply quiet_report_attached_arc | quiet_step].
Qed.

Lemma quiet_validate_selection : quiet (_validate_selection : M H _).
Proof.
  unfold _validate_selection, _validate_selection_constraints, _validate_selection_bindings.
  repeat first [apply quiet_notify_error | apply quiet_validate_selection_geometry
               | quiet_step].
Qed.

Lemma quiet_get_tangents (selection : list SketchElement) :
  quiet (_get_tangents selection : M H _).
Proof. unfold _get_tangents. repeat quiet_step. Qed.

End Quiet.

(** *** The dictionary keys along the insertion sequence *)

Section Keys.
Context {H : Type} `{Host H}.

Lemma keyed_insert (key : string) (v : value) (d : gmap string value) :
  key <> "new_arc" -> keyed d -> keyed (<[key := v]> d).
Proof.
  intros Hne [Harc Hnew]. split.
  - apply lookup_insert_is_Some. destruct (decide (key = "arc")); auto.
  - by rewrite lookup_insert_ne.
Qed.

Lemma sort_selection_keyed (h : H) (selection : list SketchElement)
    (d d' : gmap string value) :
  keyed d -> sort_selection h selection d = inr d' -> keyed d'.
Proof.
  revert d. induction selection as [|sel rest IH]; intros d Hd; simpl.
  - by intros [= <-].
  - destruct (sort_selected h d sel) as [e|d1] eqn:Hsel; [done |].
    apply IH. unfold sort_selected in Hsel.
    destruct (bool_decide _).
    + injection Hsel as <-. by apply keyed_insert.
    + destruct (getitem d "start_tangent") as [e|st]; [done |].
      destruct (is_None st); injection Hsel as <-; by apply keyed_insert.
Qed.

Lemma find_end_tangent_keyed (attached_geo : list SketchElement)
    (d d' : gmap string value) :
  keyed d -> find_end_tangent attached_geo d = inr d' -> keyed d'.
Proof.
  intros Hd. induction attached_geo as [|geo rest IH]; simpl.
  - by intros [= <-].
  - destruct (getitem d "start_tangent") as [e|st]; [done |].
    destruct (container st "index") as [e|start_tangent]; [done |].
    destruct (negb _); [| done].
    destruct (bool_decide _); [| done].
    intros [= <-]. by apply keyed_insert.
Qed.

Lemma get_tangents_keyed (selection : list SketchElement) (h : H) :
  post (_get_tangents selection) h keyed.
Proof.
  unfold _get_tangents.
  apply post_bind_quiet; [apply quiet_gets |]. intros h' _.
  apply post_bind_quiet; [apply quiet_lift |]. intros d Hd.
  assert (keyed d) as Hk.
  { eapply sort_selection_keyed; [| exact Hd]. split.
    - rewrite lookup_insert_eq. eauto.
    - by repeat (rewrite lookup_insert_ne by done). }
  apply post_bind_quiet; [apply quiet_lift |]. intros arc _.
  destruct (is_None arc); [by apply post_ret |].
  apply post_bind_quiet; [apply quiet_lift |]. intros arc' _.
  apply post_lift. intros d' Hd'. by eapply find_end_tangent_keyed.
Qed.

Lemma delete_attached_keyed (attached : list SketchElement) (d : gmap string value) (h : H) :
  keyed d -> post (delete_attached attached d) h keyed.
Proof.
  revert d h. induction attached as [|_a rest IH]; intros d h Hd; simpl.
  - by apply post_ret.
  - apply post_bind. apply post_effect. intros h'. apply IH.
    destruct (negb _); [by apply keyed_insert | done].
Qed.

Lemma delete_constraints_keyed (d : gmap string value) (vertex_index : Z) (h : H) :
  keyed d -> post (_delete_constraints d vertex_index) h keyed.
Proof.
  intros Hd. unfold _delete_constraints.
  do 4 (post_step; post_step; try intro).
  post_step. eapply post_weaken; [by apply delete_attached_keyed |].
  intros d' Hd' h'. repeat post_step. done.
Qed.

Lemma adjust_curve_same (d : gmap string value) (vertex_index : Z) (factor : float) (h : H) :
  post (_adjust_curve d vertex_index factor) h (fun d' => d' = d).
Proof. unfold _adjust_curve. repeat post_step. done. Qed.

Lemma get_line_segments_keyed (d : gmap string value) (arc_vertex : Vector.t) (h : H) :
  keyed d -> post (_get_line_segments d arc_vertex) h (fun r => keyed (snd r)).
Proof.
  intros Hd. unfold _get_line_segments.
  repeat post_step; simpl; try done; by apply keyed_insert.
Qed.

Lemma get_arc_parameters_keyed (d : gmap string value) (vertex_index : Z) (h : H) :
  keyed d -> post (_get_arc_parameters d vertex_index) h (fun r => keyed (snd r)).
Proof.
  intros Hd. unfold _get_arc_parameters.
  do 4 (post_step; post_step; try intro).
  post_step. post_step. intros h1.
  post_step. eapply post_weaken; [by apply get_line_segments_keyed |].
  intros [tangents d'] Hd' h2. simpl in Hd'.
  repeat post_step; done.
Qed.

(** With the key "arc" present, the key "new_arc" absent and a vertex
    index other than -1, [_reconstrain] stops at the missing key. *)
Lemma reconstrain_raises (d : gmap string value) (vertex_index : Z) (h : H) :
  keyed d -> vertex_index <> -1 ->
  result (_reconstrain d vertex_index h) = inl (KeyError "new_arc").
Proof.
  intros [[arc Harc] Hnew] Hv. unfold _reconstrain, has_key.
  rewrite bool_decide_eq_true_2 by eauto.
  unfold getitem. rewrite Harc, bind_lift_inr.
  destruct (Z.eqb_spec vertex_index (-1)) as [|_]; [done |].
  by rewrite Hnew.
Qed.

Lemma place_new_arc_never_returns (d : gmap string value) (vertex_index : Z) (h : H) :
  keyed d -> vertex_index <> -1 ->
  post (place_new_arc d vertex_index) h (fun _ => False).
Proof.
  intros Hd Hv. unfold place_new_arc.
  post_step. eapply post_weaken; [by apply get_arc_parameters_keyed |].
  intros [arc_parameters d'] Hd' h1. simpl in Hd'.
  do 2 (post_step; post_step; intro).
  unfold post. rewrite reconstrain_raises; [done | | done].
  by apply keyed_insert.
Qed.

Lemma make_room_keyed (d : gmap string value) (vertex_index : Z) (h : H) :
  keyed d ->
  post (make_room d vertex_index) h
    (fun r => exists d', r = Some (d', vertex_index) /\ keyed d').
Proof.
  intros Hd. unfold make_room.
  post_step. eapply post_weaken; [by apply delete_constraints_keyed |].
  intros d1 Hd1 h1.
  post_step. eapply post_weaken; [apply adjust_curve_same |].
  intros d2 -> h2.
  post_step. eapply post_weaken with (Q := fun _ => True).
  { unfold post. by destruct (result _). }
  intros new_tangent _ h3.
  repeat post_step. eexists. split; [done |].
  by repeat apply keyed_insert.
Qed.

End Keys.

(** *** The branch of [Activated] for a selection that holds an arc *)

Section ArcBranch.
Context {H : Type} `{Host H}.

Lemma get_constrained_vertex_run (constraint : value) (h : H) :
  _get_constrained_vertex constraint h
  = (match constraint_of h constraint "FirstPos" with
     | inl e => inl e
     | inr k => inr (constrained_vertex k)
     end, h, []).
Proof.
  unfold _get_constrained_vertex. rewrite bind_gets. unfold id.
  by destruct (constraint_of h constraint "FirstPos").
Qed.

(** Up to the test of the vertex index the branch only reads. *)
Lemma adjust_existing_arc_run (h : H) (d : gmap string value)
    (arc st : SketchElement) (et : value) (k : Constraint) :
  d !! "start_tangent" = Some (Elem st) ->
  d !! "end_tangent" = Some et ->
  is_None et = false ->
  constraint_of h (get_binding_constraint h arc (index st)) "FirstPos" = inr k ->
  adjust_existing_arc d (Elem arc) h
  = if constrained_vertex k <? 0
    then (inr None, h, [invalid_constraint_dialog])
    else make_room (<["constraint" := get_binding_constraint h arc (index st)]> d)
           (constrained_vertex k) h.
Proof.
  intros Hst Het Hnone Hk. unfold adjust_existing_arc, getitem.
  rewrite Het, bind_lift_inr, Hnone, bind_gets. unfold id. simpl container.
  rewrite bind_lift_inr, Hst, bind_lift_inr. simpl container.
  rewrite bind_lift_inr, lookup_insert_eq, bind_lift_inr.
  pose proof (get_constrained_vertex_run (get_binding_constraint h arc (index st)) h) as Hrun.
  rewrite Hk in Hrun. rewrite (bind_outcome _ _ _ _ _ _ Hrun).
  destruct (constrained_vertex k <? 0); [reflexivity |].
  simpl. by rewrite <- outcome_eta.
Qed.

Lemma Activated_arc_run (h : H) (sel : list SketchElement) (d : gmap string value)
    (arc : SketchElement) :
  is_empty (Gui_getSelection h) = false ->
  result (_validate_selection h) = inr (Some sel) ->
  result (_get_tangents sel h) = inr d ->
  d !! "arc" = Some (Elem arc) ->
  exists dialogs, no_mutation dialogs /\
    Activated h
    = (result (insertion d arc h), final (insertion d arc h),
       dialogs ++ trace (insertion d arc h)).
Proof.
  intros Hne Hsel Hd Harc.
  destruct (quiet_validate_selection h) as [Hf1 Ht1].
  destruct (quiet_get_tangents sel h) as [Hf2 Ht2].
  pose proof (outcome_eta (_validate_selection h)) as E1. rewrite Hsel, Hf1 in E1.
  pose proof (outcome_eta (_get_tangents sel h)) as E2. rewrite Hd, Hf2 in E2.
  exists (trace (_validate_selection h) ++ trace (_get_tangents sel h)).
  split; [by apply Forall_app |].
  unfold Activated. rewrite bind_gets, Hne.
  rewrite (bind_outcome _ _ _ _ _ _ E1). cbv beta iota.
  rewrite (bind_outcome _ _ _ _ _ _ E2).
  match goal with
  | |- context [bind (lift (getitem d "arc")) ?k h] =>
      assert (bind (lift (getitem d "arc")) k h = insertion d arc h) as ->
        by (unfold getitem; rewrite Harc, bind_lift_inr; reflexivity)
  end.
  unfold result, final, trace. simpl. by rewrite <- app_assoc.
Qed.

(** C10. [_get_constrained_vertex] returns the constraint's [FirstPos]
    minus 1 when [FirstPos] is not 0 and its [SecondPos] minus 1 otherwise;
    the result is negative exactly when the position used is 0; and when
    the binding constraint of a validated arc selection has that position,
    [Activated] returns after showing the "Invalid Constraint" dialog,
    having mutated nothing and with the sketch as it found it. *)
Theorem constrained_vertex_value_and_rejection (h : H) (constraint : value) (k : Constraint) :
  constraint_of h constraint "FirstPos" = inr k ->
  let used := if pos_value (FirstPos k) =? 0 then SecondPos k else FirstPos k in
  _get_constrained_vertex constraint h = (inr (pos_value used - 1), h, []) /\
  (pos_value used - 1 < 0 <-> pos_value used = 0) /\
  (forall sel d arc st et,
     is_empty (Gui_getSelection h) = false ->
     result (_validate_selection h) = inr (Some sel) ->
     result (_get_tangents sel h) = inr d ->
     d !! "arc" = Some (Elem arc) ->
     d !! "start_tangent" = Some (Elem st) ->
     d !! "end_tangent" = Some et ->
     is_None et = false ->
     get_binding_constraint h arc (index st) = constraint ->
     pos_value used = 0 ->
     outcome Activated h (fun r s t =>
       r = inr tt /\ s = h /\ no_mutation t /\ last t = Some invalid_constraint_dialog)).
Proof.
  intros Hk used.
  assert (constrained_vertex k = pos_value used - 1) as Hv.
  { unfold constrained_vertex, used. by destruct (pos_value (FirstPos k) =? 0). }
  split; [| split].
  - by rewrite get_constrained_vertex_run, Hk, Hv.
  - destruct used; simpl; lia.
  - intros sel d arc st et Hne Hsel Hd Harc Hst Het Hnone <- Hused.
    unfold outcome.
    destruct (Activated_arc_run h sel d arc Hne Hsel Hd Harc) as (dialogs & Hquiet & ->).
    assert (insertion d arc h = (inr tt, h, [invalid_constraint_dialog])) as ->.
    { unfold insertion.
      erewrite bind_outcome; last first.
      { rewrite (adjust_existing_arc_run h d arc st et k Hst Het Hnone Hk).
        rewrite Hv, Hused. reflexivity. }
      reflexivity. }
    unfold outcome, result, final, trace. simpl.
    repeat split; [| by rewrite last_snoc].
    apply Forall_app. split; [done |]. by repeat constructor.
Qed.

(** C1, on the code.  For a validated selection that holds an arc, with
    the opposite back tangent resolved and a non-negative constrained
    vertex index, [Activated] does not complete: it ends in an exception. *)
Theorem Activated_arc_insertion_raises (h : H) (sel : list SketchElement)
    (d : gmap string value) (arc st : SketchElement) (et : value) (k : Constraint) :
  is_empty (Gui_getSelection h) = false ->
  result (_validate_selection h) = inr (Some sel) ->
  result (_get_tangents sel h) = inr d ->
  d !! "arc" = Some (Elem arc) ->
  d !! "start_tangent" = Some (Elem st) ->
  d !! "end_tangent" = Some et ->
  is_None et = false ->
  constraint_of h (get_binding_constraint h arc (index st)) "FirstPos" = inr k ->
  0 <= constrained_vertex k ->
  exists e, result (Activated h) = inl e.
Proof.
  intros Hne Hsel Hd Harc Hst Het Hnone Hk Hv.
  destruct (Activated_arc_run h sel d arc Hne Hsel Hd Harc) as (dialogs & _ & ->).
  change (exists e, result (insertion d arc h) = inl e).
  apply post_False_raises. unfold insertion, post. rewrite result_bind.
  rewrite (adjust_existing_arc_run h d arc st et k Hst Het Hnone Hk).
  destruct (Z.ltb_spec (constrained_vertex k) 0) as [|_]; [lia |].
  assert (keyed d) as Hkeyed.
  { by apply (post_elim _ _ _ _ (get_tangents_keyed sel h)). }
  assert (keyed (<["constraint" := get_binding_constraint h arc (index st)]> d)) as Hbound
    by (by apply keyed_insert).
  pose proof (make_room_keyed _ (constrained_vertex k) h Hbound) as Hroom.
  unfold post in Hroom.
  destruct (result (make_room _ _ h)) as [e|prepared]; [done |].
  destruct Hroom as (d' & -> & Hd').
  apply place_new_arc_never_returns; [done | lia].
Qed.

End ArcBranch.

(** *** Every mutation of [Activated] is recomputed *)

Section Recompute.
Context {H : Type} `{Host H}.

Lemma quiet_get_constrained_vertex (constraint : value) :
  quiet (_get_constrained_vertex constraint : M H Z).
Proof. unfold _get_constrained_vertex. repeat quiet_step. Qed.

Lemma quiet_get_line_segments (d : gmap string value) (arc_vertex : Vector.t) :
  quiet (_get_line_segments d arc_vertex : M H _).
Proof.
  unfold _get_line_segments. repeat first [apply quiet_notify_error | quiet_step].
Qed.

Lemma quiet_get_arc_parameters (d : gmap string value) (vertex_index : Z) :
  quiet (_get_arc_parameters d vertex_index : M H _).
Proof.
  unfold _get_arc_parameters.
  repeat first [apply quiet_get_line_segments | quiet_step].
Qed.

Lemma quiet_reconstrain (d : gmap string value) (vertex_index : Z) :
  quiet (_reconstrain d vertex_index : M H unit).
Proof. unfold _reconstrain. repeat quiet_step. Qed.

Ltac settle_step :=
  lazymatch goal with
  | |- settles (bind (gets _) _) => apply settles_bind_gets; intro
  | |- settles (bind (lift _) _) => apply settles_bind_lift; intros ? ?
  | |- settles (ret _) => apply settles_quiet, quiet_ret
  | |- settles (if ?b then _ else _) => destruct b
  | |- settles (match ?x with _ => _ end) => destruct x
  end.

Lemma returns_delete_attached (attached : list SketchElement) (d : gmap string value) :
  returns (delete_attached attached d : M H _).
Proof.
  revert d. induction attached as [|_a rest IH]; intros d; simpl.
  - intros h. by eexists.
  - apply returns_bind; [apply returns_effect | intros _; apply IH].
Qed.

Lemma settles_delete_constraints (d : gmap string value) (vertex_index : Z) :
  settles (_delete_constraints d vertex_index : M H _).
Proof.
  unfold _delete_constraints. repeat settle_step.
  apply (settles_then_recompute _ document_recompute);
    [apply returns_delete_attached | intros d'; settle_step].
Qed.

Lemma settles_adjust_curve (d : gmap string value) (vertex_index : Z) (factor : float) :
  settles (_adjust_curve d vertex_index factor : M H _).
Proof.
  unfold _adjust_curve. repeat settle_step.
  apply (settles_then_recompute _ document_recompute);
    [apply returns_effect | intros _; settle_step].
Qed.

Lemma returns_point_on_object (new_tan_idx i : Z) (source : SketchElement) :
  returns (point_on_object new_tan_idx i (Elem source) : M H unit).
Proof. intros h. unfold point_on_object. simpl container. rewrite bind_lift_inr. by exists tt. Qed.

Lemma settles_generate_new_back_tangent (d : gmap string value) (vertex_index : Z) :
  settles (_generate_new_back_tangent d vertex_index : M H value).
Proof.
  unfold _generate_new_back_tangent. repeat settle_step.
  match goal with
  | Hs : container ?st "as_line2d" = inr _, He : container ?et "as_line2d" = inr _ |- _ =>
      destruct st; try discriminate Hs; destruct et; try discriminate He
  end.
  apply (settles_then_recompute _ document_recompute); [apply returns_request |].
  intros new_tan_idx.
  apply (settles_then_recompute2 _ _ document_recompute);
    [apply returns_point_on_object | apply returns_point_on_object |].
  apply (settles_then_recompute _ document_recompute);
    [apply returns_effect | intros _; repeat settle_step].
Qed.

Lemma settles_make_room (d : gmap string value) (vertex_index : Z) :
  settles (make_room d vertex_index : M H _).
Proof.
  unfold make_room.
  apply settles_bind; [apply settles_delete_constraints | intros d1].
  apply settles_bind; [apply settles_adjust_curve | intros d2].
  apply settles_bind; [apply settles_generate_new_back_tangent | intros new_tangent].
  repeat settle_step.
Qed.

Lemma settles_adjust_existing_arc (d : gmap string value) (arc : value) :
  settles (adjust_existing_arc d arc : M H _).
Proof.
  unfold adjust_existing_arc. repeat settle_step.
  apply settles_bind; [apply settles_quiet, quiet_get_constrained_vertex |].
  intros vertex_index. destruct (vertex_index <? 0).
  - apply settles_quiet. repeat first [apply quiet_notify_error | quiet_step].
  - apply settles_make_room.
Qed.

Lemma settles_place_new_arc (d : gmap string value) (vertex_index : Z) :
  settles (place_new_arc d vertex_index : M H unit).
Proof.
  unfold place_new_arc.
  apply settles_bind; [apply settles_quiet, quiet_get_arc_parameters |].
  intros [arc_parameters d'].
  apply (settles_then_recompute _ document_recompute); [apply returns_request |].
  intros _. apply settles_quiet, quiet_reconstrain.
Qed.

(** With every host call answering, each mutation [InsertCurve.Activated]
    makes is followed by a recompute later in the run. *)
Lemma Activated_settles : settles (Activated : M H unit).
Proof.
  unfold Activated. settle_step. settle_step.
  { apply settles_quiet, quiet_notify_error. }
  apply settles_bind; [apply settles_quiet, quiet_validate_selection |].
  intros [selection|]; [| settle_step].
  apply settles_bind; [apply settles_quiet, quiet_get_tangents |].
  intros d. settle_step.
  apply settles_bind.
  - destruct (negb (is_None a0)); [apply settles_adjust_existing_arc | settle_step].
  - intros [[d' vertex_index]|]; [apply settles_place_new_arc | settle_step].
Qed.

End Recompute.

(** *** A dialog and a mutation never come in the same run *)

Section Dialogs.
Context {H : Type} `{Host H}.

Ltac mute_step :=
  lazymatch goal with
  | |- mute (bind (gets _) _) => apply mute_bind; [apply silent_mute, silent_gets | intros ? ? _]
  | |- mute (bind (lift _) _) => apply mute_bind; [apply silent_mute, silent_lift | intros ? ? _]
  | |- mute (bind recompute_document _) => apply mute_bind; [by apply mute_effect | intros ? ? _]
  | |- mute (bind (effect _ _) _) => apply mute_bind; [by apply mute_effect | intros ? ? _]
  | |- mute (bind (request _ _) _) => apply mute_bind; [by apply mute_request | intros ? ? _]
  | |- mute (bind (emit _) _) => apply mute_bind; [by apply mute_emit | intros ? ? _]
  | |- mute (bind (if _ then _ else _) _) => apply mute_bind; [| intros ? ? _]
  | |- mute (bind (match _ with _ => _ end) _) => apply mute_bind; [| intros ? ? _]
  | |- mute (ret _) => apply silent_mute, silent_ret
  | |- mute (raise _) => apply silent_mute, silent_raise
  | |- mute (lift _) => apply silent_mute, silent_lift
  | |- mute (effect _ _) => by apply mute_effect
  | |- mute (if ?b then _ else _) => destruct b
  | |- mute (match ?x with _ => _ end) => destruct x
  end.

Lemma mute_delete_attached (attached : list SketchElement) (d : gmap string value) :
  mute (delete_attached attached d : M H _).
Proof.
  revert d. induction attached as [|_a rest IH]; intros d; simpl; [mute_step |].
  mute_step. apply IH.
Qed.

Lemma mute_delete_constraints (d : gmap string value) (vertex_index : Z) :
  mute (_delete_constraints d vertex_index : M H _).
Proof.
  unfold _delete_constraints. do 4 mute_step.
  apply mute_bind; [apply mute_delete_attached | intros ? ? _]. repeat mute_step.
Qed.

Lemma mute_adjust_curve (d : gmap string value) (vertex_index : Z) (factor : float) :
  mute (_adjust_curve d vertex_index factor : M H _).
Proof. unfold _adjust_curve. repeat mute_step. Qed.

Lemma mute_generate_new_back_tangent (d : gmap string value) (vertex_index : Z) :
  mute (_generate_new_back_tangent d vertex_index : M H value).
Proof.
  unfold _generate_new_back_tangent, point_on_object.
  repeat first [mute_step
               | apply mute_bind; [repeat mute_step | intros ? ? _]].
Qed.

Lemma mute_make_room (d : gmap string value) (vertex_index : Z) :
  mute (make_room d vertex_index : M H _).
Proof.
  unfold make_room.
  apply mute_bind; [apply mute_delete_constraints | intros ? d1 _].
  apply mute_bind; [apply mute_adjust_curve | intros ? d2 _].
  apply mute_bind; [apply mute_generate_new_back_tangent | intros ? new_tangent _].
  repeat mute_step.
Qed.

Lemma mute_get_line_segments (d : gmap string value) (arc_vertex : Vector.t) :
  keyed d -> mute (_get_line_segments d arc_vertex : M H _).
Proof.
  intros [Harc _]. unfold _get_line_segments, has_key.
  rewrite bool_decide_eq_true_2 by done. simpl negb. cbv iota.
  repeat mute_step.
Qed.

Lemma mute_get_arc_parameters (d : gmap string value) (vertex_index : Z) :
  keyed d -> mute (_get_arc_parameters d vertex_index : M H _).
Proof.
  intros Hd. unfold _get_arc_parameters. do 5 mute_step.
  apply mute_bind; [by apply mute_get_line_segments | intros ? [tangents d'] _].
  repeat mute_step.
Qed.

Lemma mute_place_new_arc (d : gmap string value) (vertex_index : Z) :
  keyed d -> mute (place_new_arc d vertex_index : M H unit).
Proof.
  intros Hd. unfold place_new_arc.
  apply mute_bind; [by apply mute_get_arc_parameters | intros ? [arc_parameters d'] _].
  do 2 mute_step. unfold _reconstrain. repeat mute_step.
Qed.

Ltac silent_step :=
  lazymatch goal with
  | |- silent (bind _ _) => apply silent_bind
  | |- silent (ret _) => apply silent_ret
  | |- silent (gets _) => apply silent_gets
  | |- silent (lift _) => apply silent_lift
  | |- silent (raise _) => apply silent_raise
  | |- silent (if ?b then _ else _) => destruct b
  | |- silent (match ?x with _ => _ end) => destruct x
  | |- forall _, silent _ => intro
  end.

Lemma silent_validate_selection_constraints (selection : list SketchElement) :
  silent (_validate_selection_constraints selection : M H _).
Proof. unfold _validate_selection_constraints. repeat silent_step. Qed.

Lemma silent_validate_selection_bindings (selection constraints : list SketchElement) :
  silent (_validate_selection_bindings selection constraints : M H _).
Proof. unfold _validate_selection_bindings. repeat silent_step. Qed.

Lemma silent_get_tangents (selection : list SketchElement) :
  silent (_get_tangents selection : M H _).
Proof. unfold _get_tangents. repeat silent_step. Qed.

(** The geometry check shows a dialog and still accepts only when both
    selected elements are line segments. *)
Lemma validate_geometry_dialog (selection : list SketchElement) (h : H) :
  result (_validate_selection_geometry selection h) = inr true ->
  existsb is_critical (trace (_validate_selection_geometry selection h)) = true ->
  Forall (not_arc h) selection.
Proof.
  destruct selection as [|a [|b [|c rest]]].
  - by intros _ Ht.
  - by intros Hr.
  - unfold _validate_selection_geometry.
    change (Z.of_nat (length [a; b]) =? 0) with false.
    change (Z.of_nat (length [a; b]) =? 2) with true.
    cbn [negb]. rewrite bind_gets. unfold id.
    rewrite subscript_0, subscript_1. unfold not_arc.
    destruct (get_element h a) as [[|]| | |] eqn:Ha;
      destruct (get_element h b) as [[|]| | |] eqn:Hb;
      cbn [scan_geometry]; rewrite ?Ha, ?Hb; simpl; try (by intros Hr).
    intros _ _. repeat constructor; by rewrite ?Ha, ?Hb.
  - unfold _validate_selection_geometry.
    replace (Z.of_nat (length (a :: b :: c :: rest)) =? 0) with false
      by (symmetry; apply Z.eqb_neq; simpl length; lia).
    replace (Z.of_nat (length (a :: b :: c :: rest)) =? 2) with false
      by (symmetry; apply Z.eqb_neq; simpl length; lia).
    by intros Hr.
Qed.

Lemma binding_constraint_not_arc (h : H) (selection constraints found : list SketchElement) :
  binding_constraint h selection constraints = inr found -> Forall (not_arc h) found.
Proof.
  induction constraints as [|constraint rest IH]; cbn [binding_constraint].
  - intros [= <-]. constructor.
  - destruct selection as [|sel others]; [done |].
    destruct (constraint_of h (Elem constraint) "First") as [e|k] eqn:Hk; [done |].
    destruct (connected k (sel :: others) false); [| done].
    intros [= <-]. repeat constructor. unfold not_arc.
    unfold constraint_of in Hk. simpl in Hk.
    by destruct (get_element h constraint).
Qed.

(** A selection that was accepted after a dialog holds no arc. *)
Lemma validate_selection_dialog (h : H) (accepted : list SketchElement) :
  result (_validate_selection h) = inr (Some accepted) ->
  existsb is_critical (trace (_validate_selection h)) = true ->
  Forall (not_arc h) accepted.
Proof.
  unfold _validate_selection. rewrite bind_gets.
  set (selection := GeoUtils_get_selection h).
  rewrite result_bind, trace_bind.
  destruct (quiet_validate_selection_geometry selection h) as [-> _].
  destruct (result (_validate_selection_geometry selection h)) as [e|[|]] eqn:Hgeo;
    [done | | done].
  cbn [negb]. rewrite result_bind, trace_bind.
  destruct (silent_validate_selection_constraints selection h) as [-> ->].
  destruct (result (_validate_selection_constraints selection h))
    as [e|[|c cs]] eqn:Hcs; [done | done |].
  cbn [is_empty]. rewrite result_bind, trace_bind.
  destruct (silent_validate_selection_bindings selection (c :: cs) h) as [-> ->].
  destruct (result (_validate_selection_bindings selection (c :: cs) h))
    as [e|[|b bs]] eqn:Hbs; [done | done |].
  cbn [is_empty]. intros [= <-]. rewrite !app_nil_r. intros Hdialog.
  apply Forall_app. split; [by apply validate_geometry_dialog |].
  apply (binding_constraint_not_arc h selection (c :: cs)).
  unfold _validate_selection_bindings in Hbs. by rewrite bind_gets in Hbs.
Qed.

Lemma sort_selection_no_arc (h : H) (selection : list SketchElement)
    (d d' : gmap string value) :
  Forall (not_arc h) selection -> d !! "arc" = Some None_ ->
  sort_selection h selection d = inr d' -> d' !! "arc" = Some None_.
Proof.
  intros Hall. revert d. induction Hall as [|sel rest Hsel _ IH]; intros d Hd; simpl.
  - by intros [= <-].
  - unfold sort_selected. rewrite bool_decide_eq_false_2 by done.
    destruct (getitem d "start_tangent") as [e|st]; [done |].
    destruct (is_None st); apply IH; by rewrite lookup_insert_ne.
Qed.

Lemma get_tangents_no_arc (h : H) (selection : list SketchElement) (d : gmap string value) :
  Forall (not_arc h) selection ->
  result (_get_tangents selection h) = inr d -> d !! "arc" = Some None_.
Proof.
  intros Hall. unfold _get_tangents. rewrite bind_gets. unfold id.
  destruct (sort_selection h selection _) as [e|d1] eqn:Hsort; [done |].
  apply (sort_selection_no_arc h selection _ d1 Hall) in Hsort; [| done].
  rewrite bind_lift_inr. unfold getitem. rewrite Hsort, bind_lift_inr. simpl.
  by intros [= <-].
Qed.

(** Without an arc in the dictionary the placement stops at once. *)
Lemma place_new_arc_without_arc (d : gmap string value) (vertex_index : Z) (h : H) :
  d !! "arc" = Some None_ -> trace (place_new_arc d vertex_index h) = [].
Proof.
  intros Hd. unfold place_new_arc, _get_arc_parameters.
  rewrite trace_bind, result_bind, bind_gets. unfold getitem. by rewrite Hd.
Qed.

(** The arc branch either ends without a host call, or ends with the
    dialog alone, or goes on to make room for the new arc. *)
Lemma adjust_existing_arc_cases (d : gmap string value) (arc : SketchElement) (h : H) :
  keyed d ->
  (exists r, adjust_existing_arc d (Elem arc) h = (r, h, []) /\
             (r = inr None \/ exists e, r = inl e)) \/
  adjust_existing_arc d (Elem arc) h = (inr None, h, [invalid_constraint_dialog]) \/
  (exists d1 v, keyed d1 /\ adjust_existing_arc d (Elem arc) h = make_room d1 v h).
Proof.
  intros Hd. unfold adjust_existing_arc.
  destruct (getitem d "end_tangent") as [e|et]; [left; eauto |].
  rewrite bind_lift_inr. destruct (is_None et); [left; eauto |].
  rewrite bind_gets. unfold id. simpl container. rewrite bind_lift_inr.
  destruct (getitem d "start_tangent") as [e|st]; [left; eauto |].
  rewrite bind_lift_inr.
  destruct (container st "index") as [e|st']; [left; eauto |].
  rewrite bind_lift_inr.
  assert (getitem (<["constraint" := get_binding_constraint h arc (index st')]> d) "constraint"
          = inr (get_binding_constraint h arc (index st'))) as ->
    by (unfold getitem; by rewrite lookup_insert_eq).
  rewrite bind_lift_inr.
  pose proof (get_constrained_vertex_run (get_binding_constraint h arc (index st')) h) as Hrun.
  destruct (constraint_of h _ "FirstPos") as [e|k].
  - left. exists (inl e). split; [| eauto]. unfold bind. by rewrite Hrun.
  - rewrite (bind_outcome _ _ _ _ _ _ Hrun). simpl app.
    destruct (constrained_vertex k <? 0).
    + right. left. reflexivity.
    + right. right. eexists _, _. split; [| by rewrite <- outcome_eta].
      by apply keyed_insert.
Qed.

Lemma insertion_dialog_no_mutation (d : gmap string value) (arc : SketchElement) (h : H) :
  keyed d ->
  existsb is_critical (trace (insertion d arc h)) = true ->
  no_mutation (trace (insertion d arc h)).
Proof.
  intros Hd. unfold insertion.
  destruct (adjust_existing_arc_cases d arc h Hd)
    as [(r & Hrun & Hr) | [Hrun | (d1 & v & Hd1 & Hrun)]].
  - unfold bind. rewrite Hrun. by destruct Hr as [-> | [e ->]].
  - unfold bind. rewrite Hrun. simpl. intros _. by repeat constructor.
  - assert (mute (bind (make_room d1 v)
              (fun prepared : option (gmap string value * Z) =>
                 match prepared with
                 | Some (geo_dict, vertex_index) => place_new_arc geo_dict vertex_index
                 | None => ret tt
                 end) : M H unit)) as Hmute.
    { apply mute_bind; [apply mute_make_room |].
      intros s prepared Hprepared.
      destruct (post_elim _ _ _ _ (make_room_keyed d1 v s Hd1) Hprepared) as (d' & -> & Hd').
      by apply mute_place_new_arc. }
    specialize (Hmute h). unfold bind in Hmute |- *. rewrite Hrun.
    by rewrite Hmute.
Qed.

Lemma adjust_existing_arc_no_container (d : gmap string value) (arc : value) (h : H) e :
  container arc "get_binding_constraint" = inl e ->
  exists r, adjust_existing_arc d arc h = (r, h, []) /\
            (r = inr None \/ exists e, r = inl e).
Proof.
  intros Harc. unfold adjust_existing_arc.
  destruct (getitem d "end_tangent") as [e'|et]; [eauto |].
  rewrite bind_lift_inr. destruct (is_None et); [eauto |].
  rewrite bind_gets, Harc. eauto.
Qed.

(** X2. Whenever [InsertCurve.Activated] shows a critical dialog, it mutates
    nothing: a dialog and a mutation never come in the same run. *)
Lemma Activated_dialog_no_mutation (h : H) :
  existsb is_critical (trace (Activated h)) = true ->
  no_mutation (trace (Activated h)).
Proof.
  unfold Activated. rewrite bind_gets.
  destruct (is_empty (Gui_getSelection h)); [intros _; by repeat constructor |].
  rewrite trace_bind. destruct (quiet_validate_selection h) as [Hf1 Ht1].
  destruct (result (_validate_selection h)) as [e|[sel|]] eqn:Hr1;
    [done | | intros _; by rewrite app_nil_r].
  rewrite Hf1, trace_bind. destruct (silent_get_tangents sel h) as [Hf2 Ht2].
  rewrite Hf2, Ht2.
  destruct (result (_get_tangents sel h)) as [e|d] eqn:Hr2;
    [intros _; by rewrite app_nil_r |].
  assert (keyed d) as Hd by (by apply (post_elim _ _ _ _ (get_tangents_keyed sel h))).
  simpl app. destruct (getitem d "arc") as [e|arc] eqn:Harc;
    [intros _; by rewrite app_nil_r |].
  rewrite bind_lift_inr.
  destruct (container arc "get_binding_constraint") as [e|a] eqn:Hcontainer.
  - intros _. destruct (is_None arc) eqn:Hnone; simpl negb; cbv iota.
    + rewrite bind_ret, place_new_arc_without_arc; [by rewrite app_nil_r |].
      destruct arc; try done. unfold getitem in Harc.
      by destruct (d !! "arc") as [v|]; [injection Harc as -> |].
    + destruct (adjust_existing_arc_no_container d arc h e Hcontainer) as (r & Hrun & Hr).
      destruct Hr as [-> | [e' ->]]; unfold bind; rewrite Hrun; simpl;
        by rewrite ?app_nil_r.
  - destruct arc; try done. injection Hcontainer as ->. simpl negb. cbv iota.
    fold (insertion d a h). rewrite existsb_app.
    destruct (existsb is_critical (trace (_validate_selection h))) eqn:Hdialog.
    + intros _. exfalso.
      pose proof (validate_selection_dialog h sel Hr1 Hdialog) as Hall.
      pose proof (get_tangents_no_arc h sel d Hall Hr2) as Hnone.
      unfold getitem in Harc. by rewrite Hnone in Harc.
    + simpl. intros Hins. apply Forall_app. split; [done |].
      by apply insertion_dialog_no_mutation.
Qed.

End Dialogs.

(** *** The two sketches of the scenario *)

Lemma constrained_vertex_value_and_rejection_witness :
  let h := SketchScenario.sketch_with SketchScenario.tangent_edge_to_edge in
  _get_constrained_vertex (Elem SketchScenario.constraint0) h = (inr (-1), h, []) /\
  outcome Activated h (fun r s t =>
    r = inr tt /\ s = h /\ no_mutation t /\ last t = Some invalid_constraint_dialog).
Proof.
  intros h.
  assert (constraint_of h (Elem SketchScenario.constraint0) "FirstPos"
          = inr SketchScenario.tangent_edge_to_edge) as Hk by (vm_compute; reflexivity).
  destruct (constrained_vertex_value_and_rejection h (Elem SketchScenario.constraint0)
              SketchScenario.tangent_edge_to_edge Hk) as (Hvalue & _ & Hrejected).
  split; [exact Hvalue |].
  eapply Hrejected; vm_compute; reflexivity.
Defined.

Lemma Activated_arc_insertion_raises_witness :
  exists e, result (Activated (SketchScenario.sketch_with SketchScenario.tangent_at_start))
            = inl e.
Proof.
  eapply (Activated_arc_insertion_raises
            (SketchScenario.sketch_with SketchScenario.tangent_at_start));
    try (vm_compute; reflexivity).
  vm_compute. discriminate.
Defined.

(** On the first sketch the command deletes the constraint, moves the end
    of the arc, adds the new back tangent and the new arc, and then stops
    in [_reconstrain] at the key "new_arc", which no statement ever sets
    (line 103 sets "new arc"). *)
Lemma Activated_arc_insertion_KeyError :
  let o := Activated (SketchScenario.sketch_with SketchScenario.tangent_at_start) in
  result o = inl (KeyError "new_arc") /\
  trace o
  = [delConstraint 0; recompute; movePoint 1 1; recompute;
     addGeometry true; recompute;
     addConstraint "PointOnObject"; addConstraint "PointOnObject"; recompute;
     addConstraint "Tangent"; recompute;
     print "arc vertex: Vector (0.0, 0.0, 0.0)";
     addGeometry false; recompute].
Proof. vm_compute. split; reflexivity. Qed.

(** On the second sketch the validation shows the "Attached Geometry"
    dialog and then accepts the selection (line 700 sets the flag again):
    the command goes on and stops, before any mutation, at the arc the
    dictionary does not hold. *)
Lemma Activated_attached_geometry_goes_on :
  Activated SketchScenario.lines_with_attached_arc
  = (inl (AttributeError "NoneType" "get_points"),
     SketchScenario.lines_with_attached_arc,
     [critical "Attached Geometry Error" "Selected elements have attached arc."]).
Proof. vm_compute. reflexivity. Qed.

End InsertCurveFacts.

(** ** InsertCurve: edge cases, and what the insertion sequence leaves behind *)

Module InsertCurveEdges.
Import Py Outcome PyFacts InsertCurve InsertCurveSpec InsertCurveFacts.

(** X12. [_sort_vectors] raises IndexError exactly on lists of fewer than two
    vectors; on any longer list it returns a list of exactly two vectors,
    the first two of its argument in their order or swapped, whatever
    follows them. *)
Theorem sort_vectors_takes_two (vectors : list Vector.t) :
  match _sort_vectors vectors with
  | inr sorted =>
      (2 <= length vectors)%nat /\
      (sorted = take 2 vectors \/ sorted = reverse (take 2 vectors))
  | inl e => e = IndexError /\ (length vectors < 2)%nat
  end.
Proof.
  destruct vectors as [|v0 [|v1 rest]].
  - simpl. split; [done | lia].
  - simpl. split; [done | lia].
  - unfold _sort_vectors. rewrite subscript_0, subscript_1.
    destruct (F.gt _ _); (split; [simpl; lia |]); [by right | by left].
Qed.

(** X13. The pair [_sort_vectors] returns is never in positive
    orientation: the z component of the cross product of the first
    returned vector with the second is not above zero. *)
Theorem sort_vectors_orientation (vectors : list Vector.t) :
  match _sort_vectors vectors with
  | inr [first; second] =>
      F.gt (Vector.z (Vector.cross first second)) F.zero = false
  | inr _ => False
  | inl _ => (length vectors < 2)%nat
  end.
Proof.
  destruct vectors as [|v0 [|v1 rest]]; [simpl; lia | simpl; lia |].
  unfold _sort_vectors. rewrite subscript_0, subscript_1.
  destruct (F.gt (Vector.z (Vector.cross v0 v1)) F.zero) eqn:Hgt; [| done].
  simpl in *.
  rewrite (FloatFacts.mul_comm (Vector.x v1)), (FloatFacts.mul_comm (Vector.y v1)).
  by apply FloatFacts.sub_gt_asym.
Qed.

Section Validation.
Context {H : Type} `{Host H}.

Ltac reports_step :=
  lazymatch goal with
  | |- reports (bind _ _) => apply reports_bind
  | |- reports (ret _) => apply reports_silent, silent_ret
  | |- reports (gets _) => apply reports_silent, silent_gets
  | |- reports (lift _) => apply reports_silent, silent_lift
  | |- reports (raise _) => apply reports_silent, silent_raise
  | |- reports (_notify_error _) => apply reports_dialog
  | |- reports (if ?b then _ else _) => destruct b
  | |- reports (match ?x with _ => _ end) => destruct x
  | |- forall _, reports _ => intro
  end.

Lemma reports_report_attached_arc (items : list SketchElement) :
  reports (report_attached_arc items : M H unit).
Proof.
  induction items as [|item rest IH]; simpl; [reports_step |].
  destruct (bool_decide _); [apply reports_dialog | done].
Qed.

Lemma reports_validate_selection_geometry (selection : list SketchElement) :
  reports (_validate_selection_geometry selection : M H bool).
Proof.
  unfold _validate_selection_geometry.
  repeat first [apply reports_report_attached_arc | reports_step].
Qed.

(** X7. Validation of the selection leaves the host state as it found it,
    and the only host calls it makes are critical dialogs. *)
Theorem validate_selection_only_reports (h : H) :
  final (_validate_selection h) = h /\
  only_dialogs (trace (_validate_selection h)).
Proof.
  revert h. change (reports (_validate_selection : M H _)).
  unfold _validate_selection, _validate_selection_constraints, _validate_selection_bindings.
  repeat first [apply reports_validate_selection_geometry | reports_step].
Qed.

(** The selection validation, step by step: the outcome of the geometry
    check, of the constraint types, and of the bindings. *)
Lemma validate_selection_run (h : H) :
  let selection := GeoUtils_get_selection h in
  let geometry := _validate_selection_geometry selection h in
  _validate_selection h
  = match result geometry with
    | inl e => (inl e, h, trace geometry)
    | inr false => (inr None, h, trace geometry ++ [invalid_geometry_dialog])
    | inr true =>
        match result (_validate_selection_constraints selection h) with
        | inl e => (inl e, h, trace geometry)
        | inr [] => (inr None, h, trace geometry ++ [invalid_constraint_dialog])
        | inr (c :: cs) =>
            match binding_constraint h selection (c :: cs) with
            | inl e => (inl e, h, trace geometry)
            | inr [] => (inr None, h, trace geometry ++ [invalid_constraint_dialog])
            | inr (b :: bs) => (inr (Some (selection ++ b :: bs)), h, trace geometry)
            end
        end
    end.
Proof.
  intros selection geometry. unfold _validate_selection. rewrite bind_gets.
  fold selection.
  rewrite (outcome_eta (bind _ _ h)), result_bind, final_bind, trace_bind.
  fold geometry.
  destruct (quiet_validate_selection_geometry selection h) as [Hf _]. fold geometry in Hf.
  rewrite Hf.
  destruct (result geometry) as [e|[|]]; [done | | done].
  cbn [negb]. rewrite result_bind, final_bind, trace_bind.
  destruct (silent_validate_selection_constraints selection h) as [-> ->].
  destruct (result (_validate_selection_constraints selection h)) as [e|[|c cs]];
    [by rewrite app_nil_r | done |].
  cbn [is_empty]. rewrite result_bind, final_bind, trace_bind.
  destruct (silent_validate_selection_bindings selection (c :: cs) h) as [-> ->].
  assert (result (_validate_selection_bindings selection (c :: cs) h)
          = binding_constraint h selection (c :: cs)) as ->
    by (unfold _validate_selection_bindings; by rewrite bind_gets).
  destruct (binding_constraint h selection (c :: cs)) as [e|[|b bs]]; simpl;
    by rewrite ?app_nil_r.
Qed.

(** X8. Whenever validation rejects the selection, the last thing it did
    was to tell the user: the trace ends with the "Invalid Geometry" or
    the "Invalid Constraint" dialog. *)
Theorem validate_selection_rejection_reported (h : H) :
  result (_validate_selection h) = inr None ->
  last (trace (_validate_selection h)) = Some invalid_geometry_dialog \/
  last (trace (_validate_selection h)) = Some invalid_constraint_dialog.
Proof.
  rewrite validate_selection_run. cbv zeta.
  destruct (result (_validate_selection_geometry _ h)) as [e|[|]]; [done | |].
  - destruct (result (_validate_selection_constraints _ h)) as [e|[|c cs]]; [done | |].
    + intros _. right. unfold trace at 1. simpl. by rewrite last_snoc.
    + destruct (binding_constraint h _ (c :: cs)) as [e|[|b bs]]; [done | | done].
      intros _. right. unfold trace at 1. simpl. by rewrite last_snoc.
  - intros _. left. unfold trace at 1. simpl. by rewrite last_snoc.
Qed.

(** X6. With the sketch selected and none of its geometry, the geometry
    check accepts the empty selection and the constraint check then
    subscripts it: the command ends in IndexError, with no dialog. *)
Theorem Activated_empty_geometry_selection (h : H) :
  is_empty (Gui_getSelection h) = false ->
  GeoUtils_get_selection h = [] ->
  _validate_selection h = (inl IndexError, h, []) /\
  Activated h = (inl IndexError, h, []).
Proof.
  intros Hne Hsel.
  assert (_validate_selection h = (inl IndexError, h, [])) as Hv.
  { unfold _validate_selection. rewrite bind_gets, Hsel. reflexivity. }
  split; [done |].
  unfold Activated. rewrite bind_gets, Hne. unfold bind. by rewrite Hv.
Qed.

End Validation.

Section Bindings.
Context {H : Type} `{Host H}.

Lemma connected_forallb (k : Constraint) (selection : list SketchElement) :
  connected k selection true = forallb (touches k) selection.
Proof.
  induction selection as [|sel rest IH]; [done |].
  simpl. fold (touches k sel). by destruct (touches k sel).
Qed.

Lemma connected_nonempty (k : Constraint) (sel : SketchElement)
    (rest : list SketchElement) (are_connected : bool) :
  connected k (sel :: rest) are_connected = forallb (touches k) (sel :: rest).
Proof.
  simpl. fold (touches k sel).
  destruct (touches k sel); simpl; [apply connected_forallb | done].
Qed.

Lemma constraint_of_element (h : H) (c : SketchElement) (attribute : string) (k : Constraint) :
  constraint_of h (Elem c) attribute = inr k <-> get_element h c = ConstraintElement k.
Proof.
  unfold constraint_of. simpl.
  destruct (get_element h c); split; intros Heq; try done; by simplify_eq.
Qed.

Lemma binding_constraint_nothing_selected (h : H) (constraints : list SketchElement) :
  binding_constraint h [] constraints = inr [].
Proof. induction constraints as [|c rest IH]; [done | apply IH]. Qed.

Lemma binding_constraint_first (h : H) (selection constraints found : list SketchElement) :
  selection <> [] ->
  binding_constraint h selection constraints = inr found ->
  (found = [] /\ Forall (fun c => ~ binds h selection c) constraints) \/
  (exists before c after,
     found = [c] /\ constraints = before ++ c :: after /\
     binds h selection c /\ Forall (fun c' => ~ binds h selection c') before).
Proof.
  intros Hsel. destruct selection as [|sel others]; [done |]. clear Hsel.
  induction constraints as [|c rest IH]; cbn [binding_constraint].
  - intros [= <-]. left. by split.
  - destruct (constraint_of h (Elem c) "First") as [e|k] eqn:Hk; [done |].
    apply constraint_of_element in Hk.
    rewrite connected_nonempty.
    destruct (forallb (touches k) (sel :: others)) eqn:Hall.
    + intros [= <-]. right. exists [], c, rest. repeat split; [| constructor].
      by exists k.
    + assert (~ binds h (sel :: others) c) as Hnot.
      { intros (k' & Hk' & Hall'). rewrite Hk in Hk'. injection Hk' as <-.
        by rewrite Hall in Hall'. }
      intros Hrest. destruct (IH Hrest) as [[-> Hnone] | (before & b & after & -> & -> & Hb & Hbefore)].
      * left. split; [done | by constructor].
      * right. exists (c :: before), b, after. repeat split; [done | by constructor].
Qed.

(** X10. [_validate_selection_bindings] returns at most one container: the
    first of the given constraint containers whose constraint names every
    selected element as its first or second geometry, and the empty list
    when there is none.  With an empty selection it returns the empty
    list whatever the constraints. *)
Theorem validate_selection_bindings_first (h : H)
    (selection constraints : list SketchElement) :
  (selection = [] ->
     _validate_selection_bindings selection constraints h = (inr [], h, [])) /\
  (selection <> [] ->
     forall found,
       result (_validate_selection_bindings selection constraints h) = inr found ->
       (found = [] /\ Forall (fun c => ~ binds h selection c) constraints) \/
       (exists before c after,
          found = [c] /\ constraints = before ++ c :: after /\
          binds h selection c /\ Forall (fun c' => ~ binds h selection c') before)).
Proof.
  unfold _validate_selection_bindings. rewrite bind_gets. unfold id. split.
  - intros ->. by rewrite binding_constraint_nothing_selected.
  - intros Hsel found Hfound. by apply binding_constraint_first.
Qed.

Lemma valid_constraints_allowed (h : H) (two_back_tangents : bool) (i : Z)
    (constraints : list Constraint) (c : SketchElement) :
  c ∈ valid_constraints h two_back_tangents i constraints <->
  exists (n : nat) k,
    constraints !! n = Some k /\ allowed two_back_tangents k = true /\
    c = skel_SketchConstraint h (i + Z.of_nat n).
Proof.
  revert i. induction constraints as [|k rest IH]; intros i; cbn [valid_constraints].
  - split; [by intros ?%elem_of_nil | by intros (n & k & ? & _)].
  - assert ((if negb (String.eqb (Type_ k) "Tangent" && negb two_back_tangents)
             then (String.eqb (Type_ k) "Coincident" || String.eqb (Type_ k) "PointOnObject")
                  && two_back_tangents
             else String.eqb (Type_ k) "Tangent" && negb two_back_tangents)
            = allowed two_back_tangents k) as ->.
    { unfold allowed. destruct two_back_tangents.
      - by rewrite andb_false_r, andb_true_r.
      - rewrite andb_true_r, andb_false_r. by destruct (String.eqb (Type_ k) "Tangent"). }
    assert (c ∈ valid_constraints h two_back_tangents (i + 1) rest <->
            exists (n : nat) k', (k :: rest) !! S n = Some k' /\
              allowed two_back_tangents k' = true /\
              c = skel_SketchConstraint h (i + Z.of_nat (S n))) as Hrest.
    { rewrite IH. split; intros (n & k' & Hn & Hk' & ->); exists n, k';
        (repeat split; [done | done | f_equal; lia]). }
    destruct (allowed two_back_tangents k) eqn:Hk; cbn [negb].
    + rewrite elem_of_cons, Hrest. split.
      * intros [-> | (n & k' & Hn & Hk' & ->)].
        -- exists 0%nat, k. repeat split; [done |]. f_equal. lia.
        -- by exists (S n), k'.
      * intros ([|n] & k' & Hn & Hk' & ->).
        -- left. f_equal. lia.
        -- right. by exists n, k'.
    + rewrite Hrest. split.
      * intros (n & k' & Hn & Hk' & ->). by exists (S n), k'.
      * intros ([|n] & k' & Hn & Hk' & ->).
        -- simpl in Hn. injection Hn as <-. by rewrite Hk in Hk'.
        -- by exists n, k'.
Qed.

(** X9. On a selection of at least two elements
    [_validate_selection_constraints] makes no host call and returns the
    containers of exactly those sketch constraints whose type counts for
    the selection: "Coincident" and "PointOnObject" when the first two
    selected elements are both line segments, "Tangent" otherwise.  Each
    container carries the position of its constraint in the sketch. *)
Theorem validate_selection_constraints_by_type (h : H) (a b : SketchElement)
    (rest : list SketchElement) :
  exists found,
    _validate_selection_constraints (a :: b :: rest) h = (inr found, h, []) /\
    forall c, c ∈ found <->
      exists (i : nat) k,
        sketch_Constraints h !! i = Some k /\
        allowed (is_line h a && is_line h b) k = true /\
        c = skel_SketchConstraint h (Z.of_nat i).
Proof.
  exists (valid_constraints h (is_line h a && is_line h b) 0 (sketch_Constraints h)).
  split.
  - unfold _validate_selection_constraints.
    rewrite bind_gets, subscript_0, bind_lift_inr. unfold id.
    destruct (is_line h a); [by rewrite subscript_1 | done].
  - intros c. apply valid_constraints_allowed.
Qed.

End Bindings.

Section Tangents.
Context {H : Type} `{Host H}.

Lemma sort_selection_without_arc (h : H) (rest : list SketchElement)
    (d : gmap string value) (first : SketchElement) :
  Forall (not_arc h) rest ->
  d !! "start_tangent" = Some (Elem first) ->
  sort_selection h rest d
  = inr (match last rest with
         | Some e => <["end_tangent" := Elem e]> d
         | None => d
         end).
Proof.
  intros Hall. revert d. induction Hall as [|sel rest Hsel _ IH]; intros d Hd; [done |].
  cbn [sort_selection]. unfold sort_selected, getitem.
  rewrite bool_decide_eq_false_2 by done. rewrite Hd. cbn [is_None].
  rewrite IH by (by rewrite lookup_insert_ne). rewrite last_cons.
  destruct (last rest); [by rewrite insert_insert_eq | done].
Qed.

Lemma no_tangents_end : no_tangents !! "end_tangent" = Some None_.
Proof. unfold no_tangents. by rewrite !lookup_insert_ne, lookup_insert_eq by done. Qed.

(** The dictionary of a selection without arcs. *)
Lemma get_tangents_without_arc_run (h : H) (first : SketchElement)
    (others : list SketchElement) :
  Forall (not_arc h) (first :: others) ->
  _get_tangents (first :: others) h
  = (inr (<["end_tangent" := optional (last others)]>
            (<["start_tangent" := Elem first]> no_tangents)), h, []).
Proof.
  intros Hall. inversion Hall as [|? ? Hfirst Hothers]; subst.
  unfold _get_tangents. rewrite bind_gets. unfold id. fold no_tangents.
  cbn [sort_selection]. unfold sort_selected at 1.
  rewrite bool_decide_eq_false_2 by done.
  assert (getitem no_tangents "start_tangent" = inr None_) as ->.
  { unfold getitem, no_tangents. by rewrite lookup_insert_ne, lookup_insert_eq by done. }
  cbn [is_None].
  rewrite (sort_selection_without_arc h others _ first Hothers)
    by (by rewrite lookup_insert_eq).
  rewrite bind_lift_inr.
  assert (forall d : gmap string value,
            d !! "arc" = Some None_ ->
            bind (lift (getitem d "arc"))
              (fun arc => if is_None arc then ret d
                          else bind (lift (container arc "match_attached_geometry"))
                                 (fun arc0 => lift (find_end_tangent
                                                      (match_attached_geometry h arc0) d))) h
            = (inr d, h, [])) as Hrun.
  { intros d Hd. unfold getitem. by rewrite Hd, bind_lift_inr. }
  assert ((<["start_tangent" := Elem first]> no_tangents) !! "arc" = Some None_) as Harc.
  { unfold no_tangents. by rewrite lookup_insert_ne, lookup_insert_eq by done. }
  destruct (last others) as [e|]; simpl optional.
  - apply Hrun. by rewrite lookup_insert_ne.
  - rewrite (insert_id (<["start_tangent" := Elem first]> no_tangents) "end_tangent" None_)
      by (by rewrite lookup_insert_ne, no_tangents_end).
    by apply Hrun.
Qed.

(** X11. On a selection without arcs [_get_tangents] makes the first
    element the start tangent and the last of the other elements the end
    tangent, and leaves the arc and the constraint [None]: of three or
    more elements the ones in the middle are dropped, and the container
    of the binding constraint, which validation puts last, is what ends
    up under "end_tangent". *)
Theorem get_tangents_without_arc (h : H) (first : SketchElement)
    (others : list SketchElement) :
  Forall (not_arc h) (first :: others) ->
  exists d,
    _get_tangents (first :: others) h = (inr d, h, []) /\
    d !! "arc" = Some None_ /\
    d !! "start_tangent" = Some (Elem first) /\
    d !! "end_tangent" = Some (optional (last others)) /\
    d !! "constraint" = Some None_ /\
    dom d = {[ "arc"; "start_tangent"; "end_tangent"; "constraint" ]}.
Proof.
  intros Hall. eexists. split; [by apply get_tangents_without_arc_run |].
  unfold no_tangents.
  split; [by rewrite !lookup_insert_ne, lookup_insert_eq by done |].
  split; [by rewrite lookup_insert_ne, lookup_insert_eq by done |].
  split; [by rewrite lookup_insert_eq |].
  split; [by rewrite !lookup_insert_ne, lookup_insert_eq by done |].
  rewrite !dom_insert_L, dom_empty_L. set_solver.
Qed.

End Tangents.

Section Completion.
Context {H : Type} `{Host H}.

Lemma get_arc_parameters_no_arc (d : gmap string value) (vertex_index : Z) (h : H) :
  d !! "arc" = Some None_ ->
  _get_arc_parameters d vertex_index h
  = (inl (AttributeError "NoneType" "get_points"), h, []).
Proof.
  intros Hd. unfold _get_arc_parameters. rewrite bind_gets. unfold getitem.
  by rewrite Hd, bind_lift_inr.
Qed.

Lemma place_new_arc_no_arc (d : gmap string value) (vertex_index : Z) (h : H) :
  d !! "arc" = Some None_ ->
  place_new_arc d vertex_index h
  = (inl (AttributeError "NoneType" "get_points"), h, []).
Proof.
  intros Hd. unfold place_new_arc, bind.
  by rewrite (get_arc_parameters_no_arc d vertex_index h Hd).
Qed.

Lemma is_line_not_arc (h : H) (e : SketchElement) : is_line h e = true -> not_arc h e.
Proof.
  unfold is_line, not_arc. intros Hline%bool_decide_eq_true. by rewrite Hline.
Qed.

(** X5. Placing a curve between two back tangents never works: when every
    selected element is a line segment and validation accepts the
    selection, the dictionary holds no arc, and [Activated] ends in
    AttributeError at [geo_dict["arc"].get_points()], having made no
    host call after validation and with the sketch as it found it. *)
Theorem Activated_two_back_tangents (h : H) (sel : list SketchElement) :
  is_empty (Gui_getSelection h) = false ->
  result (_validate_selection h) = inr (Some sel) ->
  Forall (fun e => is_line h e = true) (GeoUtils_get_selection h) ->
  result (Activated h) = inl (AttributeError "NoneType" "get_points") /\
  final (Activated h) = h /\
  trace (Activated h) = trace (_validate_selection h).
Proof.
  intros Hne Hsel Hlines.
  assert (Forall (not_arc h) sel /\ sel <> []) as [Hall Hnonempty].
  { rewrite validate_selection_run in Hsel. cbv zeta in Hsel.
    destruct (result (_validate_selection_geometry _ h)) as [e|[|]]; [done | | done].
    destruct (result (_validate_selection_constraints _ h)) as [e|[|c cs]]; [done | done |].
    destruct (binding_constraint h _ (c :: cs)) as [e|[|b bs]] eqn:Hb; [done | done |].
    injection Hsel as <-. split; [| by destruct (GeoUtils_get_selection h)].
    apply Forall_app. split.
    - eapply Forall_impl; [exact Hlines |]. apply is_line_not_arc.
    - by apply (binding_constraint_not_arc h (GeoUtils_get_selection h) (c :: cs)). }
  destruct sel as [|first others]; [done |].
  pose proof (get_tangents_without_arc_run h first others Hall) as Htangents.
  destruct (quiet_validate_selection h) as [Hf1 _].
  pose proof (outcome_eta (_validate_selection h)) as E1. rewrite Hsel, Hf1 in E1.
  unfold Activated. rewrite bind_gets, Hne.
  rewrite (bind_outcome _ _ _ _ _ _ E1). cbv beta iota.
  rewrite (bind_outcome _ _ _ _ _ _ Htangents).
  match goal with
  | |- context [bind (lift (getitem ?d "arc")) ?k h] =>
      assert (bind (lift (getitem d "arc")) k h
              = (inl (AttributeError "NoneType" "get_points"), h, [])) as ->
  end.
  { unfold getitem.
    assert ((<["end_tangent" := optional (last others)]>
               (<["start_tangent" := Elem first]> no_tangents)) !! "arc" = Some None_) as Harc.
    { unfold no_tangents. by rewrite !lookup_insert_ne, lookup_insert_eq by done. }
    rewrite Harc, bind_lift_inr. cbn [is_None negb]. rewrite bind_ret.
    by apply place_new_arc_no_arc. }
  unfold result, final, trace. simpl. by rewrite app_nil_r.
Qed.

(** The arc branch either ends without a host call, or ends with the
    dialog alone, or goes on, with a vertex index that is not negative,
    to make room for the new arc. *)
Lemma adjust_existing_arc_branches (d : gmap string value) (arc : SketchElement) (h : H) :
  keyed d ->
  (exists r, adjust_existing_arc d (Elem arc) h = (r, h, []) /\
             (r = inr None \/ exists e, r = inl e)) \/
  adjust_existing_arc d (Elem arc) h = (inr None, h, [invalid_constraint_dialog]) \/
  (exists d1 v, keyed d1 /\ 0 <= v /\
                adjust_existing_arc d (Elem arc) h = make_room d1 v h).
Proof.
  intros Hd. unfold adjust_existing_arc.
  destruct (getitem d "end_tangent") as [e|et]; [left; eauto |].
  rewrite bind_lift_inr. destruct (is_None et); [left; eauto |].
  rewrite bind_gets. unfold id. simpl container. rewrite bind_lift_inr.
  destruct (getitem d "start_tangent") as [e|st]; [left; eauto |].
  rewrite bind_lift_inr.
  destruct (container st "index") as [e|st']; [left; eauto |].
  rewrite bind_lift_inr.
  assert (getitem (<["constraint" := get_binding_constraint h arc (index st')]> d) "constraint"
          = inr (get_binding_constraint h arc (index st'))) as ->
    by (unfold getitem; by rewrite lookup_insert_eq).
  rewrite bind_lift_inr.
  pose proof (get_constrained_vertex_run (get_binding_constraint h arc (index st')) h) as Hrun.
  destruct (constraint_of h _ "FirstPos") as [e|k].
  - left. exists (inl e). split; [| eauto]. unfold bind. by rewrite Hrun.
  - rewrite (bind_outcome _ _ _ _ _ _ Hrun). simpl app.
    destruct (Z.ltb_spec (constrained_vertex k) 0) as [Hneg|Hpos].
    + right. left. reflexivity.
    + right. right. eexists _, _. split; [| split; [exact Hpos | by rewrite <- outcome_eta]].
      by apply keyed_insert.
Qed.

(** Once room has been made, the placement does not return. *)
Lemma make_room_then_place_raises (d : gmap string value) (vertex_index : Z) (h : H) :
  keyed d -> 0 <= vertex_index ->
  exists e,
    result (bind (make_room d vertex_index)
              (fun prepared : option (gmap string value * Z) =>
                 match prepared with
                 | Some (geo_dict, vertex_index) => place_new_arc geo_dict vertex_index
                 | None => ret tt
                 end) h) = inl e.
Proof.
  intros Hd Hv. apply post_False_raises. unfold post. rewrite result_bind.
  pose proof (make_room_keyed d vertex_index h Hd) as Hroom. unfold post in Hroom.
  destruct (result (make_room d vertex_index h)) as [e|prepared]; [done |].
  destruct Hroom as (d' & -> & Hd').
  apply place_new_arc_never_returns; [done | lia].
Qed.

(** X1. [Activated] returns normally only when it has changed nothing:
    on every run that ends without an exception the sketch is as the
    command found it and no host call of the run is a mutation.  Every
    run that mutates the sketch ends in an exception. *)
Theorem Activated_returns_only_unchanged (h : H) :
  result (Activated h) = inr tt ->
  final (Activated h) = h /\ no_mutation (trace (Activated h)).
Proof.
  unfold Activated. rewrite bind_gets.
  destruct (is_empty (Gui_getSelection h)); [intros _; split; [done | by repeat constructor] |].
  rewrite result_bind, final_bind, trace_bind.
  destruct (quiet_validate_selection h) as [Hf1 Ht1].
  destruct (result (_validate_selection h)) as [e|[sel|]] eqn:Hr1;
    [done | | intros _; by rewrite app_nil_r].
  rewrite Hf1, result_bind, final_bind, trace_bind.
  destruct (silent_get_tangents sel h) as [Hf2 Ht2]. rewrite Hf2, Ht2.
  destruct (result (_get_tangents sel h)) as [e|d] eqn:Hr2; [done |].
  assert (keyed d) as Hd by (by apply (post_elim _ _ _ _ (get_tangents_keyed sel h))).
  simpl app. destruct (getitem d "arc") as [e|arc] eqn:Harc; [done |].
  rewrite bind_lift_inr.
  destruct (container arc "get_binding_constraint") as [e|a] eqn:Hcontainer.
  - destruct (is_None arc) eqn:Hnone; simpl negb; cbv iota.
    + rewrite bind_ret, place_new_arc_no_arc; [done |].
      destruct arc; try done. unfold getitem in Harc.
      by destruct (d !! "arc") as [v|]; [injection Harc as -> |].
    + destruct (adjust_existing_arc_no_container d arc h e Hcontainer) as (r & Hrun & Hr).
      destruct Hr as [-> | [e' ->]]; unfold bind; rewrite Hrun; simpl; [| done].
      intros _. by rewrite app_nil_r.
  - destruct arc; try done. injection Hcontainer as ->. simpl negb. cbv iota.
    destruct (adjust_existing_arc_branches d a h Hd)
      as [(r & Hrun & Hr) | [Hrun | (d1 & v & Hd1 & Hv & Hrun)]].
    + destruct Hr as [-> | [e' ->]]; unfold bind; rewrite Hrun; simpl; [| done].
      intros _. by rewrite app_nil_r.
    + unfold bind. rewrite Hrun. simpl. intros _. split; [done |].
      apply Forall_app. split; [done | by repeat constructor].
    + destruct (make_room_then_place_raises d1 v h Hd1 Hv) as [e He].
      unfold bind in He |- *. rewrite Hrun. by rewrite He.
Qed.

Ltac emits_step :=
  lazymatch goal with
  | |- emits _ (bind (gets _) _) =>
      apply emits_bind; [apply emits_silent, silent_gets | intros ? ? _]
  | |- emits _ (bind (lift _) _) =>
      apply emits_bind; [apply emits_silent, silent_lift | intros ? ? _]
  | |- emits _ (bind (_notify_error _) _) =>
      apply emits_bind; [| intros ? ? _]
  | |- emits _ (bind (report_attached_arc _) _) =>
      apply emits_bind; [| intros ? ? _]
  | |- emits _ (ret _) => apply emits_silent, silent_ret
  | |- emits _ (raise _) => apply emits_silent, silent_raise
  | |- emits _ (lift _) => apply emits_silent, silent_lift
  | |- emits _ (if ?b then _ else _) => destruct b
  | |- emits _ (match ?x with _ => _ end) => destruct x
  end.

Lemma known_not_critical (ev : event) : is_critical ev = false -> known_dialog ev.
Proof. by destruct ev. Qed.

Lemma emits_known_notify (error_type : string) :
  String.append error_type " Error" ∈ validation_titles ->
  emits known_dialog (_notify_error error_type : M H unit).
Proof. intros Hin h. apply Forall_cons_2; [exact Hin | constructor]. Qed.

Lemma emits_known_report_attached_arc (items : list SketchElement) :
  emits known_dialog (report_attached_arc items : M H unit).
Proof.
  induction items as [|item rest IH]; simpl; [emits_step |].
  destruct (bool_decide _); [| done].
  apply emits_known_notify. set_solver.
Qed.

Lemma emits_known_validate_selection :
  emits known_dialog (_validate_selection : M H _).
Proof.
  unfold _validate_selection. emits_step.
  apply emits_bind.
  { unfold _validate_selection_geometry.
    repeat first [apply emits_known_report_attached_arc
                 | apply emits_known_notify; set_solver
                 | emits_step]. }
  intros ? ? _.
  repeat first [apply emits_known_notify; set_solver
               | apply emits_silent, silent_validate_selection_constraints
               | apply emits_silent, silent_validate_selection_bindings
               | apply emits_bind; [| intros ? ? _]
               | emits_step].
Qed.

Lemma emits_known_adjust_existing_arc (d : gmap string value) (arc : value) :
  emits known_dialog (adjust_existing_arc d arc : M H _).
Proof.
  unfold adjust_existing_arc. repeat emits_step.
  apply emits_bind.
  { apply emits_mute; [apply known_not_critical |].
    apply silent_mute. unfold _get_constrained_vertex.
    apply silent_bind; [apply silent_gets | intros ?].
    apply silent_bind; [apply silent_lift | intros ?]. apply silent_ret. }
  intros ? vertex_index _. destruct (vertex_index <? 0).
  - emits_step; [apply emits_known_notify; set_solver | emits_step].
  - apply emits_mute; [apply known_not_critical | apply mute_make_room].
Qed.

Lemma adjust_existing_arc_keyed (d : gmap string value) (arc : value) (h : H) :
  keyed d ->
  post (adjust_existing_arc d arc) h
    (fun prepared => forall d' v, prepared = Some (d', v) -> keyed d').
Proof.
  intros Hd. unfold post.
  destruct (container arc "get_binding_constraint") as [e|a] eqn:Hcontainer.
  - destruct (adjust_existing_arc_no_container d arc h e Hcontainer) as (r & -> & Hr).
    by destruct Hr as [-> | [e' ->]].
  - destruct arc; try done. injection Hcontainer as ->.
    destruct (adjust_existing_arc_branches d a h Hd)
      as [(r & -> & Hr) | [-> | (d1 & v & Hd1 & Hv & ->)]];
      [by destruct Hr as [-> | [e' ->]] | done |].
    pose proof (make_room_keyed d1 v h Hd1) as Hroom. unfold post in Hroom.
    destruct (result (make_room d1 v h)) as [e|prepared]; [done |].
    destruct Hroom as (d' & -> & Hd'). by intros ? ? [= <- _].
Qed.

(** X4. The only critical dialogs [Activated] ever shows are the four of
    the selection checks, "Selection", "Attached Geometry", "Invalid
    Geometry" and "Invalid Constraint": the "No Arc" dialog of
    [_get_line_segments], the "Not Coincident" text and the
    "UNDEFINED ERROR" text are out of its reach. *)
Theorem Activated_dialog_titles (h : H) :
  Forall known_dialog (trace (Activated h)).
Proof.
  revert h. change (emits known_dialog (Activated : M H unit)).
  unfold Activated. emits_step. destruct (is_empty a).
  { apply emits_known_notify. set_solver. }
  apply emits_bind; [apply emits_known_validate_selection |].
  intros _ [sel|] _; [| emits_step].
  apply emits_bind; [apply emits_silent, silent_get_tangents |].
  intros h d Hd.
  assert (keyed d) as Hkeyed by (by apply (post_elim _ _ _ _ (get_tangents_keyed sel h))).
  emits_step. apply emits_bind.
  - destruct (negb (is_None a0)); [apply emits_known_adjust_existing_arc | emits_step].
  - intros h' prepared Hprepared.
    assert (forall d' v, prepared = Some (d', v) -> keyed d') as Hprep.
    { destruct (negb (is_None a0)).
      - by apply (post_elim _ _ _ _ (adjust_existing_arc_keyed d a0 h' Hkeyed)).
      - injection Hprepared as <-. by intros ? ? [= <- _]. }
    destruct prepared as [[d' v]|]; [| emits_step].
    apply emits_mute; [apply known_not_critical |].
    apply mute_place_new_arc. by apply (Hprep d' v).
Qed.

End Completion.

Section Pieces.
Context {H : Type} `{Host H}.

(** X19. [_reconstrain] never builds a constraint: it makes no host call
    and leaves the sketch alone, and it returns only when the dictionary
    has no key "arc" or the vertex index is -1; with the key and any
    other index it raises. *)
Theorem reconstrain_builds_nothing (d : gmap string value) (vertex_index : Z) (h : H) :
  final (_reconstrain d vertex_index h) = h /\
  trace (_reconstrain d vertex_index h) = [] /\
  (result (_reconstrain d vertex_index h) = inr tt ->
   d !! "arc" = None \/ vertex_index = -1) /\
  (is_Some (d !! "arc") -> vertex_index <> -1 ->
   exists e, result (_reconstrain d vertex_index h) = inl e).
Proof.
  unfold _reconstrain, has_key, getitem.
  destruct (d !! "arc") as [arc|] eqn:Harc.
  - rewrite bool_decide_eq_true_2 by eauto. rewrite bind_lift_inr.
    destruct (Z.eqb_spec vertex_index (-1)) as [Hv|Hv].
    + repeat split; auto. done.
    + destruct (d !! "new_arc") as [new_arc|].
      * rewrite bind_lift_inr. destruct arc; repeat split; try done; eauto.
      * repeat split; try done; eauto.
  - rewrite bool_decide_eq_false_2 by (by intros [? ?]).
    repeat split; auto. by intros [? ?].
Qed.

Lemma delete_attached_run (attached : list SketchElement) (d : gmap string value) (h : H) :
  delete_attached attached d h
  = (inr (match last (List.filter is_geometry attached) with
          | Some a => <["adjacent" := Elem a]> d
          | None => d
          end),
     fold_left (fun h a => sketch_delConstraint h (index a)) attached h,
     map (fun a => delConstraint (index a)) attached).
Proof.
  revert d h. induction attached as [|a rest IH]; intros d h; [done |].
  cbn [delete_attached]. rewrite bind_effect, IH. unfold result, final, trace. simpl.
  unfold is_geometry at 2. destruct (negb (bool_decide (type a = Sketcher_Constraint))); [| done].
  rewrite last_cons.
  destruct (last (List.filter is_geometry rest)); [by rewrite insert_insert_eq | done].
Qed.

(** The calls of [_delete_constraints] and the dictionary it returns,
    with every host call answering. *)
Lemma delete_constraints_run (d : gmap string value) (vertex_index : Z) (h : H) :
  match result (_delete_constraints d vertex_index h) with
  | inr d' =>
      exists arc arc_vertex,
        d !! "arc" = Some (Elem arc) /\
        subscript (get_points h arc) vertex_index = inr arc_vertex /\
        trace (_delete_constraints d vertex_index h)
        = map (fun a => delConstraint (index a)) (match_by_vertex h arc arc_vertex)
          ++ [recompute] /\
        d' = match last (List.filter is_geometry (match_by_vertex h arc arc_vertex)) with
             | Some a => <["adjacent" := Elem a]> d
             | None => d
             end
  | inl _ =>
      trace (_delete_constraints d vertex_index h) = [] /\
      final (_delete_constraints d vertex_index h) = h
  end.
Proof.
  unfold _delete_constraints, getitem. rewrite bind_gets. unfold id.
  destruct (d !! "arc") as [[|arc| |]|] eqn:Harc; try done.
  rewrite !bind_lift_inr. simpl container. rewrite bind_lift_inr.
  destruct (subscript (get_points h arc) vertex_index) as [e|arc_vertex] eqn:Hvertex; [done |].
  rewrite bind_lift_inr.
  rewrite (bind_outcome _ _ _ _ _ _ (delete_attached_run _ d h)).
  unfold recompute_document. rewrite bind_effect. unfold result, final, trace. simpl.
  by exists arc, arc_vertex.
Qed.

(** X14. When [_delete_constraints] returns it has called [delConstraint]
    once for every element attached to the arc's vertex, in order,
    constraint or not, each with the element's own index, and then
    recomputed once; the dictionary it returns is the one it was given
    with the last attached element that is not a constraint, if there is
    one, under "adjacent".  When the dictionary holds no container under
    "arc" it raises before any host call. *)
Theorem delete_constraints_calls (d : gmap string value) (vertex_index : Z) (h : H) :
  (forall d', result (_delete_constraints d vertex_index h) = inr d' ->
     exists arc arc_vertex,
       d !! "arc" = Some (Elem arc) /\
       subscript (get_points h arc) vertex_index = inr arc_vertex /\
       trace (_delete_constraints d vertex_index h)
       = map (fun a => delConstraint (index a)) (match_by_vertex h arc arc_vertex)
         ++ [recompute] /\
       d' = match last (List.filter is_geometry (match_by_vertex h arc arc_vertex)) with
            | Some a => <["adjacent" := Elem a]> d
            | None => d
            end) /\
  ((forall arc, d !! "arc" <> Some (Elem arc)) ->
     exists e, _delete_constraints d vertex_index h = (inl e, h, [])).
Proof.
  pose proof (delete_constraints_run d vertex_index h) as Hrun.
  split.
  - intros d' Hd'. by rewrite Hd' in Hrun.
  - intros Hnone. rewrite (outcome_eta (_delete_constraints d vertex_index h)).
    destruct (result (_delete_constraints d vertex_index h)) as [e|d'].
    + destruct Hrun as [-> ->]. by exists e.
    + destruct Hrun as (arc & _ & Harc & _). by destruct (Hnone arc).
Qed.

(** [_adjust_curve] moves one point and recomputes, or does nothing. *)
Lemma adjust_curve_run (d : gmap string value) (vertex_index : Z) (factor : float) (h : H) :
  match result (_adjust_curve d vertex_index factor h) with
  | inr d' =>
      d' = d /\
      exists arc, d !! "arc" = Some (Elem arc) /\
        trace (_adjust_curve d vertex_index factor h)
        = [movePoint (index arc) (vertex_index + 1); recompute]
  | inl _ =>
      (d !! "arc" = None \/ exists v, d !! "arc" = Some v /\ forall arc, v <> Elem arc) /\
      trace (_adjust_curve d vertex_index factor h) = [] /\
      final (_adjust_curve d vertex_index factor h) = h
  end.
Proof.
  unfold _adjust_curve, getitem. rewrite bind_gets. unfold id.
  destruct (d !! "arc") as [[|arc| |]|] eqn:Harc;
    try (split; [right; eexists; split; [done | done] | done]);
    try (split; [by left | done]).
  rewrite !bind_lift_inr. simpl container. rewrite bind_lift_inr.
  unfold recompute_document. rewrite !bind_effect. unfold result, final, trace. simpl.
  split; [done |]. by exists arc.
Qed.

(** With every host call answering, [_generate_new_back_tangent] raises
    before its first host call or makes all of them. *)
Lemma generate_new_back_tangent_run (d : gmap string value)
    (vertex_index : Z) (h : H) :
  match result (_generate_new_back_tangent d vertex_index h) with
  | inr new_tangent =>
      trace (_generate_new_back_tangent d vertex_index h) = new_back_tangent_calls /\
      exists e, new_tangent = Elem e
  | inl _ =>
      trace (_generate_new_back_tangent d vertex_index h) = [] /\
      final (_generate_new_back_tangent d vertex_index h) = h
  end.
Proof.
  unfold _generate_new_back_tangent. rewrite bind_gets. unfold id.
  destruct (getitem d "arc") as [e|arc]; [done |]. rewrite bind_lift_inr.
  destruct (getitem d "start_tangent") as [e|st]; [done |]. rewrite bind_lift_inr.
  destruct (getitem d "end_tangent") as [e|et]; [done |]. rewrite bind_lift_inr.
  destruct (container arc "as_arc2d") as [e|arc']; [done |]. rewrite bind_lift_inr.
  destruct (subscript (parameters (as_arc2d h arc')) vertex_index) as [e|parameter]; [done |].
  rewrite bind_lift_inr.
  destruct (subscript (arc_tangent h arc' parameter) 0) as [e|tan_vec]; [done |].
  rewrite bind_lift_inr.
  destruct (subscript (get_points h arc') vertex_index) as [e|arc_point]; [done |].
  rewrite bind_lift_inr.
  destruct st as [|st| |]; try done. simpl container at 1. rewrite bind_lift_inr.
  destruct et as [|et| |]; try done. simpl container at 1. rewrite bind_lift_inr.
  unfold recompute_document, point_on_object. simpl container.
  rewrite bind_request, bind_effect.
  unfold result, final, trace. simpl. split; [done | eauto].
Qed.

(** [_generate_new_back_tangent] returns only for a dictionary that
    holds containers under "arc", "start_tangent" and "end_tangent". *)
Lemma generate_new_back_tangent_reads (d : gmap string value) (vertex_index : Z) (h : H)
    (new_tangent : value) :
  result (_generate_new_back_tangent d vertex_index h) = inr new_tangent ->
  exists arc st et,
    d !! "arc" = Some (Elem arc) /\
    d !! "start_tangent" = Some (Elem st) /\
    d !! "end_tangent" = Some (Elem et).
Proof.
  unfold _generate_new_back_tangent, getitem. rewrite bind_gets. unfold id.
  destruct (d !! "arc") as [arc|]; [| done]. rewrite bind_lift_inr.
  destruct (d !! "start_tangent") as [st|]; [| done]. rewrite bind_lift_inr.
  destruct (d !! "end_tangent") as [et|]; [| done]. rewrite bind_lift_inr.
  destruct arc as [|arc| |]; try done. simpl container at 1. rewrite bind_lift_inr.
  destruct (subscript (parameters (as_arc2d h arc)) vertex_index) as [e|parameter]; [done |].
  rewrite bind_lift_inr.
  destruct (subscript (arc_tangent h arc parameter) 0) as [e|tan_vec]; [done |].
  rewrite bind_lift_inr.
  destruct (subscript (get_points h arc) vertex_index) as [e|arc_point]; [done |].
  rewrite bind_lift_inr.
  destruct st as [|st| |]; try done. simpl container at 1. rewrite bind_lift_inr.
  destruct et as [|et| |]; try done. intros _. by exists arc, st, et.
Qed.

(** X15. When [_generate_new_back_tangent] returns it has made exactly
    these host calls, in this order: it has added one construction
    line, bound both ends of it to the two tangents by point-on-object
    constraints, and bound the arc to it by a tangent constraint, with a
    recompute after each of the three steps.  What it returns is a
    container, never [None], and it returns only for a dictionary that
    holds containers under "arc", "start_tangent" and "end_tangent". *)
Theorem generate_new_back_tangent_calls (d : gmap string value)
    (vertex_index : Z) (h : H) (new_tangent : value) :
  result (_generate_new_back_tangent d vertex_index h) = inr new_tangent ->
  trace (_generate_new_back_tangent d vertex_index h) = new_back_tangent_calls /\
  (exists e, new_tangent = Elem e) /\
  (exists arc st et,
     d !! "arc" = Some (Elem arc) /\
     d !! "start_tangent" = Some (Elem st) /\
     d !! "end_tangent" = Some (Elem et)).
Proof.
  intros Hr. pose proof (generate_new_back_tangent_run d vertex_index h) as Hrun.
  rewrite Hr in Hrun. destruct Hrun as [Htrace Helem].
  split; [done |]. split; [done |]. by eapply generate_new_back_tangent_reads.
Qed.

(** The runs of [make_room], with every host call answering: a run
    that returns has made the calls of the three steps in order; a run
    that raises has made none, or those of the first two steps. *)
Lemma make_room_run (d : gmap string value) (vertex_index : Z) (h : H) :
  match result (make_room d vertex_index h) with
  | inr prepared =>
      exists d' arc arc_vertex new_tangent,
        prepared = Some (d', vertex_index) /\
        d !! "arc" = Some (Elem arc) /\
        subscript (get_points h arc) vertex_index = inr arc_vertex /\
        trace (make_room d vertex_index h)
        = map (fun a => delConstraint (index a)) (match_by_vertex h arc arc_vertex)
          ++ [recompute; movePoint (index arc) (vertex_index + 1); recompute]
          ++ new_back_tangent_calls /\
        d' !! "new_tangent" = Some (Elem new_tangent) /\
        d' !! "end_tangent" = Some (Elem new_tangent)
  | inl _ =>
      (trace (make_room d vertex_index h) = [] /\ final (make_room d vertex_index h) = h) \/
      (exists arc arc_vertex,
         d !! "arc" = Some (Elem arc) /\
         subscript (get_points h arc) vertex_index = inr arc_vertex /\
         trace (make_room d vertex_index h)
         = map (fun a => delConstraint (index a)) (match_by_vertex h arc arc_vertex)
           ++ [recompute; movePoint (index arc) (vertex_index + 1); recompute])
  end.
Proof.
  unfold make_room. rewrite result_bind, trace_bind, final_bind.
  pose proof (delete_constraints_run d vertex_index h) as Hdel.
  set (h1 := final (_delete_constraints d vertex_index h)) in *.
  destruct (result (_delete_constraints d vertex_index h)) as [e|d1]; [by left |].
  destruct Hdel as (arc & arc_vertex & Harc & Hvertex & -> & Hd1).
  assert (d1 !! "arc" = Some (Elem arc)) as Harc1.
  { rewrite Hd1. destruct (last _); [by rewrite lookup_insert_ne | done]. }
  clear Hd1. rewrite result_bind, trace_bind, final_bind.
  pose proof (adjust_curve_run d1 vertex_index F.quarter h1) as Hadj.
  set (h2 := final (_adjust_curve d1 vertex_index F.quarter h1)) in *.
  destruct (result (_adjust_curve d1 vertex_index F.quarter h1)) as [e|d2].
  { destruct Hadj as [[Hnone | (v & Hv & Hnot)] _]; [by rewrite Hnone in Harc1 |].
    rewrite Hv in Harc1. injection Harc1 as ->. by destruct (Hnot arc). }
  destruct Hadj as (-> & arc' & Harc' & ->).
  rewrite Harc' in Harc1. injection Harc1 as ->.
  rewrite result_bind, trace_bind, final_bind.
  pose proof (generate_new_back_tangent_run d1 vertex_index h2) as Hnew.
  destruct (result (_generate_new_back_tangent d1 vertex_index h2)) as [e|new_tangent].
  { destruct Hnew as [-> _]. right. exists arc, arc_vertex.
    repeat split; [done | done |]. by rewrite app_nil_r, <- app_assoc. }
  destruct Hnew as (-> & e & ->).
  unfold getitem. rewrite lookup_insert_eq, bind_lift_inr.
  unfold result, trace. simpl snd. simpl fst.
  exists (<["end_tangent" := Elem e]> (<["new_tangent" := Elem e]> d1)), arc, arc_vertex, e.
  split; [done |]. split; [done |]. split; [done |].
  split; [by rewrite app_nil_r, <- !app_assoc |].
  split; [by rewrite lookup_insert_ne, lookup_insert_eq | by rewrite lookup_insert_eq].
Qed.


(** X17. [_get_line_segments] leaves the sketch alone and, when it returns
    lines, returns exactly two of them, so the two subscripts of its
    caller are in range; the dictionary comes back as it was given or
    with the point of intersection stored under "p_i".  It returns
    [None], after the "No Arc" dialog, only for a dictionary without the
    key "arc". *)
Theorem get_line_segments_two_lines (d : gmap string value) (arc_vertex : Vector.t) (h : H) :
  final (_get_line_segments d arc_vertex h) = h /\
  match result (_get_line_segments d arc_vertex h) with
  | inr (Some lines, d') =>
      length lines = 2%nat /\
      trace (_get_line_segments d arc_vertex h) = [] /\
      (d' = d \/ exists p_i, d' = <["p_i" := Point p_i]> d)
  | inr (None, d') =>
      d' = d /\ d !! "arc" = None /\
      trace (_get_line_segments d arc_vertex h)
      = [critical "No Arc Error" "Expected an arc to be selected."]
  | inl _ => trace (_get_line_segments d arc_vertex h) = []
  end.
Proof.
  unfold _get_line_segments. rewrite bind_gets. unfold id.
  destruct (getitem d "start_tangent") as [e|t0]; [done |]. rewrite bind_lift_inr.
  destruct (getitem d "end_tangent") as [e|t1]; [done |]. rewrite bind_lift_inr.
  destruct (container t0 "is_coincident") as [e|tangent0]; [done |]. rewrite bind_lift_inr.
  destruct (container t1 "index") as [e|tangent1]; [done |]. rewrite bind_lift_inr.
  destruct (is_coincident h tangent0 (index tangent1)).
  { split; [done |]. simpl. auto. }
  unfold has_key. destruct (d !! "arc") as [arc|] eqn:Harc.
  - rewrite bool_decide_eq_true_2 by eauto. cbn [negb].
    unfold getitem. rewrite lookup_insert_ne by done. rewrite Harc, bind_lift_inr.
    destruct (container arc "get_element") as [e|arc']; [done |]. rewrite bind_lift_inr.
    split; [done |]. simpl. eauto.
  - rewrite bool_decide_eq_false_2 by (by intros [? ?]). cbn [negb].
    split; [done |]. simpl. auto.
Qed.

(** X18. When the two tangents share an end point [_get_line_segments]
    returns their lines without storing a point of intersection, and
    [_get_arc_parameters], which reads [geo_dict["p_i"]] in every case,
    raises KeyError after printing the arc vertex. *)
Theorem get_arc_parameters_coincident_tangents (d : gmap string value) (vertex_index : Z)
    (h : H) (arc st et : SketchElement) (arc_vertex : Vector.t) :
  d !! "arc" = Some (Elem arc) ->
  subscript (get_points h arc) vertex_index = inr arc_vertex ->
  d !! "start_tangent" = Some (Elem st) ->
  d !! "end_tangent" = Some (Elem et) ->
  is_coincident h st (index et) = true ->
  d !! "p_i" = None ->
  _get_line_segments d arc_vertex h
  = (inr (Some [as_line2d h st; as_line2d h et], d), h, []) /\
  _get_arc_parameters d vertex_index h
  = (inl (KeyError "p_i"), h,
     [print (String.append "arc vertex: " (Vector_str arc_vertex))]).
Proof.
  intros Harc Hvertex Hst Het Hco Hpi.
  assert (_get_line_segments d arc_vertex h
          = (inr (Some [as_line2d h st; as_line2d h et], d), h, [])) as Hlines.
  { unfold _get_line_segments, getitem. rewrite bind_gets, Hst, Het. unfold id.
    rewrite !bind_lift_inr. simpl container. rewrite !bind_lift_inr. by rewrite Hco. }
  split; [done |].
  unfold _get_arc_parameters, getitem. rewrite bind_gets, Harc. unfold id.
  rewrite bind_lift_inr. simpl container. rewrite bind_lift_inr, Hvertex, bind_lift_inr.
  rewrite bind_emit. rewrite (bind_outcome _ _ _ _ _ _ Hlines).
  cbv beta iota. unfold subscript_lines. rewrite subscript_0, subscript_1.
  rewrite !bind_lift_inr, Hpi. reflexivity.
Qed.

End Pieces.

Section Silence.
Context {H : Type} `{Host H}.

Lemma sort_selected_tangents_set (h : H) (d d' : gmap string value) (sel : SketchElement) :
  tangents_set d -> sort_selected h d sel = inr d' -> tangents_set d'.
Proof.
  intros [[st Hst] [et Het]]. unfold sort_selected, getitem.
  destruct (bool_decide _).
  - intros [= <-]. split; rewrite lookup_insert_ne by done; eauto.
  - rewrite Hst. cbn [is_None]. intros [= <-]. split.
    + rewrite lookup_insert_ne by done. eauto.
    + rewrite lookup_insert_eq. eauto.
Qed.

Lemma sort_selection_tangents_set (h : H) (selection : list SketchElement)
    (d d' : gmap string value) :
  tangents_set d -> sort_selection h selection d = inr d' -> tangents_set d'.
Proof.
  revert d. induction selection as [|sel rest IH]; intros d Hd; cbn [sort_selection].
  - by intros [= <-].
  - destruct (sort_selected h d sel) as [e|d1] eqn:Hsel; [done |].
    apply IH. by eapply sort_selected_tangents_set.
Qed.

Lemma find_end_tangent_tangents_set (attached_geo : list SketchElement)
    (d d' : gmap string value) :
  tangents_set d -> find_end_tangent attached_geo d = inr d' -> tangents_set d'.
Proof.
  intros Hd. induction attached_geo as [|geo rest IH]; cbn [find_end_tangent].
  - by intros [= <-].
  - destruct (getitem d "start_tangent") as [e|st]; [done |].
    destruct (container st "index") as [e|start_tangent]; [done |].
    destruct (negb _); [| done].
    destruct (bool_decide _); [| done].
    intros [= <-]. destruct Hd as [[st' Hst] _]. split.
    + rewrite lookup_insert_ne by done. eauto.
    + rewrite lookup_insert_eq. eauto.
Qed.

(** Two elements that are not arcs, anywhere among the first three of a
    selection, set both tangents. *)
Lemma sort_selection_two_tangents (h : H) (a b c : SketchElement)
    (rest : list SketchElement) (d : gmap string value) :
  both_arcs (get_element h a) (get_element h b) = false ->
  not_arc h c ->
  sort_selection h (a :: b :: c :: rest) no_tangents = inr d ->
  tangents_set d.
Proof.
  intros Hboth Hc.
  assert (forall x, no_tangents !! "start_tangent" = Some x -> x = None_) as Hstart.
  { unfold no_tangents. rewrite lookup_insert_ne, lookup_insert_eq by done. by intros x [= <-]. }
  assert (no_tangents !! "start_tangent" = Some None_) as Hnone.
  { unfold no_tangents. by rewrite lookup_insert_ne, lookup_insert_eq by done. }
  cbn [sort_selection]. unfold sort_selected at 1 2 3, getitem.
  unfold not_arc in Hc.
  destruct (get_element h a) as [ca| | |] eqn:Ha;
    destruct (get_element h b) as [cb| | |] eqn:Hb; try done;
    cbn [type_of]; rewrite ?bool_decide_eq_true_2 by done;
    rewrite ?(bool_decide_eq_false_2 (Part_LineSegment = Part_ArcOfCircle)) by done;
    rewrite ?(bool_decide_eq_false_2 (Sketcher_Constraint = Part_ArcOfCircle)) by done;
    rewrite ?(bool_decide_eq_false_2 (Other_type = Part_ArcOfCircle)) by done;
    rewrite ?(bool_decide_eq_false_2 (type_of (get_element h c) = Part_ArcOfCircle)) by done;
    rewrite ?Hnone; cbn [is_None];
    repeat first [ rewrite lookup_insert_eq
                 | rewrite lookup_insert_ne by done
                 | rewrite Hnone
                 | progress cbn [is_None] ];
    apply sort_selection_tangents_set;
    (split; repeat first [ rewrite lookup_insert_eq | rewrite lookup_insert_ne by done ];
     eauto).
Qed.

(** After validation has accepted the selection, the dictionary of
    [_get_tangents] holds both tangents. *)
Lemma get_tangents_after_validation (h : H) (sel : list SketchElement)
    (d : gmap string value) :
  result (_validate_selection h) = inr (Some sel) ->
  result (_get_tangents sel h) = inr d ->
  tangents_set d.
Proof.
  intros Hsel. rewrite validate_selection_run in Hsel. cbv zeta in Hsel.
  destruct (result (_validate_selection_geometry _ h)) as [e|[|]] eqn:Hgeo; [done | | done].
  destruct (result (_validate_selection_constraints _ h)) as [e|[|c cs]] eqn:Hcs;
    [done | done |].
  destruct (binding_constraint h _ (c :: cs)) as [e|[|b bs]] eqn:Hb; [done | done |].
  injection Hsel as <-.
  pose proof (binding_constraint_not_arc h (GeoUtils_get_selection h) (c :: cs) _ Hb) as Hnot.
  apply Forall_cons in Hnot as [Hnot _].
  destruct (GeoUtils_get_selection h) as [|x [|y [|z more]]] eqn:Hselection.
  - done.
  - done.
  - rewrite validate_pair in Hgeo. injection Hgeo as Hgeo.
    apply andb_true_iff in Hgeo as [_ Hboth%negb_true_iff].
    unfold _get_tangents. rewrite bind_gets. unfold id. fold no_tangents.
    destruct (sort_selection h _ no_tangents) as [e|d1] eqn:Hsort; [done |].
    pose proof (sort_selection_two_tangents h x y b bs d1 Hboth Hnot Hsort) as Hset.
    rewrite bind_lift_inr.
    destruct (getitem d1 "arc") as [e|arc]; [done |]. rewrite bind_lift_inr.
    destruct (is_None arc); [by intros [= <-] |].
    destruct (container arc "match_attached_geometry") as [e|arc']; [done |].
    rewrite bind_lift_inr. intros Hfind.
    by apply (find_end_tangent_tangents_set (match_attached_geometry h arc') d1).
  - unfold _validate_selection_geometry in Hgeo.
    replace (Z.of_nat (length (x :: y :: z :: more)) =? 0) with false in Hgeo
      by (symmetry; apply Z.eqb_neq; simpl length; lia).
    replace (Z.of_nat (length (x :: y :: z :: more)) =? 2) with false in Hgeo
      by (symmetry; apply Z.eqb_neq; simpl length; lia).
    done.
Qed.

(** With both tangents set, the arc branch returns [None] only by way
    of the "Invalid Constraint" dialog. *)
Lemma adjust_existing_arc_returns_None (d : gmap string value) (arc : value) (h : H) :
  keyed d -> tangents_set d ->
  result (adjust_existing_arc d arc h) = inr None ->
  adjust_existing_arc d arc h = (inr None, h, [invalid_constraint_dialog]).
Proof.
  intros Hd [[st Hst] [et Het]]. unfold adjust_existing_arc, getitem.
  rewrite Het, bind_lift_inr. cbn [is_None]. rewrite bind_gets. unfold id.
  destruct (container arc "get_binding_constraint") as [e|arc']; [done |].
  rewrite bind_lift_inr, Hst, bind_lift_inr. simpl container.
  rewrite bind_lift_inr, lookup_insert_eq, bind_lift_inr.
  pose proof (get_constrained_vertex_run (get_binding_constraint h arc' (index st)) h) as Hrun.
  destruct (constraint_of h _ "FirstPos") as [e|k].
  - unfold bind. by rewrite Hrun.
  - rewrite (bind_outcome _ _ _ _ _ _ Hrun).
    destruct (constrained_vertex k <? 0); [done |].
    unfold result at 1. simpl fst. intros Hroom.
    assert (keyed (<["constraint" := get_binding_constraint h arc' (index st)]> d)) as Hbound
      by (by apply keyed_insert).
    pose proof (make_room_keyed _ (constrained_vertex k) h Hbound) as Hpost.
    unfold post in Hpost. rewrite Hroom in Hpost. by destruct Hpost as (? & ? & _).
Qed.

(** X28. [Activated] never completes an insertion and never returns in
    silence: on every run that ends without an exception the last host
    call is a critical dialog.  The return on lines 66-67, for a
    dictionary without an end tangent, is never taken, because a
    validated selection always sets both tangents. *)
Theorem Activated_returns_only_after_dialog (h : H) :
  result (Activated h) = inr tt ->
  exists shown title message,
    trace (Activated h) = shown ++ [critical title message].
Proof.
  unfold Activated. rewrite bind_gets.
  destruct (is_empty (Gui_getSelection h)); [intros _; by eexists [], _, _ |].
  rewrite result_bind, trace_bind.
  destruct (quiet_validate_selection h) as [Hf1 _].
  pose proof (validate_selection_run h) as Hrun. cbv zeta in Hrun.
  destruct (result (_validate_selection h)) as [e|[sel|]] eqn:Hr1; [done | |].
  2: { intros _. rewrite app_nil_r.
       destruct (result (_validate_selection_geometry _ h)) as [e|[|]];
         [by rewrite Hrun in Hr1 | | rewrite Hrun; by eexists _, _, _].
       destruct (result (_validate_selection_constraints _ h)) as [e|[|c cs]];
         [by rewrite Hrun in Hr1 | rewrite Hrun; by eexists _, _, _ |].
       destruct (binding_constraint h _ (c :: cs)) as [e|[|b bs]];
         [by rewrite Hrun in Hr1 | rewrite Hrun; by eexists _, _, _ | by rewrite Hrun in Hr1]. }
  clear Hrun. rewrite Hf1, result_bind, trace_bind.
  destruct (silent_get_tangents sel h) as [Hf2 Ht2]. rewrite Hf2, Ht2.
  destruct (result (_get_tangents sel h)) as [e|d] eqn:Hr2; [done |].
  assert (keyed d) as Hd by (by apply (post_elim _ _ _ _ (get_tangents_keyed sel h))).
  pose proof (get_tangents_after_validation h sel d Hr1 Hr2) as Hset.
  simpl app. destruct (getitem d "arc") as [e|arc] eqn:Harc; [done |].
  rewrite bind_lift_inr.
  destruct (is_None arc) eqn:Hnone; simpl negb; cbv iota.
  { rewrite bind_ret, place_new_arc_no_arc; [done |].
    destruct arc; try done. unfold getitem in Harc.
    by destruct (d !! "arc") as [v|]; [injection Harc as -> |]. }
  rewrite result_bind, trace_bind.
  pose proof (adjust_existing_arc_returns_None d arc h Hd Hset) as Hsilent.
  pose proof (adjust_existing_arc_keyed d arc h Hd) as Hkeyed. unfold post in Hkeyed.
  destruct (result (adjust_existing_arc d arc h)) as [e|[[d' v]|]] eqn:Hr3; [done | |].
  - intros Hplace. exfalso.
    destruct arc as [|a|p|g]; try done.
    + destruct (adjust_existing_arc_branches d a h Hd)
        as [(r & Hrun & Hr) | [Hrun | (d1 & v1 & Hd1 & Hv & Hrun)]].
      * rewrite Hrun in Hr3. unfold result in Hr3. simpl in Hr3.
        by destruct Hr as [-> | [e' ->]].
      * by rewrite Hrun in Hr3.
      * pose proof (make_room_keyed d1 v1 h Hd1) as Hroom. unfold post in Hroom.
        rewrite <- Hrun, Hr3 in Hroom. destruct Hroom as (d'' & [= <- <-] & Hd'').
        pose proof (place_new_arc_never_returns d' v
                      (final (adjust_existing_arc d (Elem a) h)) Hd'') as Hnever.
        unfold post in Hnever. rewrite Hplace in Hnever. apply Hnever. lia.
    + destruct (adjust_existing_arc_no_container d (Point p) h _ eq_refl) as (r & Hrun & Hr).
      rewrite Hrun in Hr3. unfold result in Hr3. simpl in Hr3.
      by destruct Hr as [-> | [e' ->]].
    + destruct (adjust_existing_arc_no_container d (Geometry g) h _ eq_refl) as (r & Hrun & Hr).
      rewrite Hrun in Hr3. unfold result in Hr3. simpl in Hr3.
      by destruct Hr as [-> | [e' ->]].
  - intros _. rewrite (Hsilent eq_refl). unfold trace at 2 3. simpl snd.
    rewrite app_nil_r. by eexists _, _, _.
Qed.

End Silence.

Lemma validate_selection_rejection_reported_witness :
  last (trace (_validate_selection SketchScenario.unconstrained))
  = Some invalid_geometry_dialog \/
  last (trace (_validate_selection SketchScenario.unconstrained))
  = Some invalid_constraint_dialog.
Proof.
  apply (validate_selection_rejection_reported SketchScenario.unconstrained).
  vm_compute. reflexivity.
Defined.

Lemma Activated_empty_geometry_selection_witness :
  _validate_selection SketchScenario.nothing_picked
  = (inl IndexError, SketchScenario.nothing_picked, []) /\
  Activated SketchScenario.nothing_picked
  = (inl IndexError, SketchScenario.nothing_picked, []).
Proof.
  apply (Activated_empty_geometry_selection SketchScenario.nothing_picked);
    reflexivity.
Defined.

Lemma validate_selection_bindings_first_witness :
  let h := SketchScenario.sketch_with SketchScenario.tangent_at_start in
  let selection := [SketchScenario.line0; SketchScenario.arc1] in
  let constraints := [SketchScenario.constraint0] in
  ([SketchScenario.constraint0] = [] /\
   Forall (fun c => ~ binds h selection c) constraints) \/
  (exists before c after,
     [SketchScenario.constraint0] = [c] /\ constraints = before ++ c :: after /\
     binds h selection c /\ Forall (fun c' => ~ binds h selection c') before).
Proof.
  intros h selection constraints.
  apply (proj2 (validate_selection_bindings_first h selection constraints));
    [discriminate | vm_compute; reflexivity].
Defined.

Lemma get_tangents_without_arc_witness :
  let h := SketchScenario.two_back_tangents in
  exists d,
    _get_tangents [SketchScenario.line0; SketchScenario.line2; SketchScenario.constraint0] h
    = (inr d, h, []) /\
    d !! "arc" = Some None_ /\
    d !! "start_tangent" = Some (Elem SketchScenario.line0) /\
    d !! "end_tangent" = Some (Elem SketchScenario.constraint0) /\
    d !! "constraint" = Some None_ /\
    dom d = {[ "arc"; "start_tangent"; "end_tangent"; "constraint" ]}.
Proof.
  intros h.
  apply (get_tangents_without_arc h SketchScenario.line0
           [SketchScenario.line2; SketchScenario.constraint0]).
  repeat constructor; vm_compute; discriminate.
Defined.

Lemma Activated_two_back_tangents_witness :
  let h := SketchScenario.two_back_tangents in
  result (Activated h) = inl (AttributeError "NoneType" "get_points") /\
  final (Activated h) = h /\
  trace (Activated h) = trace (_validate_selection h).
Proof.
  intros h.
  apply (Activated_two_back_tangents h
           [SketchScenario.line0; SketchScenario.line2; SketchScenario.constraint0]).
  - reflexivity.
  - vm_compute. reflexivity.
  - repeat constructor.
Defined.

Lemma Activated_returns_only_unchanged_witness :
  let h := SketchScenario.unconstrained in
  final (Activated h) = h /\ no_mutation (trace (Activated h)).
Proof.
  intros h. apply (Activated_returns_only_unchanged h). vm_compute. reflexivity.
Defined.

Lemma get_arc_parameters_coincident_tangents_witness :
  let h := SketchScenario.lines_with_attached_arc in
  let d : gmap string value :=
    <["arc" := Elem SketchScenario.arc1]>
      (<["start_tangent" := Elem SketchScenario.line0]>
         (<["end_tangent" := Elem SketchScenario.line2]> ∅)) in
  _get_line_segments d SketchScenario.origin h
  = (inr (Some [as_line2d h SketchScenario.line0; as_line2d h SketchScenario.line2], d), h, []) /\
  _get_arc_parameters d 0 h
  = (inl (KeyError "p_i"), h,
     [print (String.append "arc vertex: " (Vector_str SketchScenario.origin))]).
Proof.
  intros h d.
  apply (get_arc_parameters_coincident_tangents d 0 h SketchScenario.arc1
           SketchScenario.line0 SketchScenario.line2 SketchScenario.origin);
    vm_compute; reflexivity.
Defined.

Lemma Activated_returns_only_after_dialog_witness :
  exists shown title message,
    trace (Activated SketchScenario.unconstrained) = shown ++ [critical title message].
Proof.
  apply (Activated_returns_only_after_dialog SketchScenario.unconstrained).
  vm_compute. reflexivity.
Defined.

Lemma Activated_dialog_no_mutation_witness :
  no_mutation (trace (Activated SketchScenario.lines_with_attached_arc)).
Proof.
  apply (Activated_dialog_no_mutation SketchScenario.lines_with_attached_arc).
  vm_compute. reflexivity.
Defined.

Lemma reconstrain_builds_nothing_witness :
  (∅ : gmap string value) !! "arc" = None \/ 0 = -1.
Proof.
  apply (proj1 (proj2 (proj2 (reconstrain_builds_nothing ∅ 0
                         (SketchScenario.sketch_with SketchScenario.tangent_at_start))))).
  reflexivity.
Defined.

Lemma delete_constraints_calls_witness :
  let h := SketchScenario.sketch_with SketchScenario.tangent_at_start in
  let d : gmap string value := <["arc" := Elem SketchScenario.arc1]> ∅ in
  exists arc arc_vertex,
    d !! "arc" = Some (Elem arc) /\
    subscript (get_points h arc) 0 = inr arc_vertex /\
    trace (_delete_constraints d 0 h)
    = map (fun a => delConstraint (index a)) (match_by_vertex h arc arc_vertex)
      ++ [recompute] /\
    d = match last (List.filter is_geometry (match_by_vertex h arc arc_vertex)) with
        | Some a => <["adjacent" := Elem a]> d
        | None => d
        end.
Proof.
  intros h d. apply (proj1 (delete_constraints_calls d 0 h) d). reflexivity.
Defined.

Lemma generate_new_back_tangent_calls_witness :
  let h := SketchScenario.sketch_with SketchScenario.tangent_at_start in
  let d : gmap string value :=
    <["arc" := Elem SketchScenario.arc1]>
      (<["start_tangent" := Elem SketchScenario.line0]>
         (<["end_tangent" := Elem SketchScenario.line2]> ∅)) in
  trace (_generate_new_back_tangent d 0 h) = new_back_tangent_calls /\
  (exists e, Elem {| index := 3; type := Part_LineSegment |} = Elem e) /\
  (exists arc st et,
     d !! "arc" = Some (Elem arc) /\
     d !! "start_tangent" = Some (Elem st) /\
     d !! "end_tangent" = Some (Elem et)).
Proof.
  intros h d.
  apply (generate_new_back_tangent_calls d 0 h (Elem {| index := 3; type := Part_LineSegment |})).
  reflexivity.
Defined.


End InsertCurveEdges.

(** ** GenerateLoft: the pre-selection and the Lofts group *)

Module GenerateLoftFacts.
Import Py Outcome PyFacts GenerateLoft GenerateLoftSpec.

Lemma accepted_type (obj : Object) :
  ~ other_type obj <-> is_alignment obj || is_template obj = true.
Proof.
  unfold other_type, is_alignment, is_template.
  destruct (String.eqb_spec (TypeId obj) "Part::Part2DObjectPython") as [Ha|Ha];
    destruct (String.eqb_spec (TypeId obj) "Sketcher::SketchObjectPython") as [Ht|Ht];
    simpl; split; try done; tauto.
Qed.

Lemma alignment_not_template (obj : Object) :
  is_alignment obj = true -> is_template obj = false.
Proof.
  unfold is_alignment, is_template.
  intros Ha%String.eqb_eq. by rewrite Ha.
Qed.

Lemma sort_preselected_app (prefix rest align_list template_list : list Object) :
  Forall (fun obj => ~ other_type obj) prefix ->
  sort_preselected (prefix ++ rest) align_list template_list
  = sort_preselected rest (align_list ++ List.filter is_alignment prefix)
      (template_list ++ List.filter is_template prefix).
Proof.
  intros Hall. revert align_list template_list.
  induction Hall as [|obj prefix Hobj _ IH]; intros align_list template_list.
  - simpl. by rewrite !app_nil_r.
  - apply accepted_type in Hobj. simpl. rewrite Hobj. simpl negb. cbv iota.
    destruct (is_alignment obj) eqn:Ha.
    + rewrite (alignment_not_template obj Ha), IH. by rewrite <- app_assoc.
    + simpl in Hobj. rewrite Hobj, IH. by rewrite <- app_assoc.
Qed.

Lemma sort_preselected_other (selection align_list template_list : list Object) :
  Exists other_type selection ->
  sort_preselected selection align_list template_list = None.
Proof.
  intros Hex. revert align_list template_list.
  induction Hex as [obj rest Hobj | obj rest _ IH]; intros align_list template_list; simpl.
  - destruct (is_alignment obj || is_template obj) eqn:Hok; [| done].
    by apply accepted_type in Hok.
  - destruct (is_alignment obj || is_template obj); [| done].
    simpl. destruct (is_alignment obj); apply IH.
Qed.

Section Command.
Context {D : Type} `{Document D}.

(** C6. When some pre-selected object has a TypeId other than
    'Part::Part2DObjectPython' and 'Sketcher::SketchObjectPython',
    [Activated] returns having only built the dialog object and printed
    the message: the dialog is not shown and no loft is created.  The loop
    puts every object it passes of the first TypeId on the alignment list
    and every one of the second on the template list; when all selected
    objects are of the two types these are the lists the dialog is given,
    ahead of the members of the Alignments and Templates folders. *)
Theorem Activated_preselection (d : D) :
  (Exists other_type (Gui_getSelection d) ->
     Activated d = (inr tt, d, [new_dialog; loft_message])) /\
  (forall prefix rest,
     Forall (fun obj => ~ other_type obj) prefix ->
     sort_preselected (prefix ++ rest) [] []
     = sort_preselected rest (List.filter is_alignment prefix)
         (List.filter is_template prefix)) /\
  (Forall (fun obj => ~ other_type obj) (Gui_getSelection d) ->
     exists rest,
       trace (Activated d)
       = new_dialog
         :: call "dialog.set_alignment_list"
              (map Name (List.filter is_alignment (Gui_getSelection d)
                         ++ folder_objects d (getObject d "Alignments")))
         :: call "dialog.set_template_list"
              (map Name (List.filter is_template (Gui_getSelection d)
                         ++ folder_objects d (getObject d "Templates")))
         :: call "dialog.exec_" []
         :: rest).
Proof.
  split; [| split].
  - intros Hex. unfold Activated. rewrite bind_emit, bind_gets.
    by rewrite (sort_preselected_other _ [] [] Hex).
  - intros prefix rest Hall. by rewrite sort_preselected_app.
  - intros Hall. unfold Activated. rewrite bind_emit, bind_gets.
    pose proof (sort_preselected_app (Gui_getSelection d) [] [] [] Hall) as Hsort.
    rewrite app_nil_r in Hsort. simpl in Hsort. rewrite Hsort.
    rewrite bind_gets. unfold id. rewrite !bind_emit, bind_effect.
    unfold trace at 1. simpl. eauto.
Qed.

End Command.

(** *** [_validate_tree] over a host that finds what it has just added *)

Section Tree.
Context {D : Type} `{Document D}.

(** The host contract: a group added while none was found is, from then
    on, the one group found by its type and name; a recompute neither
    adds nor removes groups. *)
Hypothesis found_after_add : forall d : D,
  lofts_groups d = [] -> lofts_groups (fst (add_lofts d)) = [snd (add_lofts d)].
Hypothesis found_after_recompute : forall d : D,
  lofts_groups (doc_recompute d) = lofts_groups d.

Lemma validate_tree_creates (d : D) :
  lofts_groups d = [] ->
  _validate_tree d
  = (inr (snd (add_lofts d)), doc_recompute (fst (add_lofts d)),
     [addObject "App::DocumentObjectGroup" "Lofts"; recompute]).
Proof.
  intros Hnone. unfold _validate_tree. rewrite bind_gets.
  fold (lofts_groups d). by rewrite Hnone.
Qed.

Lemma validate_tree_finds (d : D) (group : Object) (others : list Object) :
  lofts_groups d = group :: others -> _validate_tree d = (inr group, d, []).
Proof.
  intros Hsome. unfold _validate_tree. rewrite bind_gets.
  fold (lofts_groups d). by rewrite Hsome.
Qed.

Lemma validate_tree_times_idle (n : nat) (d : D) :
  lofts_groups d <> [] -> validate_tree_times n d = (inr tt, d, []).
Proof.
  intros Hd. induction n as [|n IH]; [done |].
  destruct (lofts_groups d) as [|group others] eqn:Hgroups; [done |].
  simpl. by rewrite (bind_outcome _ _ _ _ _ _ (validate_tree_finds d group others Hgroups)), IH.
Qed.


End Tree.

(** *** Mutations of the two procedures are recomputed *)

Section Recompute.
Context {D : Type} `{Document D}.

Lemma validate_tree_settles : settles (_validate_tree : M D Object).
Proof.
  unfold _validate_tree. apply settles_bind_gets. intros [|first others].
  - apply (settles_then_recompute _ doc_recompute); [apply returns_request |].
    intros result. apply settles_quiet, quiet_ret.
  - apply settles_quiet, quiet_ret.
Qed.

(** [GenerateLoft.Activated] mutates the document only through the
    LoftGroup module and ends with a recompute. *)
Lemma loft_Activated_settles : settles (Activated : M D unit).
Proof.
  unfold Activated.
  apply settles_bind; [by apply settles_emit | intros _].
  apply settles_bind_gets. intros selection.
  destruct (sort_preselected selection [] []) as [[align_list template_list]|];
    [| by apply settles_emit].
  apply settles_bind_gets. intros d.
  apply settles_bind; [by apply settles_emit | intros _].
  apply settles_bind; [by apply settles_emit | intros _].
  apply settles_bind; [by apply settles_effect | intros _].
  apply settles_bind_gets. intros input. apply settles_bind_gets. intros d'.
  destruct (getObject d' "Lofts") as [lofts|]; [| apply settles_quiet, quiet_raise].
  apply settles_bind; [by apply settles_effect | intros _].
  apply settles_bind; [by apply settles_emit | intros _].
  apply settles_bind; [by apply settles_emit | intros _].
  apply settles_bind; [by apply settles_effect | intros _].
  by apply settles_effect.
Qed.

End Recompute.

Lemma doc_found_after_add (d : LoftScenario.Doc) :
  lofts_groups d = [] -> lofts_groups (fst (add_lofts d)) = [snd (add_lofts d)].
Proof.
  unfold lofts_groups, add_lofts. simpl. intros Hnone.
  by rewrite List.filter_app, Hnone.
Qed.



Lemma Activated_preselection_witness :
  Activated (LoftScenario.doc_selecting [LoftScenario.spline; LoftScenario.box])
  = (inr tt, LoftScenario.doc_selecting [LoftScenario.spline; LoftScenario.box],
     [new_dialog; loft_message]) /\
  exists rest,
    trace (Activated (LoftScenario.doc_selecting [LoftScenario.spline; LoftScenario.sketch]))
    = new_dialog
      :: call "dialog.set_alignment_list" ["Alignment"]
      :: call "dialog.set_template_list" ["Template"]
      :: call "dialog.exec_" []
      :: rest.
Proof.
  split.
  - apply (proj1 (Activated_preselection
                    (LoftScenario.doc_selecting [LoftScenario.spline; LoftScenario.box]))).
    apply Exists_cons_tl, Exists_cons_hd. split; discriminate.
  - destruct (proj2 (proj2 (Activated_preselection
                  (LoftScenario.doc_selecting [LoftScenario.spline; LoftScenario.sketch]))))
      as [rest Hrest].
    + repeat constructor; intros [Ha Ht]; by vm_compute in Ha, Ht.
    + exists rest. exact Hrest.
Defined.

End GenerateLoftFacts.

(** ** GenerateLoft: the command and the 'Lofts' object *)

Module GenerateLoftEdges.
Import Py Outcome PyFacts GenerateLoft GenerateLoftSpec GenerateLoftFacts.

Section Command.
Context {D : Type} `{Document D}.

(** X20. [Activated] relies on a 'Lofts' object it does not create: it
    never calls [_validate_tree].  With a pre-selection of the two
    accepted types and no object named 'Lofts' in the document once the
    dialog has closed, it raises AttributeError at
    [App.ActiveDocument.Lofts], after the dialog was shown and with no
    loft group created; with such an object it creates the loft group
    under it, sets stations and interval, regenerates, and ends with a
    recompute. *)
Theorem Activated_needs_Lofts (d : D) :
  Forall (fun obj => ~ other_type obj) (Gui_getSelection d) ->
  let align_list :=
    List.filter is_alignment (Gui_getSelection d)
    ++ folder_objects d (getObject d "Alignments") in
  let template_list :=
    List.filter is_template (Gui_getSelection d)
    ++ folder_objects d (getObject d "Templates") in
  let shown :=
    [new_dialog;
     call "dialog.set_alignment_list" (map Name align_list);
     call "dialog.set_template_list" (map Name template_list);
     call "dialog.exec_" []] in
  let input := dialog_input (dialog_exec d) in
  (getObject (dialog_exec d) "Lofts" = None ->
     Activated d = (inl (AttributeError "Document" "Lofts"), dialog_exec d, shown)) /\
  (forall lofts, getObject (dialog_exec d) "Lofts" = Some lofts ->
     Activated d
     = (inr tt,
        doc_recompute (regenerate (createLoftGroup (dialog_exec d) lofts input)),
        shown
        ++ [call "LoftGroup.createLoftGroup"
              [Name lofts; name input; alignment input; template input];
            call "_lg.set_stations" [stations input];
            call "_lg.set_interval" [interval input];
            call "_lg.regenerate" [];
            recompute])).
Proof.
  intros Hall align_list template_list shown input.
  pose proof (sort_preselected_app (Gui_getSelection d) [] [] [] Hall) as Hsort.
  rewrite app_nil_r in Hsort. simpl in Hsort.
  unfold Activated. rewrite bind_emit, bind_gets, Hsort.
  rewrite bind_gets. unfold id. rewrite !bind_emit, bind_effect, !bind_gets. unfold id.
  split.
  - by intros ->.
  - by intros lofts ->.
Qed.

End Command.

Lemma Activated_needs_Lofts_witness :
  Activated LoftScenario.empty_doc
  = (inl (AttributeError "Document" "Lofts"), LoftScenario.empty_doc,
     [new_dialog; call "dialog.set_alignment_list" [];
      call "dialog.set_template_list" []; call "dialog.exec_" []]).
Proof.
  assert (Forall (fun obj => ~ other_type obj) (Gui_getSelection LoftScenario.empty_doc))
    as Hall by constructor.
  apply (proj1 (Activated_needs_Lofts LoftScenario.empty_doc Hall)). reflexivity.
Defined.

End GenerateLoftEdges.

(** ** box_culvert_tools: the selection check comes after the first mutation *)

Module CulvertFacts.
Import Py Outcome PyFacts box_culvert_tools CulvertSpec.

Section Command.
Context {D : Type} `{Document D}.

(** The runs of [add_1_cell_box] that return [None] are the two that
    print a selection error; each has added the group, and nothing else
    follows the message. *)
Lemma add_1_cell_box_run (d : D) :
  add_1_cell_box d
  = match Gui_getSelection (with_group d) with
    | [] =>
        (inr None, with_group d,
         [add_group; call "BoxCulvert.BoxCulvert" [group_name d];
          print "No alignment selected"])
    | sel =>
        match sweep_path sel with
        | inl e =>
            (inl e, with_group d,
             [add_group; call "BoxCulvert.BoxCulvert" [group_name d]])
        | inr None =>
            (inr None, with_group d,
             [add_group; call "BoxCulvert.BoxCulvert" [group_name d];
              print "Invalid selection for sweep"])
        | inr (Some path) =>
            (inr (Some (group_name d)),
             sweep_sketch (doc_recompute (orient_profile
               (attach_sketch (set_SweepPath (with_group d) path)
                  drainage_lib_path "box_1_cell"))),
             [add_group; call "BoxCulvert.BoxCulvert" [group_name d];
              call "box.SweepPath" [path];
              call "box.attach_sketch" [drainage_lib_path; "box_1_cell"];
              call "box.orient_profile" []; recompute;
              call "box.sweep_sketch" ["10000.0"]])
        end
    end.
Proof.
  unfold add_1_cell_box. rewrite bind_request, bind_modify, bind_effect, bind_gets.
  fold (with_group d). fold (group_name d).
  destruct (Gui_getSelection (with_group d)) as [|first others]; [reflexivity |].
  change (is_empty (first :: others)) with false. cbv iota.
  destruct (sweep_path (first :: others)) as [e|[path|]].
  - by rewrite bind_lift_inl.
  - by rewrite bind_lift_inr, !bind_effect.
  - by rewrite bind_lift_inr.
Qed.

Lemma add_1_cell_box_error_run (d : D) :
  result (add_1_cell_box d) = inr None ->
  exists message,
    selection_error message /\
    add_1_cell_box d
    = (inr None, with_group d,
       [add_group; call "BoxCulvert.BoxCulvert" [group_name d]; print message]).
Proof.
  rewrite add_1_cell_box_run.
  destruct (Gui_getSelection (with_group d)) as [|first others].
  - intros _. exists "No alignment selected". split; [by left | reflexivity].
  - destruct (sweep_path (first :: others)) as [e|[path|]]; try done.
    intros _. exists "Invalid selection for sweep". split; [by right | reflexivity].
Qed.

(** C2, on the code.  Whenever [add_1_cell_box] reports a selection error
    it has already added the group object to the document: the call that
    adds it is the first of the trace, and the document it leaves is the
    one with the group in it. *)
Theorem add_1_cell_box_error_after_mutation (d : D) :
  result (add_1_cell_box d) = inr None ->
  (exists message, selection_error message /\ last (trace (add_1_cell_box d)) = Some (print message)) /\
  head (trace (add_1_cell_box d)) = Some add_group /\
  existsb is_mutation (trace (add_1_cell_box d)) = true /\
  final (add_1_cell_box d) = with_group d.
Proof.
  intros Hnone. destruct (add_1_cell_box_error_run d Hnone) as (message & Hmessage & ->).
  split; [by exists message |]. done.
Qed.

(** C7, on the code.  On the runs of [add_1_cell_box] that report a
    selection error the added group is followed by no recompute: the
    trace has a mutation and no recompute at all. *)
Theorem add_1_cell_box_error_not_recomputed (d : D) :
  result (add_1_cell_box d) = inr None ->
  recomputed_after (trace (add_1_cell_box d)) = false /\
  existsb is_recompute (trace (add_1_cell_box d)) = false.
Proof.
  intros Hnone. by destruct (add_1_cell_box_error_run d Hnone) as (message & _ & ->).
Qed.

(** On the runs that return the group, the recompute does follow. *)
Lemma add_1_cell_box_success_recomputed (d : D) (obj : string) :
  result (add_1_cell_box d) = inr (Some obj) ->
  recomputed_after (trace (add_1_cell_box d)) = true.
Proof.
  rewrite add_1_cell_box_run.
  destruct (Gui_getSelection (with_group d)) as [|first others]; [done |].
  by destruct (sweep_path (first :: others)) as [e|[path|]].
Qed.

End Command.

Lemma add_1_cell_box_error_after_mutation_witness :
  (exists message,
     selection_error message /\
     last (trace (add_1_cell_box CulvertScenario.nothing_selected)) = Some (print message)) /\
  head (trace (add_1_cell_box CulvertScenario.nothing_selected)) = Some add_group /\
  existsb is_mutation (trace (add_1_cell_box CulvertScenario.nothing_selected)) = true /\
  final (add_1_cell_box CulvertScenario.nothing_selected)
  = with_group CulvertScenario.nothing_selected.
Proof. apply (add_1_cell_box_error_after_mutation CulvertScenario.nothing_selected). reflexivity. Defined.

Lemma add_1_cell_box_error_not_recomputed_witness :
  recomputed_after (trace (add_1_cell_box CulvertScenario.sketch_selected)) = false /\
  existsb is_recompute (trace (add_1_cell_box CulvertScenario.sketch_selected)) = false.
Proof. apply (add_1_cell_box_error_not_recomputed CulvertScenario.sketch_selected). reflexivity. Defined.

(** With nothing selected the command leaves a document that has one
    object more than it had, and has not recomputed it. *)
Lemma add_1_cell_box_nothing_selected :
  add_1_cell_box CulvertScenario.nothing_selected
  = (inr None,
     {| CulvertScenario.names := ["BoxCulvert1Cell"];
        CulvertScenario.labels := [("BoxCulvert1Cell", "BoxCulvert1Cell")];
        CulvertScenario.selection := [];
        CulvertScenario.recomputes := 0 |},
     [add_group; call "BoxCulvert.BoxCulvert" ["BoxCulvert1Cell"];
      print "No alignment selected"]).
Proof. reflexivity. Qed.

End CulvertFacts.

(** ** box_culvert_tools: which selection makes a culvert *)

Module CulvertEdges.
Import Py Outcome PyFacts box_culvert_tools CulvertSpec CulvertFacts.

Section Command.
Context {D : Type} `{Document D}.

Lemma sweep_path_alignment (sel : list Selected) (path : string) :
  sweep_path sel = inr (Some path) <->
  exists first others paths,
    sel = first :: others /\ Proxy first = Some (Some "Alignment") /\
    Group first = path :: paths.
Proof.
  split.
  - unfold sweep_path. destruct sel as [|first others]; [done |].
    rewrite subscript_0.
    destruct (Proxy first) as [[proxy_type|]|] eqn:Hproxy; try done.
    destruct (String.eqb_spec proxy_type "Alignment") as [-> | _]; [| done].
    destruct (Group first) as [|path' paths] eqn:Hgroup; [done |].
    rewrite subscript_0. intros [= <-]. by exists first, others, paths.
  - intros (first & others & paths & -> & Hproxy & Hgroup).
    unfold sweep_path. by rewrite subscript_0, Hproxy, Hgroup.
Qed.

(** X21. [add_1_cell_box] returns the new group exactly when the first
    selected object, read after the group has been added, has a proxy of
    type "Alignment" and a non-empty group; the other selected objects
    and the other members of the group play no part.  The sweep path is
    then the first member of that group, and the recompute comes after
    the profile is oriented and before it is swept. *)
Theorem add_1_cell_box_returns_group (d : D) (obj : string) :
  result (add_1_cell_box d) = inr (Some obj) <->
  obj = group_name d /\
  exists first others path paths,
    Gui_getSelection (with_group d) = first :: others /\
    Proxy first = Some (Some "Alignment") /\
    Group first = path :: paths /\
    trace (add_1_cell_box d)
    = [add_group; call "BoxCulvert.BoxCulvert" [group_name d];
       call "box.SweepPath" [path];
       call "box.attach_sketch" [drainage_lib_path; "box_1_cell"];
       call "box.orient_profile" []; recompute;
       call "box.sweep_sketch" ["10000.0"]].
Proof.
  rewrite add_1_cell_box_run.
  destruct (Gui_getSelection (with_group d)) as [|first others] eqn:Hsel.
  { split; [done | by intros (_ & ? & ? & ? & ? & ? & _)]. }
  destruct (sweep_path (first :: others)) as [e|[path|]] eqn:Hpath.
  - split; [done |]. intros (_ & first' & others' & path & paths & [= <- <-] & Hproxy & Hgroup & _).
    assert (sweep_path (first :: others) = inr (Some path)) as Hsome
      by (apply sweep_path_alignment; by exists first, others, paths).
    by rewrite Hsome in Hpath.
  - apply sweep_path_alignment in Hpath as (first' & others' & paths & [= <- <-] & Hproxy & Hgroup).
    split.
    + intros [= <-]. split; [done |]. by exists first, others, path, paths.
    + by intros [-> _].
  - split; [done |]. intros (_ & first' & others' & path & paths & [= <- <-] & Hproxy & Hgroup & _).
    assert (sweep_path (first :: others) = inr (Some path)) as Hsome
      by (apply sweep_path_alignment; by exists first, others, paths).
    by rewrite Hsome in Hpath.
Qed.

(** X22. When the selected alignment has an empty group,
    [add_1_cell_box] raises IndexError at [sel[0].Group[0]]: the group
    object it added first stays in the document, and neither a message
    nor a recompute follows. *)
Theorem add_1_cell_box_empty_alignment (d : D) (first : Selected) (others : list Selected) :
  Gui_getSelection (with_group d) = first :: others ->
  Proxy first = Some (Some "Alignment") ->
  Group first = [] ->
  add_1_cell_box d
  = (inl IndexError, with_group d,
     [add_group; call "BoxCulvert.BoxCulvert" [group_name d]]).
Proof.
  intros Hsel Hproxy Hgroup. rewrite add_1_cell_box_run, Hsel.
  unfold sweep_path. by rewrite subscript_0, Hproxy, Hgroup.
Qed.

End Command.

Lemma add_1_cell_box_returns_group_witness :
  "BoxCulvert1Cell" = group_name CulvertScenario.alignment_selected /\
  exists first others path paths,
    Gui_getSelection (with_group CulvertScenario.alignment_selected) = first :: others /\
    Proxy first = Some (Some "Alignment") /\
    Group first = path :: paths /\
    trace (add_1_cell_box CulvertScenario.alignment_selected)
    = [add_group;
       call "BoxCulvert.BoxCulvert" [group_name CulvertScenario.alignment_selected];
       call "box.SweepPath" [path];
       call "box.attach_sketch" [drainage_lib_path; "box_1_cell"];
       call "box.orient_profile" []; recompute;
       call "box.sweep_sketch" ["10000.0"]].
Proof.
  apply (proj1 (add_1_cell_box_returns_group CulvertScenario.alignment_selected
                  "BoxCulvert1Cell")).
  reflexivity.
Defined.

Lemma add_1_cell_box_empty_alignment_witness :
  add_1_cell_box CulvertScenario.empty_alignment_selected
  = (inl IndexError, with_group CulvertScenario.empty_alignment_selected,
     [add_group;
      call "BoxCulvert.BoxCulvert" [group_name CulvertScenario.empty_alignment_selected]]).
Proof.
  apply (add_1_cell_box_empty_alignment CulvertScenario.empty_alignment_selected
           {| Proxy := Some (Some "Alignment"); Group := [] |} []);
    reflexivity.
Defined.

End CulvertEdges.

(** ** box_culvert_tools: drafting the ends and adding a headwall *)

Module CulvertPartsFacts.
Import Py Outcome PyFacts box_culvert_parts CulvertPartsSpec.

Lemma find_parameters_last (children : list Object) (parameters : option Object) :
  find_parameters children parameters
  = match last (List.filter is_parameters children) with
    | Some child => Some child
    | None => parameters
    end.
Proof.
  revert parameters. induction children as [|child rest IH]; intros parameters; [done |].
  cbn [find_parameters List.filter]. rewrite IH. unfold is_parameters at 2.
  destruct (contains "Parameters" (Label child)); [| done].
  rewrite last_cons. by destruct (last (List.filter is_parameters rest)).
Qed.

Section Tools.
Context {D : Type} `{Document D}.

Lemma get_parameters_run (d : D) (parent_obj : Object) :
  get_parameters (Some parent_obj) d
  = match last (List.filter is_parameters (Group d parent_obj)) with
    | Some parameters => (inr (Some parameters), d, [])
    | None => (inr None, d, [print "Unable to find Parameters object"])
    end.
Proof.
  unfold get_parameters. rewrite bind_gets. unfold id.
  rewrite find_parameters_last.
  by destruct (last (List.filter is_parameters (Group d parent_obj))).
Qed.

(** X23. [get_parameters] returns the last child of the parent whose label
    holds "Parameters", not the first; it prints its message and returns
    [None] exactly when no child has such a label; it never changes the
    document. *)
Theorem get_parameters_last_match (d : D) (parent_obj : Object) :
  get_parameters (Some parent_obj) d
  = match last (List.filter is_parameters (Group d parent_obj)) with
    | Some parameters => (inr (Some parameters), d, [])
    | None => (inr None, d, [print "Unable to find Parameters object"])
    end.
Proof. apply get_parameters_run. Qed.

Lemma get_body_run (d : D) :
  get_body d
  = match Gui_getSelection d with
    | [] => (inl IndexError, d, [])
    | first :: _ =>
        match getParentGeoFeatureGroup d first with
        | None => (inl (AttributeError "NoneType" "TypeId"), d, [])
        | Some body =>
            if String.eqb (TypeId body) "PartDesign::Body"
            then (inr (Some body), d, [])
            else (inr None, d, [print "invalid object hierarchy.  Body not found."])
        end
    end.
Proof.
  unfold get_body. rewrite bind_gets.
  destruct (Gui_getSelection d) as [|first others]; [done |].
  rewrite subscript_0, bind_lift_inr, bind_gets. unfold id.
  destruct (getParentGeoFeatureGroup d first) as [body|]; [| done].
  by destruct (String.eqb (TypeId body) "PartDesign::Body").
Qed.

Lemma find_sweep_pipe (children : list Object) (sweep : Object) :
  find_sweep children = Some sweep -> TypeId sweep = "PartDesign::AdditivePipe".
Proof.
  induction children as [|child rest IH]; [done |]. simpl.
  destruct (String.eqb_spec (TypeId child) "PartDesign::AdditivePipe") as [Heq|_]; [| done].
  by intros [= <-].
Qed.

Lemma last_filter_holds {A} (P : A -> bool) (l : list A) (x : A) :
  last (List.filter P l) = Some x -> P x = true.
Proof.
  intros Hlast%last_Some_elem_of. apply list_elem_of_In, List.filter_In in Hlast.
  by destruct Hlast.
Qed.

(** The runs of [draft_ends], with every host call answering: a run
    stops at a check, with the document as it found it, or performs the
    whole draft. *)
Lemma draft_ends_run (d : D) :
  (final (draft_ends d) = d /\
   no_mutation (trace (draft_ends d)) /\
   existsb is_recompute (trace (draft_ends d)) = false) \/
  (exists body sweep parameters face0 face1,
     head (Gui_getSelectionEx d) = Some [face0; face1] /\
     contains "Face" face0 = true /\ contains "Face" face1 = true /\
     TypeId body = "PartDesign::Body" /\
     TypeId sweep = "PartDesign::AdditivePipe" /\
     is_parameters parameters = true /\
     result (draft_ends d) = inr tt /\
     trace (draft_ends d) = draft_calls body sweep parameters face0 face1).
Proof.
  unfold draft_ends. rewrite bind_gets.
  destruct (Gui_getSelectionEx d) as [|faces others] eqn:Hex;
    [left; by repeat constructor |].
  rewrite subscript_0, bind_lift_inr.
  destruct faces as [|face0 [|face1 [|face2 more]]];
    try (left; by repeat constructor).
  2: { replace (Z.of_nat (length (face0 :: face1 :: face2 :: more)) =? 2) with false
         by (symmetry; apply Z.eqb_neq; simpl length; lia).
       left. by repeat constructor. }
  change (Z.of_nat (length [face0; face1]) =? 2) with true. cbv iota.
  cbn [count_faces]. rewrite subscript_0, subscript_1.
  destruct (contains "Face" face0) eqn:Hface0, (contains "Face" face1) eqn:Hface1;
    try (left; by repeat constructor).
  rewrite bind_lift_inr. change (negb (0 + 1 + 1 =? 2)) with false. cbv iota.
  rewrite bind_gets.
  destruct (Gui_getSelection d) as [|sel0 [|sel1 rest]] eqn:Hsel;
    try (left; by repeat constructor).
  rewrite subscript_0, subscript_1, !bind_lift_inr.
  destruct (String.eqb (Name sel0) (Name sel1)); [| left; by repeat constructor].
  cbn [negb]. pose proof (get_body_run d) as Hbody. rewrite Hsel in Hbody.
  destruct (getParentGeoFeatureGroup d sel0) as [body|].
  2: { rewrite (bind_raises _ _ _ _ _ _ Hbody). left. by repeat constructor. }
  destruct (String.eqb_spec (TypeId body) "PartDesign::Body") as [Hbody_type|_].
  2: { rewrite (bind_outcome _ _ _ _ _ _ Hbody). left. by repeat constructor. }
  rewrite (bind_outcome _ _ _ _ _ _ Hbody). rewrite bind_gets. unfold id.
  destruct (find_sweep (Group d body)) as [sweep|] eqn:Hsweep;
    [| left; by repeat constructor].
  destruct (getParentGroup d body) as [parent|]; [| left; by repeat constructor].
  pose proof (get_parameters_run d parent) as Hparameters.
  destruct (last (List.filter is_parameters (Group d parent))) as [parameters|] eqn:Hlast.
  2: { rewrite (bind_outcome _ _ _ _ _ _ Hparameters). left. by repeat constructor. }
  rewrite (bind_outcome _ _ _ _ _ _ Hparameters).
  right. exists body, sweep, parameters, face0, face1.
  split; [done |]. split; [done |]. split; [done |]. split; [done |].
  split; [by apply (find_sweep_pipe (Group d body)) |].
  split; [by apply (last_filter_holds _ _ _ Hlast) |].
  split; reflexivity.
Qed.


(** X25. When the parent of the selection is not a body, [get_body]
    prints its message and returns [None], and [draft_ends], which does
    not test for it, raises AttributeError at [body.Group], with the
    document unchanged. *)
Theorem draft_ends_outside_body (d : D) (face0 face1 : string)
    (others : list (list string)) (sel0 sel1 parent : Object) (rest : list Object) :
  Gui_getSelectionEx d = [face0; face1] :: others ->
  contains "Face" face0 = true -> contains "Face" face1 = true ->
  Gui_getSelection d = sel0 :: sel1 :: rest ->
  Name sel0 = Name sel1 ->
  getParentGeoFeatureGroup d sel0 = Some parent ->
  TypeId parent <> "PartDesign::Body" ->
  get_body d = (inr None, d, [print "invalid object hierarchy.  Body not found."]) /\
  draft_ends d
  = (inl (AttributeError "NoneType" "Group"), d,
     [print "invalid object hierarchy.  Body not found."]).
Proof.
  intros Hex Hface0 Hface1 Hsel Hname Hparent Htype.
  assert (get_body d = (inr None, d, [print "invalid object hierarchy.  Body not found."]))
    as Hbody.
  { rewrite get_body_run, Hsel, Hparent.
    by destruct (String.eqb_spec (TypeId parent) "PartDesign::Body"). }
  split; [done |].
  unfold draft_ends. rewrite bind_gets, Hex, subscript_0, bind_lift_inr.
  change (Z.of_nat (length [face0; face1]) =? 2) with true. cbv iota.
  cbn [count_faces]. rewrite subscript_0, subscript_1, Hface0, Hface1, bind_lift_inr.
  change (negb (0 + 1 + 1 =? 2)) with false. cbv iota.
  rewrite bind_gets, Hsel, subscript_0, subscript_1, !bind_lift_inr.
  rewrite Hname, String.eqb_refl. cbn [negb].
  by rewrite (bind_outcome _ _ _ _ _ _ Hbody).
Qed.

Lemma add_headwall_run (d : D) :
  add_headwall d
  = match EndWall_validate_selection d with
    | None => (inr tt, d, [print "Unimplemented"])
    | Some geometry =>
        let obj := snd (doc_addObject d "App::DocumentObjectGroupPython" "Headwall") in
        match Gui_getSelection (with_headwall d) with
        | [] => (inl IndexError, with_headwall d, [print "Unimplemented"; add_headwall_group])
        | first :: _ =>
            match getParentGeoFeatureGroup (with_headwall d) first with
            | None =>
                (inl (AttributeError "NoneType" "TypeId"), with_headwall d,
                 [print "Unimplemented"; add_headwall_group])
            | Some body =>
                if String.eqb (TypeId body) "PartDesign::Body" then
                  match getParentGroup (with_headwall d) body with
                  | None =>
                      (inl (AttributeError "NoneType" "Group"), with_headwall d,
                       [print "Unimplemented"; add_headwall_group])
                  | Some parent =>
                      match last (List.filter is_parameters
                                    (Group (with_headwall d) parent)) with
                      | None =>
                          (inr tt, with_headwall d,
                           [print "Unimplemented"; add_headwall_group;
                            print "Unable to find Parameters object"])
                      | Some parameters =>
                          (inr tt,
                           doc_recompute
                             (orient_profile
                                (attach_sketch
                                   (EndWall_init (with_headwall d) obj parameters)
                                   drainage_lib_path "headwall") geometry),
                           [print "Unimplemented"; add_headwall_group;
                            call "EndWall.EndWall" [Name obj; Name parameters];
                            call "headwall.attach_sketch" [drainage_lib_path; "headwall"];
                            call "headwall.orient_profile" [geometry];
                            recompute])
                      end
                  end
                else
                  (inl (AttributeError "NoneType" "getParentGroup"), with_headwall d,
                   [print "Unimplemented"; add_headwall_group;
                    print "invalid object hierarchy.  Body not found."])
            end
        end
    end.
Proof.
  unfold add_headwall. rewrite bind_emit, bind_gets.
  destruct (EndWall_validate_selection d) as [geometry|]; [| done].
  rewrite bind_request, bind_modify. fold (with_headwall d). cbv zeta.
  pose proof (get_body_run (with_headwall d)) as Hbody.
  destruct (Gui_getSelection (with_headwall d)) as [|first others].
  { by rewrite (bind_raises _ _ _ _ _ _ Hbody). }
  destruct (getParentGeoFeatureGroup (with_headwall d) first) as [body|].
  2: { by rewrite (bind_raises _ _ _ _ _ _ Hbody). }
  destruct (String.eqb (TypeId body) "PartDesign::Body").
  2: { by rewrite (bind_outcome _ _ _ _ _ _ Hbody). }
  rewrite (bind_outcome _ _ _ _ _ _ Hbody), bind_gets, bind_ret. unfold id.
  destruct (getParentGroup (with_headwall d) body) as [parent|]; [| done].
  pose proof (get_parameters_run (with_headwall d) parent) as Hparameters.
  destruct (last (List.filter is_parameters (Group (with_headwall d) parent)));
    by rewrite (bind_outcome _ _ _ _ _ _ Hparameters).
Qed.

(** X26. [add_headwall] first prints "Unimplemented", and when the
    EndWall module rejects the selection nothing else happens.  When
    the selection is accepted, the "Headwall" group is added to the
    document before the body and the parameters are looked for: with a
    body whose group holds no parameters object the command prints its
    message and returns, and with a parent that is not a body it raises
    AttributeError at [body.getParentGroup()]; either way the group is
    left in the document, added and labelled, and nothing is
    recomputed. *)
Theorem add_headwall_leaves_group (d : D) :
  (EndWall_validate_selection d = None ->
     add_headwall d = (inr tt, d, [print "Unimplemented"])) /\
  (forall geometry first others body,
     EndWall_validate_selection d = Some geometry ->
     Gui_getSelection (with_headwall d) = first :: others ->
     getParentGeoFeatureGroup (with_headwall d) first = Some body ->
     (TypeId body <> "PartDesign::Body" ->
        add_headwall d
        = (inl (AttributeError "NoneType" "getParentGroup"), with_headwall d,
           [print "Unimplemented"; add_headwall_group;
            print "invalid object hierarchy.  Body not found."])) /\
     (forall parent,
        TypeId body = "PartDesign::Body" ->
        getParentGroup (with_headwall d) body = Some parent ->
        List.filter is_parameters (Group (with_headwall d) parent) = [] ->
        add_headwall d
        = (inr tt, with_headwall d,
           [print "Unimplemented"; add_headwall_group;
            print "Unable to find Parameters object"]))).
Proof.
  rewrite add_headwall_run. split; [by intros -> |].
  intros geometry first others body -> -> ->. cbv zeta. split.
  - intros Htype. by destruct (String.eqb_spec (TypeId body) "PartDesign::Body").
  - intros parent -> -> ->. by rewrite String.eqb_refl.
Qed.

End Tools.

Lemma draft_ends_outside_body_witness :
  get_body PartsScenario.faces_outside_body
  = (inr None, PartsScenario.faces_outside_body,
     [print "invalid object hierarchy.  Body not found."]) /\
  draft_ends PartsScenario.faces_outside_body
  = (inl (AttributeError "NoneType" "Group"), PartsScenario.faces_outside_body,
     [print "invalid object hierarchy.  Body not found."]).
Proof.
  apply (draft_ends_outside_body PartsScenario.faces_outside_body "Face1" "Face3" []
           PartsScenario.pipe PartsScenario.pipe PartsScenario.part []);
    try reflexivity.
  vm_compute. discriminate.
Defined.


Lemma add_headwall_leaves_group_witness :
  add_headwall PartsScenario.edge_selected
  = (inr tt, with_headwall PartsScenario.edge_selected,
     [print "Unimplemented"; add_headwall_group;
      print "Unable to find Parameters object"]).
Proof.
  refine (proj2 (proj2 (add_headwall_leaves_group PartsScenario.edge_selected)
                   "Edge1" PartsScenario.pipe [] PartsScenario.body _ _ _)
            PartsScenario.culvert _ _ _);
    reflexivity.
Defined.

(** On the document of the scenario the draft is performed, with the
    second of the two parameter sheets. *)
Lemma draft_ends_faces_selected :
  result (draft_ends PartsScenario.faces_selected) = inr tt /\
  trace (draft_ends PartsScenario.faces_selected)
  = draft_calls PartsScenario.body PartsScenario.pipe PartsScenario.old_sheet "Face1" "Face3".
Proof. vm_compute. split; reflexivity. Qed.

End CulvertPartsFacts.

(** ** ImportTask: [examine_file] calls the file object *)

Module ImportTaskFacts.
Import Py Outcome PyFacts ImportTask.

Section Task.
Context `{System}.

(** C5, on the code.  When the path in the filename field cannot be
    opened, [examine_file] shows the critical dialog and returns with the
    form as it was.  When the path can be opened, [examine_file] raises
    [TypeError] at [stream(1024)], before the sniffer is asked anything:
    the delimiter and the headers checkbox are left as they were. *)
Theorem examine_file_outcomes (form : Form) :
  (open (filename form) = None ->
     examine_file form
     = (inr tt, form, [critical "Unable to open file " (filename form)])) /\
  (forall stream, open (filename form) = Some stream ->
     examine_file form
     = (inl (TypeError "'_io.TextIOWrapper' object is not callable"), form, [])).
Proof.
  unfold examine_file. rewrite bind_gets. split.
  - by intros ->.
  - by intros stream ->.
Qed.

End Task.

Lemma examine_file_outcomes_witness :
  examine_file (FileScenario.form_naming "missing.csv")
  = (inr tt, FileScenario.form_naming "missing.csv",
     [critical "Unable to open file " "missing.csv"]) /\
  examine_file (FileScenario.form_naming "alignment.csv")
  = (inl (TypeError "'_io.TextIOWrapper' object is not callable"),
     FileScenario.form_naming "alignment.csv", []).
Proof.
  split.
  - apply (proj1 (examine_file_outcomes (FileScenario.form_naming "missing.csv"))).
    reflexivity.
  - eapply (proj2 (examine_file_outcomes (FileScenario.form_naming "alignment.csv"))).
    reflexivity.
Defined.

End ImportTaskFacts.

(** ** ImportAlignmentViewDelegate: the editor of the header row *)

Module ImportAlignmentViewDelegateFacts.
Import Py ImportAlignmentViewDelegate.

(** X27. For a cell of the first row [createEditor] builds the combo box of
    the seven column names and sets its current index once: to 1,
    'Northing', when the text of the cell contains "Northing", and to 0,
    'Select...', for every other text.  The list comprehension keeps the
    positions that are themselves non-zero, not the positions of the
    names found, so a cell that shows "Easting" or "Radius" is never
    preselected.  For the rows below the first the editor of the base
    class is returned. *)
Theorem createEditor_preselects_Northing_only (row : Z) (value : string) :
  (row <= 0 ->
     createEditor row (Some value)
     = inr (ComboBox combo_box_model [if contains "Northing" value then 1 else 0])) /\
  (0 < row -> createEditor row (Some value) = inr BaseEditor).
Proof.
  unfold createEditor. split; intros Hrow.
  - destruct (Z.gtb_spec row 0) as [|_]; [lia |]. reflexivity.
  - destruct (Z.gtb_spec row 0) as [_|]; [reflexivity | lia].
Qed.

Lemma createEditor_preselects_Northing_only_witness :
  createEditor 0 (Some "Easting") = inr (ComboBox combo_box_model [0]) /\
  createEditor 0 (Some "Northing") = inr (ComboBox combo_box_model [1]).
Proof.
  split.
  - apply (proj1 (createEditor_preselects_Northing_only 0 "Easting")). lia.
  - apply (proj1 (createEditor_preselects_Northing_only 0 "Northing")). lia.
Defined.

End ImportAlignmentViewDelegateFacts.
